(** * The RAG ingestion and retrieval pipeline, embedded in Rocq

    The Python modules [exceptions.py], [config.py], [data_loader.py],
    [vector_db.py] and the two workflow functions of [main.py] are rendered
    as Rocq functions.  Every call that leaves the process (the embedding
    API, the Qdrant client, the PDF reader, the sentence splitter, the
    chat model, [time.sleep]) appends an event to a trace and takes its
    answer from an environment of oracles, so a function of the program is
    a function from the trace so far to a result and a longer trace.
    Logging calls have no effect on results and are left out. *)

From Stdlib Require Import ZArith PrimFloat Ascii String.
From stdpp Require Import base gmap strings list.

Set Warnings "-register-all,-inexact-float".

(** ** Python values shared by the modules *)

Module Py.

(** Truth value of a [str]: the empty string is falsy. *)
Definition truthy (s : string) : bool :=
  match s with
  | EmptyString => false
  | String _ _ => true
  end.

(** [a or b] on a [str | None] and a [str]. *)
Definition or_else (a : option string) (b : string) : string :=
  match a with
  | Some s => if truthy s then s else b
  | None => b
  end.

Definition digit (n : nat) : ascii :=
  ascii_of_nat (48 + n mod 10).

Fixpoint digits (fuel n : nat) (acc : string) : string :=
  match fuel with
  | O => acc
  | S fuel' =>
      let acc' := String (digit n) acc in
      if decide (n < 10)%nat then acc' else digits fuel' (n / 10) acc'
  end.

(** [str(n)] for a non-negative [int]. *)
Definition str_of_nat (n : nat) : string := digits (S n) n "".

(** ["sep".join(parts)]. *)
Fixpoint join (sep : string) (parts : list string) : string :=
  match parts with
  | [] => ""
  | [p] => p
  | p :: rest => p +:+ sep +:+ join sep rest
  end.

(** The line feed, ["\n"]. *)
Definition nl : string := String (ascii_of_nat 10) "".

(** A [str] is held as its UTF-8 encoding, one [ascii] per byte. *)
Definition of_bytes (bytes : list nat) : string :=
  foldr (fun n s => String (ascii_of_nat n) s) "" bytes.

(** [c.isspace()] on the ASCII range: tab to carriage return, the four
    separators 28 to 31, and the space. *)
Definition isspace (c : ascii) : bool :=
  let n := nat_of_ascii c in
  ((9 <=? n) && (n <=? 13)) || ((28 <=? n) && (n <=? 32)).

(** The white space of [str.strip()] beyond ASCII, each code point by its
    encoding: U+0085, U+00A0, U+1680, U+2000 to U+200A, U+2028, U+2029,
    U+202F, U+205F and U+3000. *)
Definition wide_spaces : list string :=
  [of_bytes [194; 133]; of_bytes [194; 160]; of_bytes [225; 154; 128]]
  ++ ((fun n => of_bytes [226; 128; n]) <$> seq 128 11)
  ++ [of_bytes [226; 128; 168]; of_bytes [226; 128; 169];
      of_bytes [226; 128; 175]; of_bytes [226; 129; 159];
      of_bytes [227; 128; 128]].

Fixpoint reversed (s acc : string) : string :=
  match s with
  | EmptyString => acc
  | String c rest => reversed rest (String c acc)
  end.

(** [s] without the prefix [p], when it starts with [p]. *)
Fixpoint drop_prefix (p s : string) : option string :=
  match p, s with
  | EmptyString, _ => Some s
  | String a p', String b s' =>
      if Ascii.eqb a b then drop_prefix p' s' else None
  | String _ _, EmptyString => None
  end.

(** [s] without its first code point, when that is white space;
    [codes] are the encodings beyond ASCII. *)
Definition drop_space (codes : list string) (s : string) : option string :=
  match s with
  | EmptyString => None
  | String c rest =>
      if isspace c then Some rest
      else list_find (fun r => bool_decide (is_Some r))
             ((fun p => drop_prefix p s) <$> codes) ≫= snd
  end.

Fixpoint lstrip_from (codes : list string) (fuel : nat) (s : string) : string :=
  match fuel with
  | O => s
  | S fuel' =>
      match drop_space codes s with
      | Some rest => lstrip_from codes fuel' rest
      | None => s
      end
  end.

(** [s.lstrip()]: every step removes at least one byte. *)
Definition lstrip (s : string) : string :=
  lstrip_from wide_spaces (String.length s) s.

(** [s.rstrip()]: the same from the end, on the reversed encodings. *)
Definition rstrip (s : string) : string :=
  let codes := (fun p => reversed p "") <$> wide_spaces in
  reversed (lstrip_from codes (String.length s) (reversed s "")) "".

(** [s.strip()]. *)
Definition strip (s : string) : string := rstrip (lstrip s).

(** A [float]: IEEE 754 binary64, never computed on by this program. *)
Definition Vector : Type := list PrimFloat.float.

End Py.

(** ** exceptions.py *)

Module Exceptions.

(** The exception classes the program names or can meet.  All of them
    derive from [Exception].  The errors of the OpenAI client are listed
    with their hierarchy, since [embed_texts] tests for [APIError]:
    [OpenAIError] is the client's root, [APIError] is below it, and below
    [APIError] are [APIResponseValidationError], [APIConnectionError]
    (with [APITimeoutError]) and [APIStatusError], whose subclasses are
    the errors by HTTP status ([BadRequestError] 400,
    [AuthenticationError] 401, [PermissionDeniedError] 403,
    [NotFoundError] 404, [ConflictError] 409, [UnprocessableEntityError]
    422, [RateLimitError] 429, [InternalServerError] 500 and above).
    [OtherException] stands for any further direct subclass of
    [Exception] a collaborator raises. *)
Inductive exc_class : Set :=
| Exception
| ValueError
| IndexError
| OtherException (name : string)
| UnexpectedResponse      (* qdrant_client.http.exceptions *)
| OpenAIError             (* openai *)
| APIError                (* openai, below OpenAIError *)
| APIResponseValidationError
| APIStatusError
| APIConnectionError
| APITimeoutError         (* below APIConnectionError *)
| BadRequestError         (* these eight are below APIStatusError *)
| AuthenticationError
| PermissionDeniedError
| NotFoundError
| ConflictError
| UnprocessableEntityError
| RateLimitError
| InternalServerError
| RetryError              (* tenacity *)
| RAGException
| ConfigurationError
| PDFLoadError
| ChunkingError
| EmbeddingError
| VectorDBError
| SearchError
| LLMError.

#[global] Instance exc_class_eq_dec : EqDecision exc_class.
Proof. solve_decision. Defined.

(** The direct base class; [Exception] is the root. *)
Definition base (c : exc_class) : option exc_class :=
  match c with
  | Exception => None
  | APIError => Some OpenAIError
  | APIResponseValidationError | APIStatusError | APIConnectionError =>
      Some APIError
  | APITimeoutError => Some APIConnectionError
  | BadRequestError | AuthenticationError | PermissionDeniedError
  | NotFoundError | ConflictError | UnprocessableEntityError
  | RateLimitError | InternalServerError => Some APIStatusError
  | ConfigurationError | PDFLoadError | ChunkingError | EmbeddingError
  | VectorDBError | SearchError | LLMError => Some RAGException
  | _ => Some Exception
  end.

Fixpoint issubclass_fuel (fuel : nat) (c d : exc_class) : bool :=
  if decide (c = d) then true
  else match fuel, base c with
       | S fuel', Some b => issubclass_fuel fuel' b d
       | _, _ => false
       end.

(** The deepest class is four steps below [Exception]. *)
Definition issubclass (c d : exc_class) : bool := issubclass_fuel 4 c d.

(** A value of the structured detail map, [dict[str, Any]]: the program
    stores strings and one integer. *)
Inductive detail : Set :=
| DStr (s : string)
| DInt (n : Z).

(** An exception object: its class, [message] (also what [str(e)] gives),
    [details] and [original_error]. *)
Inductive exn : Type :=
  Exn { cls : exc_class;
        message : string;
        details : gmap string detail;
        original_error : option exn }.

Definition isinstance (e : exn) (c : exc_class) : bool := issubclass (cls e) c.

(** [str(e)], as the f-strings of the program use it. *)
Definition str (e : exn) : string := message e.

(** [RAGException.__init__]: [self.details = details or {}]. *)
Definition RAGException_init (c : exc_class) (message : string)
    (details : option (gmap string detail)) (original_error : option exn) : exn :=
  Exn c message (default ∅ details) original_error.

Definition set_detail (k : string) (v : detail) (e : exn) : exn :=
  Exn (cls e) (message e) (<[k := v]> (details e)) (original_error e).

(** [PDFLoadError.__init__]: [if file_path: self.details["file_path"] = file_path]. *)
Definition PDFLoadError_init (message : string) (file_path : option string)
    (original_error : option exn) : exn :=
  let e := RAGException_init PDFLoadError message None original_error in
  match file_path with
  | Some p => if Py.truthy p then set_detail "file_path" (DStr p) e else e
  | None => e
  end.

(** [EmbeddingError.__init__]: [if model: ...] and
    [if text_count is not None: ...]. *)
Definition EmbeddingError_init (message : string) (model : option string)
    (text_count : option Z) (original_error : option exn) : exn :=
  let e := RAGException_init EmbeddingError message None original_error in
  let e := match model with
           | Some m => if Py.truthy m then set_detail "model" (DStr m) e else e
           | None => e
           end in
  match text_count with
  | Some n => set_detail "text_count" (DInt n) e
  | None => e
  end.

(** [VectorDBError.__init__]: [if operation: ...] and [if collection: ...]. *)
Definition VectorDBError_init (message : string) (operation : option string)
    (collection : option string) (original_error : option exn) : exn :=
  let e := RAGException_init VectorDBError message None original_error in
  let e := match operation with
           | Some o => if Py.truthy o then set_detail "operation" (DStr o) e else e
           | None => e
           end in
  match collection with
  | Some c => if Py.truthy c then set_detail "collection" (DStr c) e else e
  | None => e
  end.

(** [ChunkingError] and [SearchError] add nothing to the base class. *)
Definition ChunkingError_init (message : string) (original_error : option exn) : exn :=
  RAGException_init ChunkingError message None original_error.

Definition SearchError_init (message : string) (original_error : option exn) : exn :=
  RAGException_init SearchError message None original_error.

(** [to_dict]: the wire form of an exception. *)
Definition to_dict (e : exn) : exc_class * string * gmap string detail :=
  (cls e, message e, details e).

End Exceptions.

(** ** config.py *)

Module Config.

Record Settings : Type := {
  openai_api_key : string;
  openai_embed_model : string;
  openai_embed_dim : Z;
  openai_chat_model : string;
  qdrant_url : string;
  qdrant_collection : string;
  qdrant_timeout : Z;
  chunk_size : Z;
  chunk_overlap : Z
}.

(** The defaults of the [Settings] class, for a given API key. *)
Definition defaults (key : string) : Settings := {|
  openai_api_key := key;
  openai_embed_model := "text-embedding-3-large";
  openai_embed_dim := 3072;
  openai_chat_model := "gpt-4o-mini";
  qdrant_url := "http://localhost:6333";
  qdrant_collection := "docs";
  qdrant_timeout := 30;
  chunk_size := 1000;
  chunk_overlap := 200
|}.

End Config.

(** ** The outside world: events, oracles and the monad of the program *)

Module World.
Import Py Exceptions.

(** A document the PDF reader returns: [getattr(d, "text", None)]. *)
Record Document : Type := { doc_text : option string }.

(** [qdrant_client.models.PointStruct]. *)
Record PointStruct : Type := {
  point_id : string;
  point_vector : Vector;
  point_payload : gmap string string
}.

(** A scored point of a search answer; [sp_payload] is
    [getattr(r, "payload", None)].  Payload values are strings, as the
    ingestion step writes them. *)
Record ScoredPoint : Type := {
  sp_id : string;
  sp_score : PrimFloat.float;
  sp_payload : option (gmap string string)
}.

(** One chat message of the body sent to the model. *)
Record Message : Type := { role : string; content : string }.

(** The body of [ctx.step.ai.infer]. *)
Record InferBody : Type := {
  max_tokens : Z;
  temperature : PrimFloat.float;
  messages : list Message
}.

(** Every call that leaves the process, [time.sleep] included. *)
Inductive event : Type :=
| EmbeddingsCreate (model : string) (input : list string)
| Sleep (seconds : Z)
| QdrantClientNew (url : string) (timeout : Z)
| CollectionExists (collection : string)
| CreateCollection (collection : string) (size : Z)
| ClientUpsert (collection : string) (points : list PointStruct)
| ClientSearch (collection : string) (query_vector : Vector) (limit : Z)
| GetCollections
| LoadData (file : string)
| SplitText (text : string)
| Infer (step_id : string) (auth_key model : string) (body : InferBody).

Definition trace : Type := list event.

(** What a call gives back: a value or a raised exception. *)
Inductive result (A : Type) : Type :=
| Return (a : A)
| Raise (e : exn).
Arguments Return {A} a.
Arguments Raise {A} e.

(** The collaborators.  Each answer may depend on everything that
    happened before (the trace) and on the request. *)
Record Env : Type := {
  embeddings_create : trace -> string -> list string -> result (list Vector);
  qdrant_client_new : trace -> string -> Z -> result unit;
  collection_exists : trace -> string -> result bool;
  create_collection : trace -> string -> Z -> result unit;
  client_upsert : trace -> string -> list PointStruct -> result unit;
  client_search : trace -> string -> Vector -> Z -> result (list ScoredPoint);
  get_collections : trace -> result unit;
  load_data : trace -> string -> result (list Document);
  split_text : trace -> string -> result (list string);
  ai_infer : trace -> string -> string -> InferBody -> result string
}.

(** The Python runtime: the order in which a [set] of strings is
    iterated.  The argument lists the members in the order they were
    first added; the language fixes only that the iteration yields each
    member once. *)
Record Runtime : Type := {
  set_iter : list string -> list string;
  set_iter_perm : forall members, set_iter members ≡ₚ members
}.

(** A computation of the program. *)
Definition M (A : Type) : Type := trace -> result A * trace.

Definition ret {A} (a : A) : M A := fun tr => (Return a, tr).

Definition raise {A} (e : exn) : M A := fun tr => (Raise e, tr).

Definition bind {A B} (m : M A) (k : A -> M B) : M B :=
  fun tr =>
    match m tr with
    | (Return a, tr') => k a tr'
    | (Raise e, tr') => (Raise e, tr')
    end.

(** [try: m  except Exception as e: handler e]; every class of
    [exc_class] derives from [Exception]. *)
Definition try_except {A} (m : M A) (handler : exn -> M A) : M A :=
  fun tr =>
    match m tr with
    | (Return a, tr') => (Return a, tr')
    | (Raise e, tr') => handler e tr'
    end.

(** A call to a collaborator: ask the oracle, record the event. *)
Definition call {A} (ev : event) (oracle : trace -> result A) : M A :=
  fun tr => (oracle tr, tr ++ [ev]).

(** Lift a pure computation that may raise. *)
Definition lift {A} (r : result A) : M A := fun tr => (r, tr).

Declare Scope prog_scope.
Delimit Scope prog_scope with prog.
Notation "x <- m ;; k" := (bind m (fun x => k))
  (at level 100, m at next level, right associativity) : prog_scope.

(** The events of one kind in a piece of trace. *)
Definition is_embedding_call (ev : event) : bool :=
  match ev with EmbeddingsCreate _ _ => true | _ => false end.

Definition is_upsert_call (ev : event) : bool :=
  match ev with ClientUpsert _ _ => true | _ => false end.

Definition count_events (p : event -> bool) (tr : trace) : nat :=
  length (filter (fun ev => p ev = true) tr).

Definition sleeps (tr : trace) : list Z :=
  omap (fun ev => match ev with Sleep s => Some s | _ => None end) tr.

End World.

(** ** tenacity: the [@retry] decorator *)

Module Tenacity.
Import Py Exceptions World.

(** [wait_exponential(multiplier, min, max)], with the default base 2:
    [max(max(0, min), min(multiplier * 2 ** (attempt_number - 1), max))]. *)
Definition wait_exponential (multiplier min max : Z) (attempt_number : nat) : Z :=
  Z.max (Z.max 0 min) (Z.min (multiplier * 2 ^ (Z.of_nat attempt_number - 1)) max).

(** [retry_if_exception_type(types)]. *)
Definition retry_if_exception_type (types : list exc_class) (e : exn) : bool :=
  existsb (isinstance e) types.

Record Retrying : Type := {
  stop_after_attempt : nat;
  wait : nat -> Z;
  retry : exn -> bool
}.

(** [RetryError(last_attempt)]: raised when the stop condition fires on
    an attempt whose exception asked for a retry ([reraise] is off).  The
    last attempt's exception is kept in [original_error]. *)
Definition RetryError_init (last : exn) : exn :=
  Exn RetryError "RetryError" ∅ (Some last).

(** The attempts from [attempt_number] on, with [remaining] more
    attempts allowed after this one. *)
Fixpoint attempts {A} (r : Retrying) (remaining attempt_number : nat)
    (f : M A) : M A :=
  fun tr =>
    match f tr with
    | (Return a, tr') => (Return a, tr')
    | (Raise e, tr') =>
        if retry r e then
          match remaining with
          | O => (Raise (RetryError_init e), tr')
          | S remaining' =>
              attempts r remaining' (S attempt_number) f
                (tr' ++ [Sleep (wait r attempt_number)])
          end
        else (Raise e, tr')
    end.

(** The decorated function: attempt 1, and [stop_after_attempt - 1]
    further attempts at most. *)
Definition retrying {A} (r : Retrying) (f : M A) : M A :=
  attempts r (stop_after_attempt r - 1) 1 f.

End Tenacity.

(** ** data_loader.py *)

Module DataLoader.
Import Py Exceptions Config World Tenacity.
Local Open Scope prog_scope.

Section WithEnv.
Context (settings : Settings) (env : Env).

(** [texts = [d.text for d in docs if getattr(d, "text", None)]]. *)
Definition page_texts (docs : list Document) : list string :=
  omap (fun d => match doc_text d with
                 | Some t => if truthy t then Some t else None
                 | None => None
                 end) docs.

(** The loop [for t in texts: chunks.extend(splitter.split_text(t))]. *)
Fixpoint split_all (texts : list string) (chunks : list string) : M (list string) :=
  match texts with
  | [] => ret chunks
  | t :: rest =>
      parts <- call (SplitText t) (fun tr => split_text env tr t) ;;
      split_all rest (chunks ++ parts)
  end.

Definition load_and_chunk_pdf (path : string) : M (list string) :=
  docs <- try_except
            (call (LoadData path) (fun tr => load_data env tr path))
            (fun e => raise (PDFLoadError_init
                               ("Failed to load PDF: " +:+ str e)
                               (Some path) (Some e))) ;;
  let texts := page_texts docs in
  match texts with
  | [] => raise (PDFLoadError_init "No text content found in PDF" (Some path) None)
  | _ :: _ =>
      try_except
        (split_all texts [])
        (fun e => raise (ChunkingError_init
                           ("Failed to chunk text: " +:+ str e) (Some e)))
  end.

(** The retry policy of [embed_texts]. *)
Definition embed_retrying : Retrying := {|
  stop_after_attempt := 3;
  wait := wait_exponential 1 2 10;
  retry := retry_if_exception_type [APIError; RateLimitError]
|}.

(** The body of [embed_texts], under the decorator. *)
Definition embed_texts_body (texts : list string) : M (list Vector) :=
  match texts with
  | [] => ret []
  | _ :: _ =>
      try_except
        (call (EmbeddingsCreate (openai_embed_model settings) texts)
              (fun tr => embeddings_create env tr (openai_embed_model settings) texts))
        (fun e =>
           if isinstance e APIError || isinstance e RateLimitError
           then raise e
           else raise (EmbeddingError_init
                         ("Failed to generate embeddings: " +:+ str e)
                         (Some (openai_embed_model settings))
                         (Some (Z.of_nat (length texts)))
                         (Some e)))
  end.

Definition embed_texts (texts : list string) : M (list Vector) :=
  retrying embed_retrying (embed_texts_body texts).

(** [range(start, stop, step)] for a positive [step], as the list of
    its members; [fuel] bounds the number of members. *)
Fixpoint range_from (fuel : nat) (start stop step : Z) : list Z :=
  match fuel with
  | O => []
  | S fuel' =>
      if decide (start < stop)%Z
      then start :: range_from fuel' (start + step) stop step
      else []
  end.

(** [texts[i:j]] for [0 <= i <= j]. *)
Definition slice (texts : list string) (i j : Z) : list string :=
  take (Z.to_nat j - Z.to_nat i) (drop (Z.to_nat i) texts).

(** The loop of [embed_texts_batch] over the batch starts. *)
Fixpoint batch_loop (texts : list string) (batch_size : Z) (starts : list Z)
    (all_embeddings : list Vector) : M (list Vector) :=
  match starts with
  | [] => ret all_embeddings
  | i :: rest =>
      embeddings <- embed_texts (slice texts i (i + batch_size)) ;;
      batch_loop texts batch_size rest (all_embeddings ++ embeddings)
  end.

(** [range(0, len(texts), batch_size)] raises [ValueError] for a zero
    step and is empty for a negative one. *)
Definition embed_texts_batch (texts : list string) (batch_size : Z) : M (list Vector) :=
  match texts with
  | [] => ret []
  | _ :: _ =>
      if decide (batch_size = 0)%Z
      then raise (Exn ValueError "range() arg 3 must not be zero" ∅ None)
      else if decide (batch_size < 0)%Z
      then ret []
      else batch_loop texts batch_size
             (range_from (length texts) 0 (Z.of_nat (length texts)) batch_size) []
  end.

End WithEnv.

End DataLoader.

(** ** vector_db.py *)

Module VectorDb.
Import Py Exceptions Config World Tenacity.
Local Open Scope prog_scope.

(** The attributes of a [QdrantStorage] object; the client it holds is
    the Qdrant part of the environment. *)
Record QdrantStorage : Type := {
  url : string;
  collection : string;
  dim : Z
}.

(** The dictionary [search] returns. *)
Record SearchOutput : Type := {
  contexts : list string;
  sources : list string
}.

(** [sources.add(source)] on a set kept as the list of its members in
    the order they were first added. *)
Definition set_add (x : string) (members : list string) : list string :=
  if decide (x ∈ members) then members else members ++ [x].

(** [payload.get("text", "")] after [getattr(r, "payload", None) or {}]. *)
Definition payload_get (r : ScoredPoint) (key : string) : string :=
  default "" (default ∅ (sp_payload r) !! key).

(** One turn of the loop [for r in results] of [search]. *)
Definition search_step (acc : list string * list string) (r : ScoredPoint)
    : list string * list string :=
  let text := payload_get r "text" in
  let source := payload_get r "source" in
  if truthy text then (acc.1 ++ [text], set_add source acc.2) else acc.

(** The loop of [search] from empty [contexts] and [sources]. *)
Definition collect_results (results : list ScoredPoint) : list string * list string :=
  foldl search_step ([], []) results.

Definition index_error : exn := Exn IndexError "list index out of range" ∅ None.

(** [PointStruct(id=ids[i], vector=vectors[i], payload=payloads[i])]. *)
Definition point_at (ids : list string) (vectors : list Vector)
    (payloads : list (gmap string string)) (i : nat) : result PointStruct :=
  match ids !! i, vectors !! i, payloads !! i with
  | Some id, Some v, Some p => Return (Build_PointStruct id v p)
  | _, _, _ => Raise index_error
  end.

(** A list comprehension whose element expression may raise: the first
    exception ends it. *)
Fixpoint comprehension {A B} (f : A -> result B) (xs : list A) : result (list B) :=
  match xs with
  | [] => Return []
  | x :: rest =>
      match f x with
      | Raise e => Raise e
      | Return b =>
          match comprehension f rest with
          | Raise e => Raise e
          | Return bs => Return (b :: bs)
          end
      end
  end.

(** [[PointStruct(...) for i in range(len(ids))]]. *)
Definition build_points (ids : list string) (vectors : list Vector)
    (payloads : list (gmap string string)) : result (list PointStruct) :=
  comprehension (point_at ids vectors payloads) (seq 0 (length ids)).

(** The retry policy written on [upsert] and on [search]. *)
Definition qdrant_retrying : Retrying := {|
  stop_after_attempt := 3;
  wait := wait_exponential 1 1 5;
  retry := retry_if_exception_type [UnexpectedResponse]
|}.

Section WithEnv.
Context (settings : Settings) (env : Env) (rt : Runtime).

Definition _ensure_collection (self : QdrantStorage) : M unit :=
  try_except
    (present <- call (CollectionExists (collection self))
                  (fun tr => collection_exists env tr (collection self)) ;;
     if present : bool then ret tt
     else call (CreateCollection (collection self) (dim self))
               (fun tr => create_collection env tr (collection self) (dim self)))
    (fun e => raise (VectorDBError_init
                       ("Failed to create collection: " +:+ str e)
                       (Some "create_collection") (Some (collection self)) (Some e))).

(** [QdrantStorage.__init__]. *)
Definition QdrantStorage_init (url_arg collection_arg : option string)
    (dim_arg : option Z) : M QdrantStorage :=
  let self := {|
    url := or_else url_arg (qdrant_url settings);
    collection := or_else collection_arg (qdrant_collection settings);
    dim := match dim_arg with
           | Some d => if decide (d = 0)%Z then openai_embed_dim settings else d
           | None => openai_embed_dim settings
           end |} in
  try_except
    (_ <- call (QdrantClientNew (url self) (qdrant_timeout settings))
            (fun tr => qdrant_client_new env tr (url self) (qdrant_timeout settings)) ;;
     _ <- _ensure_collection self ;;
     ret self)
    (fun e => raise (VectorDBError_init
                       ("Failed to connect to Qdrant: " +:+ str e)
                       (Some "connect") None (Some e))).

(** The body of [upsert], under the decorator. *)
Definition upsert_body (self : QdrantStorage) (ids : list string)
    (vectors : list Vector) (payloads : list (gmap string string)) : M Z :=
  match ids with
  | [] => ret 0%Z
  | _ :: _ =>
      try_except
        (points <- lift (build_points ids vectors payloads) ;;
         _ <- call (ClientUpsert (collection self) points)
                (fun tr => client_upsert env tr (collection self) points) ;;
         ret (Z.of_nat (length points)))
        (fun e => raise (VectorDBError_init
                           ("Failed to upsert vectors: " +:+ str e)
                           (Some "upsert") (Some (collection self)) (Some e)))
  end.

Definition upsert (self : QdrantStorage) (ids : list string)
    (vectors : list Vector) (payloads : list (gmap string string)) : M Z :=
  retrying qdrant_retrying (upsert_body self ids vectors payloads).

(** The body of [search], under the decorator. *)
Definition search_body (self : QdrantStorage) (query_vector : Vector)
    (top_k : Z) : M SearchOutput :=
  try_except
    (results <- call (ClientSearch (collection self) query_vector top_k)
                  (fun tr => client_search env tr (collection self) query_vector top_k) ;;
     let found := collect_results results in
     ret {| contexts := found.1; sources := set_iter rt found.2 |})
    (fun e => raise (SearchError_init ("Search failed: " +:+ str e) (Some e))).

Definition search (self : QdrantStorage) (query_vector : Vector)
    (top_k : Z) : M SearchOutput :=
  retrying qdrant_retrying (search_body self query_vector top_k).

Definition health_check (self : QdrantStorage) : M bool :=
  try_except
    (_ <- call GetCollections (fun tr => get_collections env tr) ;;
     ret true)
    (fun _ => ret false).

End WithEnv.

End VectorDb.

(** ** uuid and hashlib: [uuid.uuid5], over SHA-1 *)

Module Uuid.
Local Open Scope Z_scope.

Definition mask32 (x : Z) : Z := Z.land x 4294967295.

(** Rotation to the left of a 32-bit word. *)
Definition rotl (n x : Z) : Z :=
  mask32 (Z.lor (Z.shiftl x n) (Z.shiftr x (32 - n))).

Definition add32 (x y : Z) : Z := mask32 (x + y).

(** [bytes(name, "utf-8")]: a Rocq string is the byte string already. *)
Definition bytes_of_string (s : string) : list Z :=
  (fun c => Z.of_nat (nat_of_ascii c)) <$> list_ascii_of_string s.

(** The [n] low bytes of [x], most significant first. *)
Fixpoint be_bytes (n : nat) (x : Z) : list Z :=
  match n with
  | O => []
  | S n' => Z.land (Z.shiftr x (8 * Z.of_nat n')) 255 :: be_bytes n' x
  end.

(** SHA-1 padding: a one bit, zeros up to 56 modulo 64, the bit length
    on eight bytes. *)
Definition pad (msg : list Z) : list Z :=
  let len := Z.of_nat (length msg) in
  msg ++ [128] ++ replicate (Z.to_nat ((55 - len) mod 64)) 0 ++ be_bytes 8 (8 * len).

Fixpoint words (fuel : nat) (bs : list Z) : list Z :=
  match fuel, bs with
  | S fuel', a :: b :: c :: d :: rest =>
      (Z.shiftl a 24 + Z.shiftl b 16 + Z.shiftl c 8 + d) :: words fuel' rest
  | _, _ => []
  end.

(** The message schedule, the latest word first. *)
Fixpoint schedule (n : nat) (w : list Z) : list Z :=
  match n with
  | O => w
  | S n' =>
      let x := Z.lxor (Z.lxor (nth 2 w 0) (nth 7 w 0))
                      (Z.lxor (nth 13 w 0) (nth 15 w 0)) in
      schedule n' (rotl 1 x :: w)
  end.

Definition round_fk (t : nat) (b c d : Z) : Z * Z :=
  if (t <? 20)%nat
  then (Z.lor (Z.land b c) (Z.land (mask32 (Z.lnot b)) d), 1518500249)
  else if (t <? 40)%nat
  then (Z.lxor (Z.lxor b c) d, 1859775393)
  else if (t <? 60)%nat
  then (Z.lor (Z.lor (Z.land b c) (Z.land b d)) (Z.land c d), 2400959708)
  else (Z.lxor (Z.lxor b c) d, 3395469782).

Definition sha_state : Type := Z * Z * Z * Z * Z.

Fixpoint rounds (t : nat) (ws : list Z) (s : sha_state) : sha_state :=
  match ws with
  | [] => s
  | w :: ws' =>
      let '(a, b, c, d, e) := s in
      let '(f, k) := round_fk t b c d in
      let tmp := add32 (add32 (add32 (add32 (rotl 5 a) f) e) k) w in
      rounds (S t) ws' (tmp, a, rotl 30 b, c, d)
  end.

Definition compress (h : sha_state) (block : list Z) : sha_state :=
  let w := reverse (schedule 64 (reverse (words 16 block))) in
  let '(a, b, c, d, e) := rounds 0 w h in
  let '(h0, h1, h2, h3, h4) := h in
  (add32 h0 a, add32 h1 b, add32 h2 c, add32 h3 d, add32 h4 e).

Fixpoint blocks (fuel : nat) (bs : list Z) (h : sha_state) : sha_state :=
  match fuel, bs with
  | S fuel', _ :: _ => blocks fuel' (drop 64 bs) (compress h (take 64 bs))
  | _, _ => h
  end.

(** [hashlib.sha1(msg).digest()]. *)
Definition sha1 (msg : list Z) : list Z :=
  let padded := pad msg in
  let '(h0, h1, h2, h3, h4) :=
    blocks (length padded) padded
      (1732584193, 4023233417, 2562383102, 271733878, 3285377520) in
  be_bytes 4 h0 ++ be_bytes 4 h1 ++ be_bytes 4 h2 ++ be_bytes 4 h3 ++ be_bytes 4 h4.

Definition hex_digit (n : Z) : ascii :=
  ascii_of_nat (Z.to_nat (if n <? 10 then 48 + n else 87 + n)).

Definition hex_byte (b : Z) : string :=
  String (hex_digit (Z.shiftr b 4)) (String (hex_digit (Z.land b 15)) "").

Definition hex (bs : list Z) : string :=
  foldr (fun b acc => hex_byte b +:+ acc) "" bs.

(** [UUID(bytes=..., version=5)]: the variant bits of byte 8 and the
    version nibble of byte 6. *)
Definition set_version (bs : list Z) (version : Z) : list Z :=
  match bs with
  | b0 :: b1 :: b2 :: b3 :: b4 :: b5 :: b6 :: b7 :: b8 :: rest =>
      b0 :: b1 :: b2 :: b3 :: b4 :: b5
         :: Z.lor (Z.land b6 15) (Z.shiftl version 4) :: b7
         :: Z.lor (Z.land b8 63) 128 :: rest
  | _ => bs
  end.

(** [uuid.NAMESPACE_URL.bytes], 6ba7b811-9dad-11d1-80b4-00c04fd430c8. *)
Definition NAMESPACE_URL : list Z :=
  [107; 167; 184; 17; 157; 173; 17; 209; 128; 180; 0; 192; 79; 212; 48; 200].

(** [uuid.uuid5(namespace, name)], as its sixteen bytes. *)
Definition uuid5 (namespace : list Z) (name : string) : list Z :=
  set_version (take 16 (sha1 (namespace ++ bytes_of_string name))) 5.

(** [str(u)] of a UUID: 8-4-4-4-12 hexadecimal digits. *)
Definition uuid_str (bs : list Z) : string :=
  hex (take 4 bs) +:+ "-" +:+ hex (take 2 (drop 4 bs)) +:+ "-"
    +:+ hex (take 2 (drop 6 bs)) +:+ "-" +:+ hex (take 2 (drop 8 bs)) +:+ "-"
    +:+ hex (drop 10 bs).

End Uuid.

(** ** main.py: the two workflow functions *)

Module Main.
Import Py Exceptions Config World Tenacity DataLoader VectorDb.
Local Open Scope prog_scope.

(** custom_types.py *)
Record RAGChunkAndSrc : Type := { chunks : list string; source_id : string }.
Record RAGUpsertResult : Type := { ingested : Z }.
Record RAGSearchResult : Type := {
  found_contexts : list string;
  found_sources : list string
}.
Record RAGQueryResult : Type := {
  answer : string;
  result_sources : list string;
  num_contexts : Z
}.

(** The data of the two trigger events. *)
Record IngestEvent : Type := { pdf_path : string; event_source_id : option string }.
Record QueryEvent : Type := { question : string; event_top_k : option Z }.

(** [str(uuid.uuid5(uuid.NAMESPACE_URL, f"{source_id}:{i}"))]. *)
Definition chunk_point_id (source_id : string) (i : nat) : string :=
  Uuid.uuid_str (Uuid.uuid5 Uuid.NAMESPACE_URL (source_id +:+ ":" +:+ str_of_nat i)).

(** [ids = [... for i in range(len(chunks))]]. *)
Definition point_ids (source_id : string) (chunks : list string) : list string :=
  chunk_point_id source_id <$> seq 0 (length chunks).

(** [payloads = [{"source": source_id, "text": chunks[i]} for i in ...]]. *)
Definition point_payloads (source_id : string) (chunks : list string)
    : list (gmap string string) :=
  (fun c => <["text" := c]> (<["source" := source_id]> ∅)) <$> chunks.

(** The user message of the chat request. *)
Definition user_content (contexts : list string) (question : string) : string :=
  let context_block := join (nl +:+ nl) ((fun c => "- " +:+ c) <$> contexts) in
  "Use the following context to answer the question." +:+ nl +:+ nl
    +:+ "Context:" +:+ nl +:+ context_block +:+ nl +:+ nl
    +:+ "Question: " +:+ question +:+ nl
    +:+ "Answer concisely using the context above.".

Definition infer_body (contexts : list string) (question : string) : InferBody := {|
  max_tokens := 1024;
  temperature := 0.2%float;
  messages := [
    {| role := "system";
       content := "You answer questions using only the provided context." |};
    {| role := "user"; content := user_content contexts question |} ]
|}.

Section WithEnv.
Context (settings : Settings) (env : Env) (rt : Runtime).

(** The step function [_load] of [rag_ingest_pdf]. *)
Definition _load (ev : IngestEvent) : M RAGChunkAndSrc :=
  let source_id := default (pdf_path ev) (event_source_id ev) in
  chunks <- load_and_chunk_pdf env (pdf_path ev) ;;
  ret {| chunks := chunks; source_id := source_id |}.

(** The step function [_upsert] of [rag_ingest_pdf]. *)
Definition _upsert (chunks_and_src : RAGChunkAndSrc) : M RAGUpsertResult :=
  let chunks := chunks chunks_and_src in
  let source_id := source_id chunks_and_src in
  vecs <- embed_texts settings env chunks ;;
  let ids := point_ids source_id chunks in
  let payloads := point_payloads source_id chunks in
  store <- QdrantStorage_init settings env None None None ;;
  _ <- upsert env store ids vecs payloads ;;
  ret {| ingested := Z.of_nat (length chunks) |}.

(** [rag_ingest_pdf]: the two steps in order, each run once. *)
Definition rag_ingest_pdf (ev : IngestEvent) : M RAGUpsertResult :=
  chunks_and_src <- _load ev ;;
  _upsert chunks_and_src.

(** The step function [_search] of [rag_query_pdf_ai]. *)
Definition _search (question : string) (top_k : Z) : M RAGSearchResult :=
  vecs <- embed_texts settings env [question] ;;
  query_vec <- lift (match vecs !! 0%nat with
                     | Some v => Return v
                     | None => Raise index_error
                     end) ;;
  store <- QdrantStorage_init settings env None None None ;;
  found <- search env rt store query_vec top_k ;;
  ret {| found_contexts := contexts found; found_sources := sources found |}.

(** [rag_query_pdf_ai].  The oracle [ai_infer] answers with
    [res["choices"][0]["message"]["content"]]. *)
Definition rag_query_pdf_ai (ev : QueryEvent) : M RAGQueryResult :=
  let question := question ev in
  let top_k := default 5%Z (event_top_k ev) in
  found <- _search question top_k ;;
  let body := infer_body (found_contexts found) question in
  res <- call (Infer "llm-answer" (openai_api_key settings)
                 (openai_chat_model settings) body)
           (fun tr => ai_infer env tr (openai_api_key settings)
                        (openai_chat_model settings) body) ;;
  ret {| answer := strip res;
         result_sources := found_sources found;
         num_contexts := Z.of_nat (length (found_contexts found)) |}.

End WithEnv.

End Main.

(** ** Concrete collaborators, for running the program on examples *)

Module Fixtures.
Import Py Exceptions Config World.

Definition settings0 : Settings := defaults "test-api-key-12345".

(** A backend in which every call succeeds: each text is embedded by
    [embed_one], the collection exists, and a search answers [results]. *)
Definition env_ok (embed_one : string -> Vector) (results : list ScoredPoint)
    (docs : list Document) (reply : string) : Env := {|
  embeddings_create := fun _ _ input => Return (embed_one <$> input);
  qdrant_client_new := fun _ _ _ => Return tt;
  collection_exists := fun _ _ => Return true;
  create_collection := fun _ _ _ => Return tt;
  client_upsert := fun _ _ _ => Return tt;
  client_search := fun _ _ _ _ => Return results;
  get_collections := fun _ => Return tt;
  load_data := fun _ _ => Return docs;
  split_text := fun _ t => Return [t];
  ai_infer := fun _ _ _ _ => Return reply
|}.

(** A one-text embedding for the examples: as many halves as the text
    has bytes. *)
Definition embed_len (t : string) : Vector :=
  replicate (String.length t) 0.5%float.

Definition env0 : Env := env_ok embed_len [] [] "I cannot answer.".

(** A runtime that iterates a set in the order of insertion, and one
    that iterates it in the opposite order. *)
Definition rt_insertion : Runtime :=
  {| set_iter := fun members => members;
     set_iter_perm := fun members => reflexivity members |}.

Definition rt_reversed : Runtime :=
  {| set_iter := reverse;
     set_iter_perm := fun members => reverse_Permutation members |}.

Definition point (text source : string) : ScoredPoint :=
  {| sp_id := "p"; sp_score := 0.5%float;
     sp_payload := Some (<["text" := text]> (<["source" := source]> ∅)) |}.

Definition store0 : VectorDb.QdrantStorage :=
  {| VectorDb.url := "http://localhost:6333";
     VectorDb.collection := "docs";
     VectorDb.dim := 3072 |}.

(** The same collaborators with another embedding backend, another
    upsert, or another splitter. *)
Definition with_embeddings (env : Env)
    (f : trace -> string -> list string -> result (list Vector)) : Env := {|
  embeddings_create := f;
  qdrant_client_new := qdrant_client_new env;
  collection_exists := collection_exists env;
  create_collection := create_collection env;
  client_upsert := client_upsert env;
  client_search := client_search env;
  get_collections := get_collections env;
  load_data := load_data env;
  split_text := split_text env;
  ai_infer := ai_infer env
|}.

Definition with_upsert (env : Env)
    (f : trace -> string -> list PointStruct -> result unit) : Env := {|
  embeddings_create := embeddings_create env;
  qdrant_client_new := qdrant_client_new env;
  collection_exists := collection_exists env;
  create_collection := create_collection env;
  client_upsert := f;
  client_search := client_search env;
  get_collections := get_collections env;
  load_data := load_data env;
  split_text := split_text env;
  ai_infer := ai_infer env
|}.

Definition with_splitter (env : Env)
    (f : trace -> string -> result (list string)) : Env := {|
  embeddings_create := embeddings_create env;
  qdrant_client_new := qdrant_client_new env;
  collection_exists := collection_exists env;
  create_collection := create_collection env;
  client_upsert := client_upsert env;
  client_search := client_search env;
  get_collections := get_collections env;
  load_data := load_data env;
  split_text := f;
  ai_infer := ai_infer env
|}.

Definition rate_limited : exn := Exn RateLimitError "Rate limit reached" ∅ None.

Definition bad_input : exn := Exn ValueError "bad input" ∅ None.

Definition unexpected_response : exn :=
  Exn UnexpectedResponse "Unexpected Response: 503 (Service Unavailable)" ∅ None.

(** An embedding backend that always answers with the same exception. *)
Definition env_embed_raises (e : exn) : Env :=
  with_embeddings env0 (fun _ _ _ => Raise e).

(** A store whose first upsert meets a transient error and whose later
    upserts succeed. *)
Definition env_upsert_flaky : Env :=
  with_upsert env0
    (fun tr _ _ => if decide (count_events is_upsert_call tr = 0%nat)
                   then Raise unexpected_response else Return tt).

(** The default settings with an empty embedding model name. *)
Definition settings_unnamed_model : Settings := {|
  openai_api_key := "test-api-key-12345";
  openai_embed_model := "";
  openai_embed_dim := 3072;
  openai_chat_model := "gpt-4o-mini";
  qdrant_url := "http://localhost:6333";
  qdrant_collection := "docs";
  qdrant_timeout := 30;
  chunk_size := 1000;
  chunk_overlap := 200
|}.

End Fixtures.

(** * Properties *)

(** ** The retry decorator *)

Section RetryFacts.
Import Py Exceptions World Tenacity.

(** When the exception of the first attempt does not ask for a retry,
    or there is none, the decorated function is its body. *)
Lemma attempts_first {A} (r : Retrying) (n k : nat) (f : M A) (tr : trace) :
  (forall e tr', f tr = (Raise e, tr') -> retry r e = false) ->
  attempts r n k f tr = f tr.
Proof.
  intros Hno. destruct n; simpl.
  - destruct (f tr) as [[a | e] tr'] eqn:Hf; [done |].
    by rewrite (Hno e tr').
  - destruct (f tr) as [[a | e] tr'] eqn:Hf; [done |].
    by rewrite (Hno e tr').
Qed.

(** The waiting time stays between [max 0 lo] and [max (max 0 lo) hi]. *)
Lemma wait_exponential_bounds (m lo hi : Z) (n : nat) :
  (Z.max 0 lo <= wait_exponential m lo hi n
     <= Z.max (Z.max 0 lo) hi)%Z.
Proof. unfold wait_exponential. lia. Qed.

(** With a non-negative multiplier the waiting time never shrinks from
    one attempt to the next. *)
Lemma wait_exponential_mono (m lo hi : Z) (n : nat) :
  (0 <= m)%Z ->
  (wait_exponential m lo hi n <= wait_exponential m lo hi (S n))%Z.
Proof.
  intros Hm. unfold wait_exponential.
  assert (2 ^ (Z.of_nat n - 1) <= 2 ^ (Z.of_nat (S n) - 1))%Z as Hpow.
  { destruct n as [| n'].
    - simpl. done.
    - apply Z.pow_le_mono_r; lia. }
  assert (m * 2 ^ (Z.of_nat n - 1) <= m * 2 ^ (Z.of_nat (S n) - 1))%Z
    by (apply Z.mul_le_mono_nonneg_l; done).
  lia.
Qed.

End RetryFacts.

(** ** vector_db.py: search *)

Section SearchFacts.
Import Py Exceptions Config World Tenacity VectorDb.

(** The texts a search keeps, in the rank order of the answer. *)
Definition kept_texts (results : list ScoredPoint) : list string :=
  omap (fun r => let t := payload_get r "text" in
                 if truthy t then Some t else None) results.

(** The source of every kept point, in rank order, repeats included. *)
Definition kept_sources (results : list ScoredPoint) : list string :=
  omap (fun r => if truthy (payload_get r "text")
                 then Some (payload_get r "source") else None) results.

(** The distinct members of a list in the order of their first
    appearance. *)
Fixpoint first_appearance (l : list string) : list string :=
  match l with
  | [] => []
  | x :: rest => x :: filter (fun y => y ≠ x) (first_appearance rest)
  end.

Definition add_all (members : list string) (l : list string) : list string :=
  foldl (fun acc x => set_add x acc) members l.

Lemma collect_from (results : list ScoredPoint) (c s : list string) :
  foldl search_step (c, s) results
  = (c ++ kept_texts results, add_all s (kept_sources results)).
Proof.
  revert c s. induction results as [| r results IH]; intros c s.
  - simpl. by rewrite app_nil_r.
  - simpl. unfold search_step at 2. unfold kept_texts, kept_sources in *.
    simpl. destruct (truthy (payload_get r "text")); simpl.
    + rewrite IH. by rewrite <- app_assoc.
    + by rewrite IH.
Qed.

Lemma collect_results_eq (results : list ScoredPoint) :
  collect_results results
  = (kept_texts results, add_all [] (kept_sources results)).
Proof. unfold collect_results. by rewrite collect_from. Qed.

Lemma elem_of_set_add (x y : string) (s : list string) :
  x ∈ set_add y s <-> x = y \/ x ∈ s.
Proof.
  unfold set_add. case_decide as Hy.
  - split; [by right | intros [-> | H]; done].
  - rewrite elem_of_app, list_elem_of_singleton. tauto.
Qed.

Lemma NoDup_set_add (y : string) (s : list string) :
  NoDup s -> NoDup (set_add y s).
Proof.
  intros Hs. unfold set_add. case_decide as Hy; [done |].
  apply NoDup_app. split_and!; [done | | apply NoDup_singleton].
  intros x Hx Hxy. apply list_elem_of_singleton in Hxy. by subst.
Qed.

Lemma elem_of_add_all (x : string) (l s : list string) :
  x ∈ add_all s l <-> x ∈ s \/ x ∈ l.
Proof.
  revert s. induction l as [| y l IH]; intros s; simpl.
  - split; [by left | intros [H | H]; [done | by apply not_elem_of_nil in H]].
  - unfold add_all in *. simpl. rewrite IH, elem_of_set_add, elem_of_cons. tauto.
Qed.

Lemma NoDup_add_all (l s : list string) : NoDup s -> NoDup (add_all s l).
Proof.
  revert s. induction l as [| y l IH]; intros s Hs; [done |].
  unfold add_all in *. simpl. by apply IH, NoDup_set_add.
Qed.

(** The set, as the list of its members in the order they were added,
    is the list of first appearances. *)
Lemma add_all_first_appearance (l s : list string) :
  add_all s l = s ++ filter (fun y => y ∉ s) (first_appearance l).
Proof.
  revert s. induction l as [| x l IH]; intros s.
  - simpl. by rewrite app_nil_r.
  - unfold add_all in *. simpl. rewrite IH. unfold set_add.
    case_decide as Hx.
    + rewrite filter_cons_False by (intros H; done).
      f_equal. rewrite list_filter_filter. apply list_filter_iff.
      intros y. split; [| by intros [? _]].
      intros Hy. split; [done | by intros ->].
    + rewrite filter_cons_True by done.
      rewrite <- app_assoc. simpl. do 2 f_equal.
      rewrite list_filter_filter. apply list_filter_iff.
      intros y. rewrite elem_of_app, list_elem_of_singleton. tauto.
Qed.

Lemma add_all_nil (l : list string) : add_all [] l = first_appearance l.
Proof.
  rewrite add_all_first_appearance. simpl.
  induction (first_appearance l) as [| y k IH]; [done |].
  rewrite filter_cons_True by apply not_elem_of_nil. by f_equal.
Qed.

(** [search] wraps every exception of its body as [SearchError], which
    the decorator does not retry: the decorated method is its body. *)
Lemma search_is_body (env : Env) (rt : Runtime) (self : QdrantStorage)
    (qv : Vector) (k : Z) (tr : trace) :
  search env rt self qv k tr = search_body env rt self qv k tr.
Proof.
  unfold search, retrying. apply attempts_first.
  intros e tr'. unfold search_body, try_except, bind, call, ret, raise.
  destruct (client_search env tr (collection self) qv k); intros [= <- <-]; done.
Qed.

(** What [search] returns when the store answers [results]. *)
Lemma search_returns (env : Env) (rt : Runtime) (self : QdrantStorage)
    (qv : Vector) (k : Z) (tr : trace) (results : list ScoredPoint) :
  client_search env tr (collection self) qv k = Return results ->
  search env rt self qv k tr
  = (Return {| contexts := kept_texts results;
               sources := set_iter rt (first_appearance (kept_sources results)) |},
     tr ++ [ClientSearch (collection self) qv k]).
Proof.
  intros Hres. rewrite search_is_body.
  unfold search_body, try_except, bind, call, ret. rewrite Hres.
  by rewrite collect_results_eq, add_all_nil.
Qed.

End SearchFacts.

Section SearchClaims.
Import Py Exceptions Config World Tenacity VectorDb Fixtures.

Lemma kept_texts_filter (results : list ScoredPoint) :
  kept_texts results
  = filter (fun t => t ≠ "") ((fun r => payload_get r "text") <$> results).
Proof.
  induction results as [| r results IH]; [done |].
  unfold kept_texts in *. simpl. rewrite filter_cons.
  destruct (payload_get r "text") eqn:Ht; simpl.
  - exact IH.
  - f_equal. exact IH.
Qed.

Lemma truthy_nonempty (s : string) : truthy s = true <-> s ≠ "".
Proof. destruct s; simpl; split; done. Qed.

Lemma elem_of_kept_sources (s : string) (results : list ScoredPoint) :
  s ∈ kept_sources results
  <-> exists r, r ∈ results /\ payload_get r "text" ≠ "" /\ payload_get r "source" = s.
Proof.
  unfold kept_sources. rewrite list_elem_of_omap. split.
  - intros (r & Hr & Hs). exists r. split; [done |].
    destruct (truthy (payload_get r "text")) eqn:Ht; [| done].
    apply truthy_nonempty in Ht. by injection Hs.
  - intros (r & Hr & Ht & Hs). exists r. split; [done |].
    apply truthy_nonempty in Ht. by rewrite Ht, Hs.
Qed.

Lemma elem_of_first_appearance (x : string) (l : list string) :
  x ∈ first_appearance l <-> x ∈ l.
Proof.
  rewrite <- add_all_nil, elem_of_add_all. split; [| by right].
  intros [H | H]; [by apply not_elem_of_nil in H | done].
Qed.

Lemma NoDup_first_appearance (l : list string) : NoDup (first_appearance l).
Proof. rewrite <- add_all_nil. apply NoDup_add_all, NoDup_nil_2. Qed.

(** C2, as amended: when the store answers a search, [contexts] lists
    the non-empty texts of the answer in its rank order; [sources] holds
    every source of a point with non-empty text exactly once, as some
    rearrangement of their order of first appearance (the order is the
    iteration order of a Python set, which the program does not fix). *)
Theorem search_contexts_ranked_sources_distinct (env : Env) (rt : Runtime)
    (self : QdrantStorage) (qv : Vector) (k : Z) (tr : trace)
    (results : list ScoredPoint) :
  client_search env tr (collection self) qv k = Return results ->
  exists out,
    search env rt self qv k tr
      = (Return out, tr ++ [ClientSearch (collection self) qv k])
    /\ contexts out
       = filter (fun t => t ≠ "") ((fun r => payload_get r "text") <$> results)
    /\ sources out ≡ₚ first_appearance (kept_sources results)
    /\ NoDup (sources out)
    /\ forall s, s ∈ sources out
         <-> exists r, r ∈ results /\ payload_get r "text" ≠ ""
                       /\ payload_get r "source" = s.
Proof.
  intros Hres. eexists. split; [by apply search_returns |]. simpl.
  split; [apply kept_texts_filter |].
  split; [apply set_iter_perm |].
  split.
  - rewrite set_iter_perm. apply NoDup_first_appearance.
  - intros s. rewrite set_iter_perm, elem_of_first_appearance.
    apply elem_of_kept_sources.
Qed.

Lemma search_contexts_ranked_sources_distinct_witness :
  exists out,
    search (env_ok embed_len [point "t1" "a.pdf"; point "" "c.pdf"; point "t2" "b.pdf";
                              point "t3" "a.pdf"] [] "")
           rt_reversed store0 [] 5 []
      = (Return out, [] ++ [ClientSearch "docs" [] 5])
    /\ contexts out = ["t1"; "t2"; "t3"]
    /\ sources out = ["b.pdf"; "a.pdf"].
Proof.
  destruct (search_contexts_ranked_sources_distinct
              (env_ok embed_len [point "t1" "a.pdf"; point "" "c.pdf";
                                 point "t2" "b.pdf"; point "t3" "a.pdf"] [] "")
              rt_reversed store0 [] 5 [] _ eq_refl) as (out & Hrun & _).
  exists out. split; [exact Hrun |].
  vm_compute in Hrun. injection Hrun as <-. split; reflexivity.
Defined.

(** C2, as stated, fails: with a runtime that iterates a two-element set
    in the opposite order of insertion (CPython iterates in hash-table
    order, and string hashes are salted per process), the sources of two
    ranked points come back in the opposite order of first appearance. *)
Lemma search_sources_order_counterexample :
  ~ (forall (env : Env) (rt : Runtime) (self : QdrantStorage) (qv : Vector)
            (k : Z) (tr : trace) (results : list ScoredPoint),
        client_search env tr (collection self) qv k = Return results ->
        exists out,
          search env rt self qv k tr
            = (Return out, tr ++ [ClientSearch (collection self) qv k])
          /\ contexts out
             = filter (fun t => t ≠ "") ((fun r => payload_get r "text") <$> results)
          /\ sources out = first_appearance (kept_sources results)).
Proof.
  intros H.
  destruct (H (env_ok embed_len [point "t1" "a.pdf"; point "t2" "b.pdf"] [] "")
              rt_reversed store0 [] 5%Z [] _ eq_refl) as (out & Hrun & _ & Hsrc).
  vm_compute in Hrun. injection Hrun as <-.
  vm_compute in Hsrc. discriminate Hsrc.
Qed.

(** C5: a returned point whose text is empty or missing has no part in
    the answer: the search returns what it returns on the same ranked
    list without that point, no context is empty, and an empty result
    set gives empty [contexts] and [sources]. *)
Theorem search_skips_points_without_text (env : Env) (rt : Runtime)
    (self : QdrantStorage) (qv : Vector) (k : Z) (tr : trace) :
  (forall before r after,
      payload_get r "text" = "" ->
      client_search env tr (collection self) qv k = Return (before ++ r :: after) ->
      exists out,
        search env rt self qv k tr
          = (Return out, tr ++ [ClientSearch (collection self) qv k])
        /\ ("" ∉ contexts out)
        /\ forall env',
             client_search env' tr (collection self) qv k = Return (before ++ after) ->
             search env' rt self qv k tr
             = (Return out, tr ++ [ClientSearch (collection self) qv k]))
  /\ (client_search env tr (collection self) qv k = Return [] ->
      search env rt self qv k tr
      = (Return {| contexts := []; sources := [] |},
         tr ++ [ClientSearch (collection self) qv k])).
Proof.
  split.
  - intros before r after Ht Hres. eexists.
    split; [by apply search_returns |]. simpl. split.
    + rewrite kept_texts_filter, list_elem_of_filter. by intros [? _].
    + intros env' Hres'. rewrite (search_returns _ _ _ _ _ _ _ Hres').
      unfold kept_texts, kept_sources. rewrite !omap_app. simpl.
      by rewrite Ht.
  - intros Hres. rewrite (search_returns _ _ _ _ _ _ _ Hres). simpl.
    do 2 f_equal. f_equal. apply Permutation_nil_r, set_iter_perm.
Qed.

Lemma search_skips_points_without_text_witness :
  search (env_ok embed_len [point "t1" "a.pdf"; point "" "c.pdf"] [] "")
         rt_insertion store0 [] 5 []
  = search (env_ok embed_len [point "t1" "a.pdf"] [] "") rt_insertion store0 [] 5 []
  /\ search env0 rt_insertion store0 [] 5 []
     = (Return {| contexts := []; sources := [] |}, [ClientSearch "docs" [] 5]).
Proof.
  pose proof (search_skips_points_without_text
                (env_ok embed_len [point "t1" "a.pdf"; point "" "c.pdf"] [] "")
                rt_insertion store0 [] 5 []) as [Hskip _].
  destruct (Hskip [point "t1" "a.pdf"] (point "" "c.pdf") [] eq_refl eq_refl)
    as (out & Hrun & _ & Hsame).
  split.
  - rewrite Hrun. symmetry.
    exact (Hsame (env_ok embed_len [point "t1" "a.pdf"] [] "") eq_refl).
  - exact (proj2 (search_skips_points_without_text env0 rt_insertion store0 [] 5 [])
                 eq_refl).
Defined.

(** C10: a returned point with non-empty text and a missing or empty
    source still counts: its text is among [contexts] and the empty
    string is among [sources]. *)
Theorem search_keeps_point_without_source (env : Env) (rt : Runtime)
    (self : QdrantStorage) (qv : Vector) (k : Z) (tr : trace)
    (results : list ScoredPoint) (r : ScoredPoint) :
  client_search env tr (collection self) qv k = Return results ->
  r ∈ results ->
  payload_get r "text" ≠ "" ->
  payload_get r "source" = "" ->
  exists out,
    search env rt self qv k tr
      = (Return out, tr ++ [ClientSearch (collection self) qv k])
    /\ payload_get r "text" ∈ contexts out
    /\ "" ∈ sources out.
Proof.
  intros Hres Hr Ht Hs. eexists. split; [by apply search_returns |]. simpl. split.
  - rewrite kept_texts_filter, list_elem_of_filter. split; [done |].
    by apply (list_elem_of_fmap_2 (fun r => payload_get r "text")).
  - rewrite set_iter_perm, elem_of_first_appearance, elem_of_kept_sources.
    by exists r.
Qed.

(** A point whose payload has a text and no source key. *)
Definition point_without_source : ScoredPoint :=
  {| sp_id := "p"; sp_score := 0.5%float;
     sp_payload := Some (<["text" := "orphan text"]> ∅) |}.

Lemma search_keeps_point_without_source_witness :
  exists out,
    search (env_ok embed_len [point "t1" "a.pdf"; point_without_source] [] "")
           rt_insertion store0 [] 5 []
      = (Return out, [] ++ [ClientSearch "docs" [] 5])
    /\ "orphan text" ∈ contexts out
    /\ "" ∈ sources out.
Proof.
  apply (search_keeps_point_without_source
           (env_ok embed_len [point "t1" "a.pdf"; point_without_source] [] "")
           rt_insertion store0 [] 5 [] [point "t1" "a.pdf"; point_without_source]
           point_without_source eq_refl).
  - apply list_elem_of_lookup_2 with 1%nat. reflexivity.
  - vm_compute. discriminate.
  - reflexivity.
Defined.

(** C9: whatever the backend does, [health_check] returns a boolean and
    never raises; it returns [True] exactly when listing the collections
    succeeded, and [False] on any exception. *)
Theorem health_check_never_raises (env : Env) (self : QdrantStorage) (tr : trace) :
  exists b : bool,
    health_check env self tr = (Return b, tr ++ [GetCollections])
    /\ (b = true <-> exists u, get_collections env tr = Return u)
    /\ (b = false <-> exists e, get_collections env tr = Raise e).
Proof.
  unfold health_check, try_except, bind, call, ret.
  destruct (get_collections env tr) as [u | e] eqn:Hget.
  - exists true. split; [done |]. split; split; try done; eauto.
    by intros [e He].
  - exists false. split; [done |]. split; split; try done; eauto.
    by intros [u Hu].
Qed.

End SearchClaims.

(** ** data_loader.py: the retry policy of [embed_texts] *)

Section EmbedRetry.
Import Py Exceptions Config World Tenacity DataLoader Fixtures.

(** The request [embed_texts] sends for [texts]. *)
Definition embed_call (settings : Settings) (texts : list string) : event :=
  EmbeddingsCreate (openai_embed_model settings) texts.

(** An exception the decorator of [embed_texts] retries: an instance of
    [APIError] or of [RateLimitError]. *)
Definition transient (e : exn) : bool := retry embed_retrying e.

(** The [EmbeddingError] raised for a cause that is not retried. *)
Definition embedding_error (settings : Settings) (texts : list string) (e : exn) : exn :=
  EmbeddingError_init ("Failed to generate embeddings: " +:+ str e)
    (Some (openai_embed_model settings)) (Some (Z.of_nat (length texts))) (Some e).

(** The trace when [j] attempts have failed and been slept on: each is
    a request followed by the wait of that attempt. *)
Definition after_failures (settings : Settings) (texts : list string)
    (tr : trace) (j : nat) : trace :=
  tr ++ concat ((fun i => [embed_call settings texts; Sleep (wait embed_retrying i)])
                  <$> seq 1 j).

(** What the backend answers to attempt [j + 1]. *)
Definition outcome (settings : Settings) (env : Env) (texts : list string)
    (tr : trace) (j : nat) : result (list Vector) :=
  embeddings_create env (after_failures settings texts tr j)
    (openai_embed_model settings) texts.

Lemma transient_wrapped (settings : Settings) (texts : list string) (e : exn) :
  transient (embedding_error settings texts e) = false.
Proof.
  unfold embedding_error, EmbeddingError_init.
  destruct (truthy (openai_embed_model settings)); reflexivity.
Qed.

Lemma transient_isinstance (e : exn) :
  transient e = isinstance e APIError || isinstance e RateLimitError.
Proof. unfold transient. simpl. by rewrite orb_false_r. Qed.

(** [RateLimitError] is itself below [APIError]: the decorator retries
    exactly the instances of [APIError]. *)
Lemma transient_api_error (e : exn) : transient e = isinstance e APIError.
Proof.
  rewrite transient_isinstance. destruct e as [c m d o].
  unfold isinstance. cbn [cls]. by destruct c.
Qed.

(** One run of the body on a non-empty input. *)
Lemma embed_texts_body_run (settings : Settings) (env : Env)
    (texts : list string) (tr : trace) :
  texts ≠ [] ->
  embed_texts_body settings env texts tr
  = (match embeddings_create env tr (openai_embed_model settings) texts with
     | Return v => Return v
     | Raise e => if transient e then Raise e
                  else Raise (embedding_error settings texts e)
     end, tr ++ [embed_call settings texts]).
Proof.
  intros Hne. destruct texts as [| t texts]; [done |].
  unfold embed_texts_body, try_except, call, raise.
  destruct (embeddings_create env tr _ _) as [v | e]; [done |].
  rewrite transient_isinstance.
  by destruct (isinstance e APIError || isinstance e RateLimitError).
Qed.

(** One attempt under the decorator, by the answer of the backend. *)
Lemma embed_attempt (settings : Settings) (env : Env) (texts : list string)
    (n k : nat) (tr : trace) :
  texts ≠ [] ->
  attempts embed_retrying n k (embed_texts_body settings env texts) tr
  = match embeddings_create env tr (openai_embed_model settings) texts with
    | Return v => (Return v, tr ++ [embed_call settings texts])
    | Raise e =>
        if transient e then
          match n with
          | O => (Raise (RetryError_init e), tr ++ [embed_call settings texts])
          | S n' =>
              attempts embed_retrying n' (S k) (embed_texts_body settings env texts)
                (tr ++ [embed_call settings texts; Sleep (wait embed_retrying k)])
          end
        else (Raise (embedding_error settings texts e),
              tr ++ [embed_call settings texts])
    end.
Proof.
  intros Hne.
  destruct n; cbn [attempts]; rewrite embed_texts_body_run by done;
    destruct (embeddings_create env tr _ _) as [v | e]; try done;
    destruct (transient e) eqn:Htr;
    repeat match goal with
           | |- context [retry embed_retrying ?x] =>
               change (retry embed_retrying x) with (transient x)
           end;
    rewrite ?Htr, ?transient_wrapped, <- ?app_assoc; done.
Qed.

Lemma after_failures_0 settings texts tr : after_failures settings texts tr 0 = tr.
Proof. unfold after_failures. simpl. apply app_nil_r. Qed.

Lemma after_failures_S settings texts tr j :
  after_failures settings texts tr (S j)
  = after_failures settings texts tr j
      ++ [embed_call settings texts; Sleep (wait embed_retrying (S j))].
Proof.
  unfold after_failures. rewrite seq_S, fmap_app, concat_app. simpl.
  by rewrite app_assoc.
Qed.

End EmbedRetry.

Section EmbedRetryClaims.
Import Py Exceptions Config World Tenacity DataLoader Fixtures.

(** The first [j] attempts all raised an API error of the client. *)
Definition failed_with_api_errors (settings : Settings) (env : Env)
    (texts : list string) (tr : trace) (j : nat) : Prop :=
  forall i, (i < j)%nat ->
    exists e, outcome settings env texts tr i = Raise e
              /\ isinstance e APIError = true.

(** The embeddings endpoint requires a model name: while the configured
    name is empty, the only errors the client raises are API errors (the
    request is answered with status 400). *)
Definition rejects_unnamed_model (settings : Settings) (env : Env) : Prop :=
  truthy (openai_embed_model settings) = false ->
  forall tr texts e,
    embeddings_create env tr (openai_embed_model settings) texts = Raise e ->
    isinstance e APIError = true.

(** The classes of the client's errors that name a kind of failure:
    rate limit, server error, connection failure and timeout, and also
    authentication failure and malformed request. *)
Definition named_api_errors : list exc_class :=
  [RateLimitError; InternalServerError; APIConnectionError; APITimeoutError;
   AuthenticationError; BadRequestError].

(** [embed_texts] on a non-empty input, by the answers to its three
    possible attempts. *)
Lemma embed_texts_unrolled (settings : Settings) (env : Env)
    (texts : list string) (tr : trace) :
  texts ≠ [] ->
  let c := embed_call settings texts in
  let T := after_failures settings texts tr in
  embed_texts settings env texts tr
  = match outcome settings env texts tr 0 with
    | Return v => (Return v, T 0%nat ++ [c])
    | Raise e0 =>
        if transient e0 then
          match outcome settings env texts tr 1 with
          | Return v => (Return v, T 1%nat ++ [c])
          | Raise e1 =>
              if transient e1 then
                match outcome settings env texts tr 2 with
                | Return v => (Return v, T 2%nat ++ [c])
                | Raise e2 =>
                    if transient e2
                    then (Raise (RetryError_init e2), T 2%nat ++ [c])
                    else (Raise (embedding_error settings texts e2), T 2%nat ++ [c])
                end
              else (Raise (embedding_error settings texts e1), T 1%nat ++ [c])
          end
        else (Raise (embedding_error settings texts e0), T 0%nat ++ [c])
    end.
Proof.
  intros Hne c T. unfold embed_texts, retrying, outcome. subst T.
  cbn [stop_after_attempt embed_retrying Nat.sub].
  rewrite !after_failures_S, after_failures_0.
  rewrite embed_attempt by done.
  destruct (embeddings_create env tr _ _) as [v0 | e0]; [done |].
  destruct (transient e0); [| done].
  rewrite embed_attempt by done.
  destruct (embeddings_create env (tr ++ _) _ _) as [v1 | e1]; [done |].
  destruct (transient e1); [| done].
  rewrite embed_attempt by done.
  destruct (embeddings_create env ((tr ++ _) ++ _) _ _) as [v2 | e2]; [done |].
  by destruct (transient e2).
Qed.

(** C3, as amended: [embed_texts] on a non-empty input makes at most
    three attempts.  The decorator retries exactly the instances of the
    client's [APIError]: rate-limit and server errors, and also
    authentication failures and malformed requests, which are all below
    [APIError].  An attempt that raises one is followed by a wait and
    another attempt, the wait starting at 2 seconds, never shrinking and
    never above 10 seconds.  An attempt that raises anything else ends the
    call at once with an [EmbeddingError] whose details carry the model
    name and the text count.  Three retried failures end in tenacity's
    [RetryError], which is not an [EmbeddingError]. *)
Theorem embed_texts_retry_policy (settings : Settings) (env : Env)
    (texts : list string) (tr : trace) :
  texts ≠ [] ->
  rejects_unnamed_model settings env ->
  let c := embed_call settings texts in
  let T := after_failures settings texts tr in
  (stop_after_attempt embed_retrying = 3%nat
   /\ wait embed_retrying 1 = 2%Z
   /\ forall n, (2 <= wait embed_retrying n <= 10)%Z
                /\ (wait embed_retrying n <= wait embed_retrying (S n))%Z)
  /\ ((forall e, retry embed_retrying e = isinstance e APIError)
      /\ forall k, k ∈ named_api_errors -> issubclass k APIError = true)
  /\ (exists j r, (j < 3)%nat
                  /\ embed_texts settings env texts tr = (r, T j ++ [c]))
  /\ (forall j v, (j < 3)%nat ->
        failed_with_api_errors settings env texts tr j ->
        outcome settings env texts tr j = Return v ->
        embed_texts settings env texts tr = (Return v, T j ++ [c]))
  /\ (forall j e, (j < 3)%nat ->
        failed_with_api_errors settings env texts tr j ->
        outcome settings env texts tr j = Raise e ->
        isinstance e APIError = false ->
        let x := embedding_error settings texts e in
        embed_texts settings env texts tr = (Raise x, T j ++ [c])
        /\ cls x = EmbeddingError
        /\ original_error x = Some e
        /\ details x !! "text_count" = Some (DInt (Z.of_nat (length texts)))
        /\ details x !! "model" = Some (DStr (openai_embed_model settings)))
  /\ (failed_with_api_errors settings env texts tr 3 ->
      exists e, outcome settings env texts tr 2 = Raise e
                /\ embed_texts settings env texts tr
                   = (Raise (RetryError_init e), T 2%nat ++ [c])
                /\ cls (RetryError_init e) = RetryError
                /\ isinstance (RetryError_init e) EmbeddingError = false
                /\ isinstance (RetryError_init e) RAGException = false).
Proof.
  intros Hne Hclient c T.
  assert (forall j i, failed_with_api_errors settings env texts tr j ->
            (i < j)%nat ->
            exists e, outcome settings env texts tr i = Raise e
                      /\ transient e = true) as Hretried.
  { intros j i Hfail Hi. destruct (Hfail i Hi) as (e & He & Hapi).
    exists e. by rewrite transient_api_error. }
  split; [| split; [| split; [| split; [| split]]]].
  - split; [done |]. split; [done |]. intros n. split.
    + pose proof (wait_exponential_bounds 1 2 10 n). simpl. lia.
    + simpl. by apply wait_exponential_mono.
  - split; [exact transient_api_error |].
    intros k Hk. unfold named_api_errors in Hk.
    repeat (apply elem_of_cons in Hk as [-> | Hk]; [reflexivity |]).
    by apply elem_of_nil in Hk.
  - rewrite embed_texts_unrolled by done.
    destruct (outcome settings env texts tr 0) as [v0 | e0];
      [exists 0%nat; eexists; split; [lia | done] |].
    destruct (transient e0);
      [| exists 0%nat; eexists; split; [lia | done]].
    destruct (outcome settings env texts tr 1) as [v1 | e1];
      [exists 1%nat; eexists; split; [lia | done] |].
    destruct (transient e1);
      [| exists 1%nat; eexists; split; [lia | done]].
    exists 2%nat.
    destruct (outcome settings env texts tr 2) as [v2 | e2];
      [eexists; split; [lia | done] |].
    destruct (transient e2); eexists; (split; [lia | done]).
  - intros j v Hj Hfail Hout. rewrite embed_texts_unrolled by done.
    destruct j as [| [| [| j]]]; [| | | lia].
    + by rewrite Hout.
    + destruct (Hretried _ 0%nat Hfail ltac:(lia)) as (e0 & -> & ->).
      by rewrite Hout.
    + destruct (Hretried _ 0%nat Hfail ltac:(lia)) as (e0 & -> & ->).
      destruct (Hretried _ 1%nat Hfail ltac:(lia)) as (e1 & -> & ->).
      by rewrite Hout.
  - intros j e Hj Hfail Hout Hfatal x.
    assert (transient e = false) as Hnot by by rewrite transient_api_error.
    split.
    + rewrite embed_texts_unrolled by done.
      destruct j as [| [| [| j]]]; [| | | lia].
      * by rewrite Hout, Hnot.
      * destruct (Hretried _ 0%nat Hfail ltac:(lia)) as (e0 & -> & ->).
        by rewrite Hout, Hnot.
      * destruct (Hretried _ 0%nat Hfail ltac:(lia)) as (e0 & -> & ->).
        destruct (Hretried _ 1%nat Hfail ltac:(lia)) as (e1 & -> & ->).
        by rewrite Hout, Hnot.
    + subst x. unfold embedding_error, EmbeddingError_init.
      destruct (truthy (openai_embed_model settings)) eqn:Hnamed.
      * simpl. split_and!; try done;
          by rewrite ?lookup_insert_eq, ?lookup_insert_ne, ?lookup_insert_eq.
      * unfold outcome in Hout.
        rewrite (Hclient Hnamed _ _ _ Hout) in Hfatal. discriminate Hfatal.
  - intros Hfail. rewrite embed_texts_unrolled by done.
    destruct (Hretried _ 0%nat Hfail ltac:(lia)) as (e0 & -> & ->).
    destruct (Hretried _ 1%nat Hfail ltac:(lia)) as (e1 & -> & ->).
    destruct (Hretried _ 2%nat Hfail ltac:(lia)) as (e2 & -> & ->).
    by exists e2.
Qed.

End EmbedRetryClaims.

Section EmbedRetryExamples.
Import Py Exceptions Config World Tenacity DataLoader Fixtures.

(** What the client raises for a rejected API key, and for a request the
    endpoint cannot parse. *)
Definition auth_failure : exn :=
  Exn AuthenticationError "Incorrect API key provided" ∅ None.

Definition malformed_request : exn :=
  Exn BadRequestError "you must provide a model parameter" ∅ None.

(** The spec's examples of errors that are not transient: a malformed
    request and an authentication failure. *)
Definition spec_non_transient (e : exn) : bool :=
  isinstance e BadRequestError || isinstance e AuthenticationError.

Lemma embed_texts_retry_policy_witness :
  embed_texts settings0 (env_embed_raises rate_limited) ["q"] []
  = (Raise (RetryError_init rate_limited),
     after_failures settings0 ["q"] [] 2 ++ [embed_call settings0 ["q"]])
  /\ (embed_texts settings0 (env_embed_raises bad_input) ["q"] []
      = (Raise (embedding_error settings0 ["q"] bad_input),
         after_failures settings0 ["q"] [] 0 ++ [embed_call settings0 ["q"]])
      /\ details (embedding_error settings0 ["q"] bad_input) !! "model"
         = Some (DStr "text-embedding-3-large"))
  /\ embed_texts settings_unnamed_model (env_embed_raises malformed_request)
       ["q"] []
     = (Raise (RetryError_init malformed_request),
        after_failures settings_unnamed_model ["q"] [] 2
          ++ [embed_call settings_unnamed_model ["q"]])
  /\ sleeps (after_failures settings0 ["q"] [] 2) = [2%Z; 2%Z].
Proof.
  assert (["q"] ≠ ([] : list string)) as Hne by discriminate.
  assert (forall e, rejects_unnamed_model settings0 (env_embed_raises e))
    as Hnamed by (intros e H; discriminate H).
  assert (rejects_unnamed_model settings_unnamed_model
            (env_embed_raises malformed_request)) as Hrejects.
  { intros _ tr texts e He. injection He as <-. reflexivity. }
  destruct (embed_texts_retry_policy settings0 (env_embed_raises rate_limited)
              ["q"] [] Hne (Hnamed _)) as (_ & _ & _ & _ & _ & Hexhausted).
  destruct (embed_texts_retry_policy settings0 (env_embed_raises bad_input)
              ["q"] [] Hne (Hnamed _)) as (_ & _ & _ & _ & Hfatal & _).
  destruct (embed_texts_retry_policy settings_unnamed_model
              (env_embed_raises malformed_request) ["q"] [] Hne Hrejects)
    as (_ & _ & _ & _ & _ & Hunnamed).
  split; [| split; [| split; [| reflexivity]]].
  - destruct Hexhausted as (e & He & Hrun & _).
    + intros i _. exists rate_limited. split; reflexivity.
    + injection He as <-. exact Hrun.
  - destruct (Hfatal 0%nat bad_input) as (Hrun & _ & _ & _ & Hmodel).
    + lia.
    + intros i Hi. lia.
    + reflexivity.
    + reflexivity.
    + split; [exact Hrun | exact Hmodel].
  - destruct Hunnamed as (e & He & Hrun & _).
    + intros i _. exists malformed_request. split; reflexivity.
    + injection He as <-. exact Hrun.
Defined.

(** C3, as stated, fails on the errors the spec itself gives as not
    transient.  An authentication failure is an instance of [APIError]:
    the call is made three times, with two waits of 2 seconds, and ends in
    [RetryError]; it is not wrapped at once as [EmbeddingError]. *)
Lemma embed_auth_failure_retried_counterexample :
  spec_non_transient auth_failure = true
  /\ embed_texts settings0 (env_embed_raises auth_failure) ["q"] []
     = (Raise (RetryError_init auth_failure),
        [embed_call settings0 ["q"]; Sleep 2;
         embed_call settings0 ["q"]; Sleep 2;
         embed_call settings0 ["q"]])
  /\ ~ (forall (settings : Settings) (env : Env) (texts : list string)
               (tr : trace) (e : exn),
          texts ≠ [] ->
          embeddings_create env tr (openai_embed_model settings) texts = Raise e ->
          spec_non_transient e = true ->
          exists x,
            embed_texts settings env texts tr
              = (Raise x, tr ++ [embed_call settings texts])
            /\ cls x = EmbeddingError
            /\ details x !! "model" = Some (DStr (openai_embed_model settings))
            /\ details x !! "text_count"
               = Some (DInt (Z.of_nat (length texts)))).
Proof.
  split; [reflexivity |]. split; [reflexivity |].
  intros H.
  destruct (H settings0 (env_embed_raises auth_failure) ["q"] [] auth_failure)
    as (x & Hrun & _); [discriminate | reflexivity | reflexivity |].
  vm_compute in Hrun. discriminate Hrun.
Qed.

End EmbedRetryExamples.

(** ** vector_db.py: upsert *)

Section UpsertFacts.
Import Py Exceptions Config World Tenacity VectorDb Fixtures.

(** [upsert] wraps every exception of its body as [VectorDBError], which
    is not an [UnexpectedResponse]: the decorator never sees an exception
    it retries, and the decorated method is its body. *)
Lemma upsert_is_body (env : Env) (self : QdrantStorage) (ids : list string)
    (vectors : list Vector) (payloads : list (gmap string string)) (tr : trace) :
  upsert env self ids vectors payloads tr = upsert_body env self ids vectors payloads tr.
Proof.
  unfold upsert, retrying. apply attempts_first.
  intros e tr'. unfold upsert_body.
  destruct ids as [| id ids]; [intros [=] |].
  unfold try_except, bind, lift, call, ret, raise.
  destruct (build_points _ _ _) as [points | e0].
  - destruct (client_upsert env tr (collection self) points); intros [= <- <-].
    unfold VectorDBError_init. simpl. by destruct (truthy (collection self)).
  - intros [= <- <-].
    unfold VectorDBError_init. simpl. by destruct (truthy (collection self)).
Qed.

Definition payload1 : gmap string string :=
  <["text" := "Hello world."]> (<["source" := "doc.pdf"]> ∅).

Definition points1 : list PointStruct :=
  [Build_PointStruct "id1" [0.5%float] payload1].

(** C1, the code at the failing input: the first upsert of the store
    raises [UnexpectedResponse] and a second one would succeed, yet
    [upsert] makes one backend call, does not wait, and raises
    [VectorDBError] (tagged with the operation and the collection). *)
Theorem upsert_transient_error_not_retried :
  upsert env_upsert_flaky store0 ["id1"] [[0.5%float]] [payload1] []
  = (Raise (Exn VectorDBError
              "Failed to upsert vectors: Unexpected Response: 503 (Service Unavailable)"
              (<["collection" := DStr "docs"]> (<["operation" := DStr "upsert"]> ∅))
              (Some unexpected_response)),
     [ClientUpsert "docs" points1])
  /\ client_upsert env_upsert_flaky [ClientUpsert "docs" points1] "docs" points1
     = Return tt
  /\ retry qdrant_retrying unexpected_response = true.
Proof. split; [| split]; reflexivity. Qed.

End UpsertFacts.

(** ** data_loader.py: batching *)

Section BatchFacts.
Import Py Exceptions Config World Tenacity DataLoader Fixtures.

(** [embed_texts] returns at once on the empty list, without a request. *)
Lemma embed_texts_nil (settings : Settings) (env : Env) (tr : trace) :
  embed_texts settings env [] tr = (Return [], tr).
Proof. reflexivity. Qed.

(** With a backend that answers a request, a non-empty input takes one
    request. *)
Lemma embed_texts_answered (settings : Settings) (env : Env)
    (texts : list string) (tr : trace) (v : list Vector) :
  texts ≠ [] ->
  embeddings_create env tr (openai_embed_model settings) texts = Return v ->
  embed_texts settings env texts tr = (Return v, tr ++ [embed_call settings texts]).
Proof.
  intros Hne Hv. rewrite embed_texts_unrolled by done.
  unfold outcome. rewrite !after_failures_0. by rewrite Hv.
Qed.

(** The slice [texts[i:i+k]] is the first [k] items after the first [i]. *)
Lemma slice_step (texts : list string) (i k : Z) :
  (0 <= i)%Z -> (0 <= k)%Z ->
  slice texts i (i + k) = take (Z.to_nat k) (drop (Z.to_nat i) texts).
Proof. intros Hi Hk. unfold slice. f_equal. lia. Qed.

(** The number of members of [range(i, n, k)]. *)
Lemma length_range_from (fuel : nat) (i n k : Z) :
  (1 <= k)%Z -> (n - i <= Z.of_nat fuel)%Z ->
  Z.of_nat (length (range_from fuel i n k)) = Z.max 0 ((n - i + k - 1) / k).
Proof.
  intros Hk. revert i. induction fuel as [| fuel IH]; intros i Hfuel.
  - simpl. assert ((n - i + k - 1) / k <= 0)%Z; [| lia].
    assert ((n - i + k - 1) / k < 1)%Z; [| lia].
    apply Z.div_lt_upper_bound; lia.
  - cbn [range_from]. case_decide as Hlt.
    + cbn [length]. rewrite Nat2Z.inj_succ, IH by lia.
      replace (n - i + k - 1)%Z with ((n - (i + k) + k - 1) + 1 * k)%Z by lia.
      rewrite Z.div_add by lia.
      assert (0 <= (n - (i + k) + k - 1) / k)%Z; [| lia].
      apply Z.div_pos; lia.
    + simpl. assert ((n - i + k - 1) / k < 1)%Z; [| lia].
      apply Z.div_lt_upper_bound; lia.
Qed.

Section Answering.
Context (settings : Settings) (env : Env) (embed_one : string -> Vector).

(** The backend embeds every text of a request by [embed_one]. *)
Hypothesis backend_answers :
  forall tr input,
    embeddings_create env tr (openai_embed_model settings) input
    = Return (embed_one <$> input).

(** The loop over the batch starts from [i] on: it appends the vectors
    of the texts from [i] on, with one request per start. *)
Lemma batch_loop_run (texts : list string) (k : Z) (fuel : nat) (i : Z)
    (acc : list Vector) (tr : trace) :
  (1 <= k)%Z -> (0 <= i)%Z ->
  (Z.of_nat (length texts) - i <= Z.of_nat fuel)%Z ->
  let starts := range_from fuel i (Z.of_nat (length texts)) k in
  batch_loop settings env texts k starts acc tr
  = (Return (acc ++ (embed_one <$> drop (Z.to_nat i) texts)),
     tr ++ ((fun j => embed_call settings (slice texts j (j + k))) <$> starts)).
Proof.
  intros Hk. revert i acc tr.
  induction fuel as [| fuel IH]; intros i acc tr Hi Hfuel.
  - simpl. unfold ret.
    rewrite drop_ge by lia. by rewrite !app_nil_r.
  - cbn [range_from]. case_decide as Hlt.
    + cbn [batch_loop fmap list_fmap]. unfold bind.
      assert (slice texts i (i + k) ≠ []) as Hne.
      { rewrite slice_step by lia. intros Hnil.
        apply (f_equal length) in Hnil.
        rewrite length_take, length_drop in Hnil. simpl in Hnil. lia. }
      rewrite (embed_texts_answered _ _ _ _ _ Hne (backend_answers _ _)).
      specialize (IH (i + k)%Z (acc ++ (embed_one <$> slice texts i (i + k)))
                     (tr ++ [embed_call settings (slice texts i (i + k))])).
      cbn zeta in IH. rewrite IH by lia.
      f_equal; [f_equal | by rewrite <- app_assoc].
      rewrite <- app_assoc. f_equal. rewrite <- fmap_app. f_equal.
      rewrite slice_step by lia.
      replace (Z.to_nat (i + k)) with (Z.to_nat i + Z.to_nat k)%nat by lia.
      rewrite <- drop_drop. apply take_drop.
    + simpl. unfold ret.
      rewrite drop_ge by lia. by rewrite !app_nil_r.
Qed.

End Answering.

End BatchFacts.

Section BatchClaims.
Import Py Exceptions Config World Tenacity DataLoader Fixtures.

Lemma ceiling_bounds (n k : Z) :
  (0 <= n)%Z -> (1 <= k)%Z ->
  let c := ((n + k - 1) / k)%Z in
  (k * (c - 1) < n <= k * c)%Z.
Proof.
  intros Hn Hk c.
  pose proof (Z.div_mod (n + k - 1) k ltac:(lia)) as Hdm.
  pose proof (Z.mod_pos_bound (n + k - 1) k ltac:(lia)) as Hmod.
  subst c. nia.
Qed.

(** C4: the empty input returns the empty output without a request, for
    any batch size and any backend; and with a backend that answers every
    request with one vector per text, [embed_texts_batch texts k] for
    [k >= 1] returns what [embed_texts texts] returns, one vector per
    input in input order, after exactly [ceil(len(texts) / k)] requests. *)
Theorem embed_texts_batch_equivalence (settings : Settings) (env : Env)
    (embed_one : string -> Vector) :
  (forall k tr, embed_texts_batch settings env [] k tr = (Return [], tr))
  /\ ((forall tr input,
          embeddings_create env tr (openai_embed_model settings) input
          = Return (embed_one <$> input)) ->
      forall (texts : list string) (k : Z) (tr : trace),
        (1 <= k)%Z ->
        exists (calls : trace) (single : trace),
          embed_texts_batch settings env texts k tr
            = (Return (embed_one <$> texts), tr ++ calls)
          /\ embed_texts settings env texts tr
             = (Return (embed_one <$> texts), tr ++ single)
          /\ Forall (fun ev => is_embedding_call ev = true) calls
          /\ Z.of_nat (length calls) = ((Z.of_nat (length texts) + k - 1) / k)%Z
          /\ (k * (Z.of_nat (length calls) - 1) < Z.of_nat (length texts)
              <= k * Z.of_nat (length calls))%Z).
Proof.
  split; [done |].
  intros Hbackend texts k tr Hk.
  destruct texts as [| t texts].
  - exists [], []. rewrite !app_nil_r. split_and!; try done.
    + simpl. symmetry. apply Z.div_small. lia.
    + simpl. lia.
    + simpl. lia.
  - set (all := t :: texts).
    set (starts := range_from (length all) 0 (Z.of_nat (length all)) k).
    exists ((fun j => embed_call settings (slice all j (j + k))) <$> starts),
           [embed_call settings all].
    assert (Z.of_nat (length starts) = ((Z.of_nat (length all) + k - 1) / k)%Z)
      as Hlen.
    { subst starts. rewrite length_range_from by lia.
      rewrite Z.sub_0_r.
      assert (0 <= (Z.of_nat (length all) + k - 1) / k)%Z; [| lia].
      apply Z.div_pos; lia. }
    split_and!.
    + unfold embed_texts_batch. subst all starts.
      rewrite decide_False by lia. rewrite decide_False by lia.
      rewrite (batch_loop_run settings env embed_one Hbackend) by lia.
      done.
    + apply embed_texts_answered; [done | apply Hbackend].
    + apply Forall_fmap, Forall_forall. done.
    + by rewrite length_fmap.
    + rewrite length_fmap, Hlen. apply ceiling_bounds; lia.
    + rewrite length_fmap, Hlen. apply ceiling_bounds; lia.
Qed.

Lemma embed_texts_batch_equivalence_witness :
  exists calls,
    embed_texts_batch settings0 env0 ["a"; "bb"; "ccc"] 2 []
    = (Return (embed_len <$> ["a"; "bb"; "ccc"]), [] ++ calls)
    /\ length calls = 2%nat
    /\ embed_texts settings0 env0 ["a"; "bb"; "ccc"] []
       = (Return (embed_len <$> ["a"; "bb"; "ccc"]),
          [embed_call settings0 ["a"; "bb"; "ccc"]]).
Proof.
  destruct (proj2 (embed_texts_batch_equivalence settings0 env0 embed_len)
              (fun _ _ => eq_refl) ["a"; "bb"; "ccc"] 2%Z [] ltac:(lia))
    as (calls & single & Hbatch & Hsingle & _ & Hlen & _).
  exists calls. split; [exact Hbatch |]. split.
  - assert (((Z.of_nat (length ["a"; "bb"; "ccc"]) + 2 - 1) / 2)%Z = 2%Z) as Hceil
      by reflexivity.
    rewrite Hceil in Hlen. lia.
  - reflexivity.
Defined.

End BatchClaims.

(** ** data_loader.py: loading and chunking *)

Section LoadClaims.
Import Py Exceptions Config World Tenacity DataLoader Fixtures.

(** A page without extractable text: no text attribute, or an empty one. *)
Definition no_text (d : Document) : Prop :=
  doc_text d = None \/ doc_text d = Some "".

Lemma page_texts_nil (docs : list Document) :
  Forall no_text docs -> page_texts docs = [].
Proof.
  induction 1 as [| d docs Hd _ IH]; [done |].
  unfold page_texts in *. simpl.
  destruct Hd as [-> | ->]; simpl; exact IH.
Qed.

Lemma elem_of_page_texts (docs : list Document) (t : string) :
  t ∈ page_texts docs <-> exists d, d ∈ docs /\ doc_text d = Some t /\ t ≠ "".
Proof.
  unfold page_texts. rewrite list_elem_of_omap. split.
  - intros (d & Hd & Ht). exists d. split; [done |].
    destruct (doc_text d) as [s |]; [| done].
    destruct s; simpl in Ht; [done |]. injection Ht as <-. done.
  - intros (d & Hd & Ht & Hne). exists d. split; [done |].
    rewrite Ht. by destruct t.
Qed.

(** The splitting loop raises when the splitter raises on one of the
    texts: on that one, or on an earlier one. *)
Lemma split_all_raises (env : Env) (texts : list string) (t : string)
    (chunks : list string) (tr : trace) :
  t ∈ texts ->
  (forall tr', exists e, split_text env tr' t = Raise e) ->
  exists e tr', split_all env texts chunks tr = (Raise e, tr').
Proof.
  intros Hin Hfail. revert chunks tr.
  induction texts as [| t0 texts IH]; intros chunks tr.
  - by apply not_elem_of_nil in Hin.
  - cbn [split_all]. unfold bind, call.
    destruct (split_text env tr t0) as [parts | e] eqn:Hsplit; [| eauto].
    apply elem_of_cons in Hin as [-> | Hin].
    + destruct (Hfail tr) as [e He]. congruence.
    + apply IH. done.
Qed.

(** The reader opens the file at [path]: on the empty path, which names
    no file, [load_data] raises. *)
Definition reader_rejects_empty_path (env : Env) : Prop :=
  forall tr, exists e, load_data env tr "" = Raise e.

(** C7: when the reader returns pages of which none has extractable
    text, [load_and_chunk_pdf] raises [PDFLoadError], which is not a
    [ChunkingError], before any splitting, and its details hold the file
    path.  When the splitter raises on an extracted page text, it raises
    [ChunkingError] with the splitter's exception as original error. *)
Theorem load_and_chunk_pdf_errors (env : Env) (path : string) (tr : trace)
    (docs : list Document) :
  reader_rejects_empty_path env ->
  load_data env tr path = Return docs ->
  (Forall no_text docs ->
   exists x,
     load_and_chunk_pdf env path tr = (Raise x, tr ++ [LoadData path])
     /\ cls x = PDFLoadError
     /\ isinstance x ChunkingError = false
     /\ message x = "No text content found in PDF"
     /\ details x = {["file_path" := DStr path]})
  /\ (forall d t,
        d ∈ docs -> doc_text d = Some t -> t ≠ "" ->
        (forall tr', exists e, split_text env tr' t = Raise e) ->
        exists x tr' e,
          load_and_chunk_pdf env path tr = (Raise x, tr')
          /\ cls x = ChunkingError
          /\ isinstance x PDFLoadError = false
          /\ original_error x = Some e
          /\ message x = "Failed to chunk text: " +:+ str e).
Proof.
  intros Hreader Hload. split.
  - intros Hnone. eexists. split.
    + unfold load_and_chunk_pdf, bind, try_except, call.
      rewrite Hload, (page_texts_nil docs Hnone). reflexivity.
    + unfold PDFLoadError_init. destruct path as [| a path]; simpl.
      * destruct (Hreader tr) as [e He]. congruence.
      * split_and!; done.
  - intros d t Hd Ht Hne Hfail.
    assert (t ∈ page_texts docs) as Hin by (apply elem_of_page_texts; eauto).
    unfold load_and_chunk_pdf, bind, try_except, call. rewrite Hload.
    destruct (page_texts docs) as [| t0 texts] eqn:Htexts;
      [by apply not_elem_of_nil in Hin |].
    destruct (split_all_raises env (t0 :: texts) t [] (tr ++ [LoadData path])
                Hin Hfail) as (e & tr' & ->).
    eexists _, _, e. split; [reflexivity |]. simpl. split_and!; done.
Qed.

(** A page with no text attribute, and a splitter that always raises. *)
Definition blank_page : Document := {| doc_text := None |}.

Definition env_blank : Env := env_ok embed_len [] [blank_page] "".

Definition env_split_raises : Env :=
  with_splitter (env_ok embed_len [] [{| doc_text := Some "Hello world." |}] "")
    (fun _ _ => Raise bad_input).

(** The same collaborators with a reader that finds no file at the empty
    path. *)
Definition no_such_file : exn :=
  Exn (OtherException "FileNotFoundError")
    "[Errno 2] No such file or directory: ''" ∅ None.

Definition with_reader (env : Env) : Env := {|
  embeddings_create := embeddings_create env;
  qdrant_client_new := qdrant_client_new env;
  collection_exists := collection_exists env;
  create_collection := create_collection env;
  client_upsert := client_upsert env;
  client_search := client_search env;
  get_collections := get_collections env;
  load_data := fun tr path => if decide (path = "") then Raise no_such_file
                              else load_data env tr path;
  split_text := split_text env;
  ai_infer := ai_infer env
|}.

Lemma load_and_chunk_pdf_errors_witness :
  (exists x,
      load_and_chunk_pdf (with_reader env_blank) "empty.pdf" []
        = (Raise x, [LoadData "empty.pdf"])
      /\ cls x = PDFLoadError
      /\ details x = {["file_path" := DStr "empty.pdf"]})
  /\ (exists x tr',
         load_and_chunk_pdf (with_reader env_split_raises) "doc.pdf" []
           = (Raise x, tr')
         /\ cls x = ChunkingError).
Proof.
  split.
  - destruct (proj1 (load_and_chunk_pdf_errors (with_reader env_blank)
                       "empty.pdf" [] [blank_page]
                       (fun _ => ex_intro _ no_such_file eq_refl) eq_refl))
      as (x & Hrun & Hcls & _ & _ & Hpath).
    + apply Forall_cons. split; [by left | apply Forall_nil_2].
    + exists x. split; [exact Hrun |]. split; [exact Hcls | exact Hpath].
  - destruct (proj2 (load_and_chunk_pdf_errors (with_reader env_split_raises)
                       "doc.pdf" [] [{| doc_text := Some "Hello world." |}]
                       (fun _ => ex_intro _ no_such_file eq_refl) eq_refl)
                {| doc_text := Some "Hello world." |} "Hello world.")
      as (x & tr' & e & Hrun & Hcls & _).
    + apply list_elem_of_here.
    + reflexivity.
    + discriminate.
    + intros tr'. exists bad_input. reflexivity.
    + exists x, tr'. split; [exact Hrun | exact Hcls].
Defined.

End LoadClaims.

(** ** main.py: the query pipeline *)

Section QueryClaims.
Import Py Exceptions Config World Tenacity DataLoader VectorDb Main Fixtures.

Lemma bind_return_inv {A B} (m : M A) (k : A -> M B) (tr tr' : trace) (b : B) :
  bind m k tr = (Return b, tr') ->
  exists a tr0, m tr = (Return a, tr0) /\ k a tr0 = (Return b, tr').
Proof.
  unfold bind. destruct (m tr) as [[a | e] tr0]; [eauto | discriminate].
Qed.

(** A search that returns has asked the store once and got an answer. *)
Lemma search_return_inv (env : Env) (rt : Runtime) (self : QdrantStorage)
    (qv : Vector) (k : Z) (tr tr' : trace) (out : SearchOutput) :
  search env rt self qv k tr = (Return out, tr') ->
  exists results,
    client_search env tr (collection self) qv k = Return results
    /\ tr' = tr ++ [ClientSearch (collection self) qv k]
    /\ contexts out = kept_texts results
    /\ sources out = set_iter rt (first_appearance (kept_sources results)).
Proof.
  destruct (client_search env tr (collection self) qv k) as [results | e] eqn:Hres.
  - rewrite (search_returns _ _ _ _ _ _ _ Hres). intros [= <- <-]. by exists results.
  - rewrite search_is_body. unfold search_body, try_except, bind, call, raise.
    rewrite Hres. discriminate.
Qed.

(** What [_search] found is what one search of the store answered. *)
Lemma _search_return_inv (settings : Settings) (env : Env) (rt : Runtime)
    (question : string) (top_k : Z) (tr tr1 : trace) (found : RAGSearchResult) :
  _search settings env rt question top_k tr = (Return found, tr1) ->
  exists store qv tr0 results,
    client_search env tr0 (collection store) qv top_k = Return results
    /\ tr1 = tr0 ++ [ClientSearch (collection store) qv top_k]
    /\ found_contexts found = kept_texts results
    /\ found_sources found = set_iter rt (first_appearance (kept_sources results)).
Proof.
  unfold _search. intros H.
  apply bind_return_inv in H as (vecs & trA & _ & H).
  apply bind_return_inv in H as (qv & trB & _ & H).
  apply bind_return_inv in H as (store & tr0 & _ & H).
  apply bind_return_inv in H as (out & trC & Hsearch & H).
  injection H as <- <-.
  apply search_return_inv in Hsearch as (results & Hres & -> & Hc & Hs).
  by exists store, qv, tr0, results.
Qed.

(** C8: once the search step has returned, with or without contexts, the
    pipeline sends exactly one request to the chat model, built from the
    contexts found (an empty context block when there are none); when the
    model answers, the result is returned with [num_contexts] equal to the
    number of contexts found, which is the number of points with
    non-empty text in the store's answer. *)
Theorem query_pipeline_no_short_circuit (settings : Settings) (env : Env)
    (rt : Runtime) (ev : QueryEvent) (tr tr1 : trace) (found : RAGSearchResult) :
  _search settings env rt (question ev) (default 5%Z (event_top_k ev)) tr
  = (Return found, tr1) ->
  let body := infer_body (found_contexts found) (question ev) in
  let key := openai_api_key settings in
  let model := openai_chat_model settings in
  (exists r,
      rag_query_pdf_ai settings env rt ev tr
        = (r, tr1 ++ [Infer "llm-answer" key model body])
      /\ (forall res,
            ai_infer env tr1 key model body = Return res ->
            r = Return {| answer := strip res;
                          result_sources := found_sources found;
                          num_contexts := Z.of_nat (length (found_contexts found)) |})
      /\ (forall out,
            r = Return out ->
            num_contexts out = Z.of_nat (length (found_contexts found))))
  /\ (found_contexts found = [] ->
      messages body
      = [ {| role := "system";
             content := "You answer questions using only the provided context." |};
          {| role := "user";
             content := "Use the following context to answer the question."
                          +:+ nl +:+ nl +:+ "Context:" +:+ nl +:+ nl +:+ nl
                          +:+ "Question: " +:+ question ev +:+ nl
                          +:+ "Answer concisely using the context above." |} ])
  /\ (exists store qv tr0 results,
         client_search env tr0 (collection store) qv (default 5%Z (event_top_k ev))
         = Return results
         /\ tr1 = tr0 ++ [ClientSearch (collection store) qv (default 5%Z (event_top_k ev))]
         /\ found_contexts found
            = filter (fun t => t ≠ "") ((fun r => payload_get r "text") <$> results)
         /\ (length (found_contexts found) <= length results)%nat).
Proof.
  intros Hsearch body key model. split; [| split].
  - unfold rag_query_pdf_ai. unfold bind at 1. rewrite Hsearch.
    unfold bind, call, ret. fold body key model.
    destruct (ai_infer env tr1 key model body) as [res | e].
    + eexists. split; [reflexivity |]. split.
      * by intros res' [= <-].
      * by intros out [= <-].
    + eexists. split; [reflexivity |]. split; [discriminate | discriminate].
  - intros Hnone. subst body. unfold infer_body, user_content. rewrite Hnone. done.
  - apply _search_return_inv in Hsearch as (store & qv & tr0 & results & H1 & H2 & H3 & _).
    exists store, qv, tr0, results. split_and!; try done.
    + by rewrite H3, kept_texts_filter.
    + rewrite H3, kept_texts_filter.
      etrans; [apply length_filter |]. by rewrite length_fmap.
Qed.

Definition query0 : QueryEvent :=
  {| question := "What is the capital of France?"; event_top_k := None |}.

(** The trace of the search step for [query0] against [env0]. *)
Definition search_trace0 : trace :=
  [ EmbeddingsCreate "text-embedding-3-large" ["What is the capital of France?"];
    QdrantClientNew "http://localhost:6333" 30;
    CollectionExists "docs";
    ClientSearch "docs" (embed_len "What is the capital of France?") 5 ].

Lemma query_pipeline_no_short_circuit_witness :
  rag_query_pdf_ai settings0 env0 rt_insertion query0 []
  = (Return {| answer := "I cannot answer."; result_sources := []; num_contexts := 0 |},
     search_trace0 ++ [Infer "llm-answer" "test-api-key-12345" "gpt-4o-mini"
                         (infer_body [] "What is the capital of France?")]).
Proof.
  destruct (query_pipeline_no_short_circuit settings0 env0 rt_insertion query0 []
              search_trace0 {| found_contexts := []; found_sources := [] |} eq_refl)
    as ((r & Hrun & Hret & _) & _ & _).
  rewrite Hrun, (Hret "I cannot answer." eq_refl). reflexivity.
Defined.

End QueryClaims.

(** ** main.py: the ingestion step and its point ids *)

Section TraceFacts.
Import Py Exceptions Config World Tenacity.

(** Every event a computation adds to the trace satisfies [P]. *)
Definition adds {A} (P : event -> Prop) (m : M A) : Prop :=
  forall tr, exists added, (m tr).2 = tr ++ added /\ Forall P added.

Lemma adds_ret {A} (P : event -> Prop) (a : A) : adds P (ret a).
Proof. intros tr. exists []. by rewrite app_nil_r. Qed.

Lemma adds_raise {A} (P : event -> Prop) (e : exn) : adds P (raise (A := A) e).
Proof. intros tr. exists []. by rewrite app_nil_r. Qed.

Lemma adds_lift {A} (P : event -> Prop) (r : result A) : adds P (lift r).
Proof. intros tr. exists []. by rewrite app_nil_r. Qed.

Lemma adds_call {A} (P : event -> Prop) (ev : event) (oracle : trace -> result A) :
  P ev -> adds P (call ev oracle).
Proof. intros Hev tr. exists [ev]. split; [done |]. by apply Forall_singleton. Qed.

Lemma adds_bind {A B} (P : event -> Prop) (m : M A) (k : A -> M B) :
  adds P m -> (forall a, adds P (k a)) -> adds P (bind m k).
Proof.
  intros Hm Hk tr. destruct (Hm tr) as (a1 & Htr & Ha1). unfold bind.
  destruct (m tr) as [[a | e] tr']; simpl in Htr; subst tr'.
  - destruct (Hk a (tr ++ a1)) as (a2 & Htr2 & Ha2).
    exists (a1 ++ a2). rewrite Htr2, app_assoc. split; [done |].
    by apply Forall_app.
  - by exists a1.
Qed.

Lemma adds_try_except {A} (P : event -> Prop) (m : M A) (h : exn -> M A) :
  adds P m -> (forall e, adds P (h e)) -> adds P (try_except m h).
Proof.
  intros Hm Hh tr. destruct (Hm tr) as (a1 & Htr & Ha1). unfold try_except.
  destruct (m tr) as [[a | e] tr']; simpl in Htr; subst tr'.
  - by exists a1.
  - destruct (Hh e (tr ++ a1)) as (a2 & Htr2 & Ha2).
    exists (a1 ++ a2). rewrite Htr2, app_assoc. split; [done |].
    by apply Forall_app.
Qed.

Lemma adds_attempts {A} (P : event -> Prop) (r : Retrying) (n k : nat) (f : M A) :
  (forall s, P (Sleep s)) -> adds P f -> adds P (attempts r n k f).
Proof.
  intros Hsleep Hf. revert k. induction n as [| n IH]; intros k tr.
  - destruct (Hf tr) as (a1 & Htr & Ha1). simpl.
    destruct (f tr) as [[a | e] tr']; simpl in Htr; subst tr'; [by exists a1 |].
    destruct (retry r e); by exists a1.
  - destruct (Hf tr) as (a1 & Htr & Ha1). cbn [attempts].
    destruct (f tr) as [[a | e] tr']; simpl in Htr; subst tr'; [by exists a1 |].
    destruct (retry r e); [| by exists a1].
    destruct (IH (S k) ((tr ++ a1) ++ [Sleep (wait r k)])) as (a2 & Htr2 & Ha2).
    exists (a1 ++ [Sleep (wait r k)] ++ a2). rewrite Htr2.
    split; [by rewrite <- !app_assoc |].
    apply Forall_app. split; [done |]. apply Forall_cons. by split.
Qed.

End TraceFacts.

Section IngestFacts.
Import Py Exceptions Config World Tenacity DataLoader VectorDb Main Fixtures.

(** When the list comprehension returns, it has one result per item. *)
Lemma comprehension_return {A B} (f : A -> result B) (xs : list A) (ys : list B) :
  comprehension f xs = Return ys ->
  Forall2 (fun x y => f x = Return y) xs ys.
Proof.
  revert ys. induction xs as [| x xs IH]; intros ys; simpl.
  - intros [= <-]. constructor.
  - destruct (f x) as [b | e] eqn:Hfx; [| discriminate].
    destruct (comprehension f xs) as [bs | e]; [| discriminate].
    intros [= <-]. constructor; [done | by apply IH].
Qed.

(** The points built carry the ids they were built from, in order. *)
Lemma build_points_ids (ids : list string) (vectors : list Vector)
    (payloads : list (gmap string string)) (points : list PointStruct) :
  build_points ids vectors payloads = Return points ->
  point_id <$> points = ids.
Proof.
  intros Hbuild. apply comprehension_return in Hbuild.
  apply list_eq. intros i. rewrite list_lookup_fmap.
  destruct (decide (i < length ids)%nat) as [Hi | Hi].
  - assert (seq 0 (length ids) !! i = Some i) as Hseq
      by (by apply lookup_seq).
    destruct (Forall2_lookup_l _ _ _ _ _ Hbuild Hseq) as (y & Hy & Hat).
    rewrite Hy. simpl. unfold point_at in Hat.
    destruct (ids !! i) as [id |]; [| discriminate].
    destruct (vectors !! i); [| discriminate].
    destruct (payloads !! i); [| discriminate].
    by injection Hat as <-.
  - apply Forall2_length in Hbuild. rewrite length_seq in Hbuild.
    rewrite !lookup_ge_None_2; [done | lia | lia].
Qed.

(** An upsert request, if it is one, carries exactly the ids [ids]. *)
Definition upsert_carries (ids : list string) (ev : event) : Prop :=
  match ev with
  | ClientUpsert _ points => point_id <$> points = ids
  | _ => True
  end.

Lemma upsert_adds (env : Env) (self : QdrantStorage) (ids : list string)
    (vectors : list Vector) (payloads : list (gmap string string)) :
  adds (upsert_carries ids) (upsert env self ids vectors payloads).
Proof.
  intros tr. rewrite upsert_is_body. unfold upsert_body.
  destruct ids as [| id ids]; [apply (adds_ret _ 0%Z) |].
  unfold try_except, bind, lift, call, ret, raise.
  destruct (build_points _ _ _) as [points | e] eqn:Hbuild.
  - exists [ClientUpsert (collection self) points]. split.
    + by destruct (client_upsert env tr (collection self) points).
    + apply Forall_singleton. simpl. by apply build_points_ids in Hbuild.
  - exists []. by rewrite app_nil_r.
Qed.

Lemma embed_texts_adds (P : event -> Prop) (settings : Settings) (env : Env)
    (texts : list string) :
  (forall s, P (Sleep s)) ->
  (forall model input, P (EmbeddingsCreate model input)) ->
  adds P (embed_texts settings env texts).
Proof.
  intros Hsleep Hembed. unfold embed_texts, retrying.
  apply adds_attempts; [done |]. unfold embed_texts_body.
  destruct texts as [| t texts]; [apply adds_ret |].
  apply adds_try_except; [by apply adds_call |].
  intros e. destruct (_ || _); apply adds_raise.
Qed.

Lemma QdrantStorage_init_adds (P : event -> Prop) (settings : Settings) (env : Env)
    (url_arg collection_arg : option string) (dim_arg : option Z) :
  (forall u t, P (QdrantClientNew u t)) ->
  (forall c, P (CollectionExists c)) ->
  (forall c d, P (CreateCollection c d)) ->
  adds P (QdrantStorage_init settings env url_arg collection_arg dim_arg).
Proof.
  intros Hnew Hexists Hcreate. unfold QdrantStorage_init.
  apply adds_try_except; [| intros e; apply adds_raise].
  apply adds_bind; [by apply adds_call |]. intros _.
  apply adds_bind; [| intros _; apply adds_ret].
  unfold _ensure_collection.
  apply adds_try_except; [| intros e; apply adds_raise].
  apply adds_bind; [by apply adds_call |].
  intros [|]; [apply adds_ret | by apply adds_call].
Qed.

(** Every upsert request of the step [_upsert] carries the ids computed
    from the source id and the number of chunks. *)
Lemma _upsert_adds (settings : Settings) (env : Env) (cs : RAGChunkAndSrc) :
  adds (upsert_carries (point_ids (source_id cs) (chunks cs)))
       (_upsert settings env cs).
Proof.
  unfold _upsert.
  apply adds_bind; [by apply embed_texts_adds |]. intros vecs.
  apply adds_bind; [by apply QdrantStorage_init_adds |]. intros store.
  apply adds_bind; [apply upsert_adds |]. intros _. apply adds_ret.
Qed.

End IngestFacts.

Section IngestClaims.
Import Py Exceptions Config World Tenacity DataLoader VectorDb Main Fixtures.

(** C6: the id of the point of chunk [i] is the version-5 UUID (SHA-1,
    URL namespace) of the string ["{source_id}:{i}"]; and in any two runs
    of the ingestion step with the same source id and the same number of
    chunks, whatever the chunk texts, the settings, the backends and the
    history, every upsert request carries the same ids. *)
Theorem point_ids_deterministic :
  (forall (source_id : string) (chunks : list string) (i : nat),
      (i < length chunks)%nat ->
      point_ids source_id chunks !! i
      = Some (Uuid.uuid_str
                (Uuid.uuid5 Uuid.NAMESPACE_URL (source_id +:+ ":" +:+ str_of_nat i))))
  /\ (forall (settings1 settings2 : Settings) (env1 env2 : Env) (tr1 tr2 : trace)
             (source_id : string) (chunks1 chunks2 : list string),
         length chunks1 = length chunks2 ->
         exists added1 added2,
           (_upsert settings1 env1 {| chunks := chunks1; source_id := source_id |} tr1).2
           = tr1 ++ added1
           /\ (_upsert settings2 env2 {| chunks := chunks2; source_id := source_id |} tr2).2
              = tr2 ++ added2
           /\ forall coll1 points1 coll2 points2,
                ClientUpsert coll1 points1 ∈ added1 ->
                ClientUpsert coll2 points2 ∈ added2 ->
                point_id <$> points1 = point_id <$> points2
                /\ point_id <$> points1 = point_ids source_id chunks1).
Proof.
  split.
  - intros source_id chunks i Hi. unfold point_ids.
    rewrite list_lookup_fmap, lookup_seq_lt by done. reflexivity.
  - intros settings1 settings2 env1 env2 tr1 tr2 source_id chunks1 chunks2 Hlen.
    destruct (_upsert_adds settings1 env1
                {| chunks := chunks1; source_id := source_id |} tr1)
      as (added1 & Hrun1 & Hadded1).
    destruct (_upsert_adds settings2 env2
                {| chunks := chunks2; source_id := source_id |} tr2)
      as (added2 & Hrun2 & Hadded2).
    exists added1, added2. split; [done |]. split; [done |].
    intros coll1 points1 coll2 points2 Hin1 Hin2.
    rewrite Forall_forall in Hadded1, Hadded2.
    specialize (Hadded1 _ Hin1). specialize (Hadded2 _ Hin2).
    simpl in Hadded1, Hadded2. split; [| done].
    rewrite Hadded1, Hadded2. unfold point_ids. by rewrite Hlen.
Qed.

Definition ingest1 : RAGChunkAndSrc :=
  {| chunks := ["Hello world."]; source_id := "doc.pdf" |}.

Definition ingest2 : RAGChunkAndSrc :=
  {| chunks := ["Another text."]; source_id := "doc.pdf" |}.

Lemma point_ids_deterministic_witness :
  point_ids "doc.pdf" ["Hello world."] = ["89622b6c-3978-5bf5-a55d-07d79d5fb63d"]
  /\ ClientUpsert "docs"
       [Build_PointStruct "89622b6c-3978-5bf5-a55d-07d79d5fb63d"
          (embed_len "Hello world.") payload1]
     ∈ (_upsert settings0 env0 ingest1 []).2
  /\ forall coll1 points1 coll2 points2,
       ClientUpsert coll1 points1 ∈ (_upsert settings0 env0 ingest1 []).2 ->
       ClientUpsert coll2 points2 ∈ (_upsert settings0 env_upsert_flaky ingest2 []).2 ->
       point_id <$> points1 = point_id <$> points2.
Proof.
  split; [vm_compute; reflexivity |]. split.
  - apply list_elem_of_lookup_2 with 3%nat. vm_compute. reflexivity.
  - destruct (proj2 point_ids_deterministic settings0 settings0 env0 env_upsert_flaky
                [] [] "doc.pdf" ["Hello world."] ["Another text."] eq_refl)
      as (added1 & added2 & Hrun1 & Hrun2 & Hsame).
    intros coll1 points1 coll2 points2 Hin1 Hin2.
    change ingest1 with {| chunks := ["Hello world."]; source_id := "doc.pdf" |} in Hin1.
    change ingest2 with {| chunks := ["Another text."]; source_id := "doc.pdf" |} in Hin2.
    rewrite Hrun1 in Hin1. rewrite Hrun2 in Hin2.
    exact (proj1 (Hsame coll1 points1 coll2 points2 Hin1 Hin2)).
Defined.

End IngestClaims.

(** ** Checks of the Python and UUID helpers on known values *)

Section HelperChecks.
Import Py.

Example str_of_nat_values :
  str_of_nat 0 = "0" /\ str_of_nat 7 = "7" /\ str_of_nat 10 = "10"
  /\ str_of_nat 1234 = "1234".
Proof. repeat split; reflexivity. Qed.

Example strip_values :
  strip ("  Paris. " +:+ nl) = "Paris." /\ strip "" = "" /\ strip "a b" = "a b".
Proof. repeat split; reflexivity. Qed.

(** White space beyond ASCII is stripped as well: a no-break space
    (U+00A0) and an ideographic space (U+3000) around the reply go, a
    no-break space inside it stays, and so does a final letter whose
    encoding ends in the byte of the no-break space (U+00E0). *)
Example strip_wide_values :
  strip (of_bytes [194; 160] +:+ "Paris." +:+ of_bytes [227; 128; 128] +:+ nl)
  = "Paris."
  /\ strip (" a" +:+ of_bytes [194; 160] +:+ "b ") = "a" +:+ of_bytes [194; 160] +:+ "b"
  /\ strip ("voil" +:+ of_bytes [195; 160] +:+ " ") = "voil" +:+ of_bytes [195; 160]
  /\ strip (of_bytes [226; 128; 131] +:+ " ") = "".
Proof. repeat split; reflexivity. Qed.

Example join_values :
  join ", " [] = "" /\ join ", " ["a"] = "a" /\ join ", " ["a"; "b"; "c"] = "a, b, c".
Proof. repeat split; reflexivity. Qed.

(** The SHA-1 test vectors of FIPS 180. *)
Example sha1_values :
  Uuid.hex (Uuid.sha1 (Uuid.bytes_of_string "abc"))
  = "a9993e364706816aba3e25717850c26c9cd0d89d"
  /\ Uuid.hex (Uuid.sha1 (Uuid.bytes_of_string ""))
     = "da39a3ee5e6b4b0d3255bfef95601890afd80709"
  /\ Uuid.hex (Uuid.sha1 (Uuid.bytes_of_string
                 "abcdbcdecdefdefgefghfghighijhijkijkljklmklmnlmnomnopnopq"))
     = "84983e441c3bd26ebaae4aa1f95129e5e54670f1".
Proof. repeat split; vm_compute; reflexivity. Qed.

Example namespace_url_value :
  Uuid.uuid_str Uuid.NAMESPACE_URL = "6ba7b811-9dad-11d1-80b4-00c04fd430c8".
Proof. vm_compute. reflexivity. Qed.

End HelperChecks.

(** ** The repository's unit tests and the spec's end-to-end examples,
    run on the embedding *)

Section RepositoryTests.
Import Py Exceptions Config World Tenacity DataLoader VectorDb Main Fixtures.

(** A backend in which the vector store cannot be reached. *)
Definition connection_failed : exn := Exn Exception "Connection failed" ∅ None.

Definition env_down : Env := {|
  embeddings_create := embeddings_create env0;
  qdrant_client_new := qdrant_client_new env0;
  collection_exists := collection_exists env0;
  create_collection := create_collection env0;
  client_upsert := fun _ _ _ => Raise connection_failed;
  client_search := fun _ _ _ _ => Raise connection_failed;
  get_collections := fun _ => Raise connection_failed;
  load_data := fun _ _ => Raise (Exn (OtherException "FileNotFoundError")
                                    "File not found" ∅ None);
  split_text := split_text env0;
  ai_infer := ai_infer env0
|}.

Definition api_error : exn := Exn APIError "API Error" ∅ None.

Definition sample_texts : list string :=
  [ "The quick brown fox jumps over the lazy dog.";
    "Python is a versatile programming language.";
    "Machine learning models can process natural language." ].

Example test_upsert_success :
  upsert env0 store0 ["id1"; "id2"] [[0.5%float]; [0.25%float]]
    [<["text" := "text1"]> ∅; <["text" := "text2"]> ∅] []
  = (Return 2%Z,
     [ClientUpsert "docs"
        [ Build_PointStruct "id1" [0.5%float] (<["text" := "text1"]> ∅);
          Build_PointStruct "id2" [0.25%float] (<["text" := "text2"]> ∅) ]]).
Proof. reflexivity. Qed.

Example test_upsert_empty_list :
  upsert env0 store0 [] [] [] [] = (Return 0%Z, []).
Proof. reflexivity. Qed.

Example test_search_success :
  search (env_ok embed_len [point "found text" "test.pdf"] [] "") rt_insertion
    store0 [0.5%float] 5 []
  = (Return {| contexts := ["found text"]; sources := ["test.pdf"] |},
     [ClientSearch "docs" [0.5%float] 5]).
Proof. reflexivity. Qed.

Example test_search_failure :
  exists x,
    search env_down rt_insertion store0 [0.5%float] 5 []
    = (Raise x, [ClientSearch "docs" [0.5%float] 5])
    /\ cls x = SearchError /\ original_error x = Some connection_failed.
Proof. eexists. split; [reflexivity |]. split; reflexivity. Qed.

Example test_health_check :
  health_check env0 store0 [] = (Return true, [GetCollections])
  /\ health_check env_down store0 [] = (Return false, [GetCollections]).
Proof. split; reflexivity. Qed.

Example test_load_and_chunk_pdf_file_not_found :
  exists x,
    load_and_chunk_pdf env_down "nonexistent.pdf" []
    = (Raise x, [LoadData "nonexistent.pdf"])
    /\ cls x = PDFLoadError
    /\ message x = "Failed to load PDF: File not found"
    /\ details x !! "file_path" = Some (DStr "nonexistent.pdf").
Proof. eexists. split; [reflexivity |]. repeat split; reflexivity. Qed.

Example test_embed_texts_empty_list :
  embed_texts settings0 env_down [] [] = (Return [], []).
Proof. reflexivity. Qed.

Example test_embed_texts_api_error :
  embed_texts settings0 (env_embed_raises api_error) sample_texts []
  = (Raise (RetryError_init api_error),
     [ embed_call settings0 sample_texts; Sleep 2;
       embed_call settings0 sample_texts; Sleep 2;
       embed_call settings0 sample_texts ]).
Proof. reflexivity. Qed.

Example test_embed_texts_batch_success :
  count_events is_embedding_call
    (embed_texts_batch settings0 env0 sample_texts 2 []).2 = 2%nat.
Proof. reflexivity. Qed.

(** Section 8, example 8 of the spec: pages ["Hello world."] and [""]. *)
Example end_to_end_ingest :
  rag_ingest_pdf settings0
    (env_ok embed_len [] [{| doc_text := Some "Hello world." |};
                          {| doc_text := Some "" |}] "")
    {| pdf_path := "doc.pdf"; event_source_id := None |} []
  = (Return {| ingested := 1 |},
     [ LoadData "doc.pdf";
       SplitText "Hello world.";
       EmbeddingsCreate "text-embedding-3-large" ["Hello world."];
       QdrantClientNew "http://localhost:6333" 30;
       CollectionExists "docs";
       ClientUpsert "docs"
         [Build_PointStruct "89622b6c-3978-5bf5-a55d-07d79d5fb63d"
            (embed_len "Hello world.") payload1] ]).
Proof. vm_compute. reflexivity. Qed.

(** Section 8, example 9 of the spec. *)
Example end_to_end_query :
  rag_query_pdf_ai settings0
    (env_ok embed_len [point "Paris is the capital of France." "geo.pdf"] []
       " Paris. ")
    rt_insertion
    {| question := "What is the capital of France?"; event_top_k := Some 1%Z |} []
  = (Return {| answer := "Paris."; result_sources := ["geo.pdf"]; num_contexts := 1 |},
     [ EmbeddingsCreate "text-embedding-3-large" ["What is the capital of France?"];
       QdrantClientNew "http://localhost:6333" 30;
       CollectionExists "docs";
       ClientSearch "docs" (embed_len "What is the capital of France?") 1;
       Infer "llm-answer" "test-api-key-12345" "gpt-4o-mini"
         (infer_body ["Paris is the capital of France."]
            "What is the capital of France?") ])
  /\ user_content ["Paris is the capital of France."] "What is the capital of France?"
     = "Use the following context to answer the question."
         +:+ nl +:+ nl +:+ "Context:" +:+ nl
         +:+ "- Paris is the capital of France." +:+ nl +:+ nl
         +:+ "Question: What is the capital of France?" +:+ nl
         +:+ "Answer concisely using the context above.".
Proof. split; vm_compute; reflexivity. Qed.

End RepositoryTests.

(** * Further properties of the code *)

(** ** vector_db.py: what [upsert] writes, and when it writes nothing *)

Section UpsertMore.
Import Py Exceptions Config World Tenacity VectorDb Fixtures.

(** The list comprehension returns when every element expression does. *)
Lemma comprehension_all_return {A B} (f : A -> result B) (xs : list A) :
  Forall (fun x => exists y, f x = Return y) xs ->
  exists ys, comprehension f xs = Return ys.
Proof.
  induction 1 as [| x xs [y Hy] _ [ys IH]]; [by exists [] |].
  exists (y :: ys). simpl. by rewrite Hy, IH.
Qed.

(** It raises when some element expression raises, and then with the
    exception of one of them. *)
Lemma comprehension_some_raise {A B} (f : A -> result B) (xs : list A) (x : A) :
  x ∈ xs -> (exists e, f x = Raise e) ->
  exists e x', x' ∈ xs /\ f x' = Raise e /\ comprehension f xs = Raise e.
Proof.
  intros Hin [e He]. induction xs as [| x0 xs IH]; [by apply not_elem_of_nil in Hin |].
  simpl. destruct (f x0) as [y0 | e0] eqn:H0.
  - apply elem_of_cons in Hin as [-> | Hin]; [congruence |].
    destruct (IH Hin) as (e1 & x1 & Hx1 & Hf1 & ->).
    exists e1, x1. split; [by apply elem_of_cons; right | done].
  - exists e0, x0. split; [apply list_elem_of_here | done].
Qed.

Lemma point_at_return (ids : list string) (vectors : list Vector)
    (payloads : list (gmap string string)) (i : nat) (pt : PointStruct) :
  point_at ids vectors payloads i = Return pt <->
  ids !! i = Some (point_id pt) /\ vectors !! i = Some (point_vector pt)
  /\ payloads !! i = Some (point_payload pt).
Proof.
  unfold point_at. destruct pt as [id v p]. simpl.
  destruct (ids !! i), (vectors !! i), (payloads !! i); split;
    try (intros [= -> -> ->]; done); try (intros (? & ? & ?); congruence);
    try discriminate.
Qed.

Lemma point_at_raise (ids : list string) (vectors : list Vector)
    (payloads : list (gmap string string)) (i : nat) (e : exn) :
  point_at ids vectors payloads i = Raise e -> e = index_error.
Proof.
  unfold point_at.
  destruct (ids !! i), (vectors !! i), (payloads !! i); intros [=]; done.
Qed.

(** With enough vectors and payloads, the points are built, one per id. *)
Lemma build_points_enough (ids : list string) (vectors : list Vector)
    (payloads : list (gmap string string)) :
  (length ids <= length vectors)%nat ->
  (length ids <= length payloads)%nat ->
  exists points,
    build_points ids vectors payloads = Return points
    /\ length points = length ids
    /\ forall i id v p,
         ids !! i = Some id -> vectors !! i = Some v -> payloads !! i = Some p ->
         points !! i = Some (Build_PointStruct id v p).
Proof.
  intros Hv Hp. unfold build_points.
  destruct (comprehension_all_return (point_at ids vectors payloads)
              (seq 0 (length ids))) as [points Hpoints].
  { apply Forall_forall. intros i Hi. apply elem_of_seq in Hi.
    destruct (lookup_lt_is_Some_2 ids i ltac:(lia)) as [id Hid].
    destruct (lookup_lt_is_Some_2 vectors i ltac:(lia)) as [v Hvi].
    destruct (lookup_lt_is_Some_2 payloads i ltac:(lia)) as [p Hpi].
    exists (Build_PointStruct id v p). unfold point_at. by rewrite Hid, Hvi, Hpi. }
  exists points. split; [done |].
  pose proof (comprehension_return _ _ _ Hpoints) as Hall.
  pose proof (Forall2_length _ _ _ Hall) as Hlen. rewrite length_seq in Hlen.
  split; [done |].
  intros i id v p Hid Hvi Hpi.
  assert (i < length ids)%nat as Hi by (by apply lookup_lt_is_Some_1; eexists).
  destruct (Forall2_lookup_l _ _ _ i i Hall) as (pt & Hpt & Hat);
    [by apply lookup_seq_lt |].
  rewrite Hpt. f_equal. unfold point_at in Hat.
  rewrite Hid, Hvi, Hpi in Hat. by injection Hat.
Qed.

(** With too few vectors or payloads, building the points raises
    [IndexError]. *)
Lemma build_points_short (ids : list string) (vectors : list Vector)
    (payloads : list (gmap string string)) :
  (length vectors < length ids)%nat \/ (length payloads < length ids)%nat ->
  build_points ids vectors payloads = Raise index_error.
Proof.
  intros Hshort. unfold build_points.
  set (i := Nat.min (length vectors) (length payloads)).
  destruct (comprehension_some_raise (point_at ids vectors payloads)
              (seq 0 (length ids)) i) as (e & i' & _ & Hat & ->).
  - apply elem_of_seq. lia.
  - exists index_error. unfold point_at.
    destruct (ids !! i); [| done].
    destruct (decide (length vectors <= length payloads)%nat).
    + rewrite (lookup_ge_None_2 vectors i) by lia. done.
    + rewrite (lookup_ge_None_2 payloads i) by lia. by destruct (vectors !! i).
  - by rewrite (point_at_raise _ _ _ _ _ Hat).
Qed.

(** X1: with at least as many vectors and payloads as ids, [upsert] sends
    one batch write whose point [i] is [(ids[i], vectors[i], payloads[i])]
    (surplus vectors and payloads are ignored), and when the store accepts
    it returns the number of ids. *)
Theorem upsert_writes_one_point_per_id (env : Env) (self : QdrantStorage)
    (ids : list string) (vectors : list Vector)
    (payloads : list (gmap string string)) (tr : trace) :
  ids ≠ [] ->
  (length ids <= length vectors)%nat ->
  (length ids <= length payloads)%nat ->
  exists points r,
    upsert env self ids vectors payloads tr
      = (r, tr ++ [ClientUpsert (collection self) points])
    /\ length points = length ids
    /\ (forall i id v p,
          ids !! i = Some id -> vectors !! i = Some v -> payloads !! i = Some p ->
          points !! i = Some (Build_PointStruct id v p))
    /\ (forall u, client_upsert env tr (collection self) points = Return u ->
                  r = Return (Z.of_nat (length ids))).
Proof.
  intros Hne Hv Hp.
  destruct (build_points_enough ids vectors payloads Hv Hp)
    as (points & Hbuild & Hlen & Hat).
  rewrite upsert_is_body. unfold upsert_body.
  destruct ids as [| id0 ids']; [done |].
  unfold try_except, bind, lift, call, ret, raise. rewrite Hbuild.
  destruct (client_upsert env tr (collection self) points) as [u | e] eqn:Hup.
  - exists points. eexists. split; [reflexivity |]. split; [done |]. split; [done |].
    intros _ _. by rewrite Hlen.
  - exists points. eexists. split; [reflexivity |]. split; [done |]. split; [done |].
    intros u Hu. congruence.
Qed.

Lemma upsert_writes_one_point_per_id_witness :
  upsert env0 store0 ["a"; "b"] [[0.5%float]; [0.25%float]; [0.125%float]]
    [payload1; ∅] []
  = (Return 2%Z,
     [ClientUpsert "docs" [ Build_PointStruct "a" [0.5%float] payload1;
                            Build_PointStruct "b" [0.25%float] ∅ ]]).
Proof.
  destruct (upsert_writes_one_point_per_id env0 store0 ["a"; "b"]
              [[0.5%float]; [0.25%float]; [0.125%float]] [payload1; ∅] [])
    as (points & r & Hrun & Hlen & Hat & Hret);
    [discriminate | simpl; lia | simpl; lia |].
  rewrite Hrun, (Hret tt eq_refl).
  destruct points as [| p0 [| p1 [| p2 points]]]; try discriminate Hlen.
  pose proof (Hat 0%nat "a" [0.5%float] payload1 eq_refl eq_refl eq_refl) as H0.
  pose proof (Hat 1%nat "b" [0.25%float] ∅ eq_refl eq_refl eq_refl) as H1.
  injection H0 as ->. injection H1 as ->. reflexivity.
Defined.

(** X2: [upsert] makes no backend call at all in two cases: for an empty
    list of ids it returns 0, whatever the vectors and payloads; and when
    there are fewer vectors or payloads than ids it raises [VectorDBError]
    (tagged [upsert]) around the [IndexError] of the list access. *)
Theorem upsert_without_backend_call (env : Env) (self : QdrantStorage) (tr : trace) :
  (forall vectors payloads,
      upsert env self [] vectors payloads tr = (Return 0%Z, tr))
  /\ (forall ids vectors payloads,
        ids ≠ [] ->
        (length vectors < length ids)%nat \/ (length payloads < length ids)%nat ->
        exists x,
          upsert env self ids vectors payloads tr = (Raise x, tr)
          /\ cls x = VectorDBError
          /\ message x = "Failed to upsert vectors: list index out of range"
          /\ details x !! "operation" = Some (DStr "upsert")
          /\ original_error x = Some index_error).
Proof.
  split; [done |].
  intros ids vectors payloads Hne Hshort.
  rewrite upsert_is_body. unfold upsert_body.
  destruct ids as [| id0 ids']; [done |].
  unfold try_except, bind, lift, raise.
  rewrite (build_points_short _ _ _ Hshort).
  eexists. split; [reflexivity |]. unfold VectorDBError_init. simpl.
  destruct (truthy (collection self)); simpl; split_and!; done.
Qed.

Lemma upsert_without_backend_call_witness :
  exists x,
    upsert env0 store0 ["a"; "b"] [[0.5%float]] [payload1; ∅] [] = (Raise x, [])
    /\ cls x = VectorDBError
    /\ original_error x = Some index_error.
Proof.
  destruct (proj2 (upsert_without_backend_call env0 store0 []) ["a"; "b"]
              [[0.5%float]] [payload1; ∅])
    as (x & Hrun & Hcls & _ & _ & Horig);
    [discriminate | left; simpl; lia |].
  by exists x.
Defined.

(** X3: for every store and every input, the decorated [upsert] makes at
    most one backend call and never sleeps, and whatever it raises is a
    [VectorDBError] tagged [upsert] that wraps the cause. *)
Theorem upsert_single_attempt (env : Env) (self : QdrantStorage)
    (ids : list string) (vectors : list Vector)
    (payloads : list (gmap string string)) (tr : trace) :
  exists r added,
    upsert env self ids vectors payloads tr = (r, tr ++ added)
    /\ (added = [] \/ exists points, added = [ClientUpsert (collection self) points])
    /\ forall x, r = Raise x ->
         cls x = VectorDBError
         /\ details x !! "operation" = Some (DStr "upsert")
         /\ exists e, original_error x = Some e
                      /\ message x = "Failed to upsert vectors: " +:+ str e.
Proof.
  rewrite upsert_is_body. unfold upsert_body.
  assert (forall e,
             let x := VectorDBError_init ("Failed to upsert vectors: " +:+ str e)
                        (Some "upsert") (Some (collection self)) (Some e) in
             cls x = VectorDBError
             /\ details x !! "operation" = Some (DStr "upsert")
             /\ exists e', original_error x = Some e'
                           /\ message x = "Failed to upsert vectors: " +:+ str e')
    as Hwrap.
  { intros e. unfold VectorDBError_init. simpl.
    destruct (truthy (collection self)); simpl; split_and!; try done;
      by exists e. }
  destruct ids as [| id0 ids'].
  - exists (Return 0%Z), []. rewrite app_nil_r. split; [done |]. split; [by left |].
    discriminate.
  - unfold try_except, bind, lift, call, ret, raise.
    destruct (build_points _ _ _) as [points | e0].
    + destruct (client_upsert env tr (collection self) points) as [u | e].
      * eexists _, _. split; [reflexivity |]. split; [right; by eexists |].
        discriminate.
      * eexists _, _. split; [reflexivity |]. split; [right; by eexists |].
        intros x [= <-]. apply Hwrap.
    + eexists _, []. rewrite app_nil_r. split; [reflexivity |]. split; [by left |].
      intros x [= <-]. apply Hwrap.
Qed.

End UpsertMore.

(** ** vector_db.py: the failure path of [search], and construction *)

Section StoreMore.
Import Py Exceptions Config World Tenacity VectorDb Fixtures.

(** X4: for every store, the decorated [search] sends exactly one request
    and never sleeps; every exception of the client, [UnexpectedResponse]
    included, comes out as a [SearchError] with empty details that wraps
    it, and every answer of the client gives a result. *)
Theorem search_single_request (env : Env) (rt : Runtime) (self : QdrantStorage)
    (qv : Vector) (k : Z) (tr : trace) :
  exists r,
    search env rt self qv k tr = (r, tr ++ [ClientSearch (collection self) qv k])
    /\ (forall e,
          client_search env tr (collection self) qv k = Raise e ->
          r = Raise (Exn SearchError ("Search failed: " +:+ str e) ∅ (Some e)))
    /\ (forall results,
          client_search env tr (collection self) qv k = Return results ->
          exists out, r = Return out
                      /\ (length (contexts out) <= length results)%nat
                      /\ (length (sources out) <= length (contexts out))%nat).
Proof.
  destruct (client_search env tr (collection self) qv k) as [results | e] eqn:Hres.
  - rewrite (search_returns _ _ _ _ _ _ _ Hres). eexists. split; [reflexivity |].
    split; [discriminate |]. intros results' [= <-]. eexists. split; [reflexivity |].
    simpl. split.
    + rewrite kept_texts_filter. etrans; [apply length_filter |]. by rewrite length_fmap.
    + rewrite set_iter_perm, <- add_all_nil.
      assert (forall l s, length (add_all s l) <= length s + length l)%nat as Hadd.
      { clear. induction l as [| x l IH]; intros s; [simpl; lia |].
        unfold add_all in *. simpl. etrans; [apply IH |].
        unfold set_add. case_decide; [lia |]. rewrite length_app. simpl. lia. }
      etrans; [apply Hadd |]. simpl.
      unfold kept_sources, kept_texts. clear.
      induction results as [| r results IH]; [done |].
      cbn [omap list_omap] in *.
      destruct (truthy (payload_get r "text")); cbn [length]; lia.
  - rewrite search_is_body. unfold search_body, try_except, bind, call, raise.
    rewrite Hres. eexists. split; [reflexivity |]. split; [| discriminate].
    by intros e' [= <-].
Qed.

Definition env_search_unexpected : Env := {|
  embeddings_create := embeddings_create env0;
  qdrant_client_new := qdrant_client_new env0;
  collection_exists := collection_exists env0;
  create_collection := create_collection env0;
  client_upsert := client_upsert env0;
  client_search := fun _ _ _ _ => Raise unexpected_response;
  get_collections := get_collections env0;
  load_data := load_data env0;
  split_text := split_text env0;
  ai_infer := ai_infer env0
|}.

Lemma search_single_request_witness :
  search env_search_unexpected rt_insertion store0 [0.5%float] 5 []
  = (Raise (Exn SearchError
              "Search failed: Unexpected Response: 503 (Service Unavailable)" ∅
              (Some unexpected_response)),
     [ClientSearch "docs" [0.5%float] 5])
  /\ retry qdrant_retrying unexpected_response = true.
Proof.
  destruct (search_single_request env_search_unexpected rt_insertion store0
              [0.5%float] 5 []) as (r & Hrun & Hraise & _).
  split; [| reflexivity].
  rewrite Hrun, (Hraise unexpected_response eq_refl). reflexivity.
Defined.

(** The attributes [__init__] gives the object. *)
Definition storage_attrs (settings : Settings) (url_arg collection_arg : option string)
    (dim_arg : option Z) : QdrantStorage := {|
  url := or_else url_arg (qdrant_url settings);
  collection := or_else collection_arg (qdrant_collection settings);
  dim := match dim_arg with
         | Some d => if decide (d = 0)%Z then openai_embed_dim settings else d
         | None => openai_embed_dim settings
         end
|}.

(** X5: when the client can be built, construction asks whether the
    collection exists and creates it, with the configured dimension, only
    when it does not: an existing collection is never created again. *)
Theorem init_creates_collection_only_when_missing (settings : Settings) (env : Env)
    (url_arg collection_arg : option string) (dim_arg : option Z) (tr : trace) :
  let self := storage_attrs settings url_arg collection_arg dim_arg in
  let tr1 := tr ++ [QdrantClientNew (url self) (qdrant_timeout settings)] in
  let tr2 := tr1 ++ [CollectionExists (collection self)] in
  qdrant_client_new env tr (url self) (qdrant_timeout settings) = Return tt ->
  (collection_exists env tr1 (collection self) = Return true ->
   QdrantStorage_init settings env url_arg collection_arg dim_arg tr
   = (Return self, tr2))
  /\ (collection_exists env tr1 (collection self) = Return false ->
      create_collection env tr2 (collection self) (dim self) = Return tt ->
      QdrantStorage_init settings env url_arg collection_arg dim_arg tr
      = (Return self, tr2 ++ [CreateCollection (collection self) (dim self)])).
Proof.
  intros self tr1 tr2 Hnew. subst tr2 tr1.
  unfold QdrantStorage_init, _ensure_collection, try_except, bind, call, ret, raise.
  fold (storage_attrs settings url_arg collection_arg dim_arg). fold self.
  rewrite Hnew. split.
  - intros ->. done.
  - intros -> ->. done.
Qed.

Definition env_no_collection : Env := {|
  embeddings_create := embeddings_create env0;
  qdrant_client_new := qdrant_client_new env0;
  collection_exists := fun _ _ => Return false;
  create_collection := create_collection env0;
  client_upsert := client_upsert env0;
  client_search := client_search env0;
  get_collections := get_collections env0;
  load_data := load_data env0;
  split_text := split_text env0;
  ai_infer := ai_infer env0
|}.

Lemma init_creates_collection_only_when_missing_witness :
  QdrantStorage_init settings0 env0 None None None []
  = (Return store0, [QdrantClientNew "http://localhost:6333" 30; CollectionExists "docs"])
  /\ QdrantStorage_init settings0 env_no_collection None (Some "papers") (Some 8%Z) []
     = (Return {| url := "http://localhost:6333"; collection := "papers"; dim := 8 |},
        [QdrantClientNew "http://localhost:6333" 30; CollectionExists "papers";
         CreateCollection "papers" 8]).
Proof.
  split.
  - exact (proj1 (init_creates_collection_only_when_missing settings0 env0
                    None None None [] eq_refl) eq_refl).
  - exact (proj2 (init_creates_collection_only_when_missing settings0 env_no_collection
                    None (Some "papers") (Some 8%Z) [] eq_refl) eq_refl eq_refl).
Defined.

(** X6: whatever fails during construction, the caller sees a
    [VectorDBError] whose only detail is the operation [connect].  The
    cause it wraps is the client's exception, or, when asking for or
    creating the collection failed, the [VectorDBError] tagged
    [create_collection] that [_ensure_collection] raised around the
    backend's exception. *)
Theorem init_failure_tagged_connect (settings : Settings) (env : Env)
    (url_arg collection_arg : option string) (dim_arg : option Z)
    (tr tr' : trace) (x : exn) :
  QdrantStorage_init settings env url_arg collection_arg dim_arg tr = (Raise x, tr') ->
  cls x = VectorDBError
  /\ details x = {["operation" := DStr "connect"]}
  /\ exists cause,
       original_error x = Some cause
       /\ message x = "Failed to connect to Qdrant: " +:+ str cause
       /\ ((tr' = tr ++ [QdrantClientNew
                           (url (storage_attrs settings url_arg collection_arg dim_arg))
                           (qdrant_timeout settings)]
            /\ qdrant_client_new env tr
                 (url (storage_attrs settings url_arg collection_arg dim_arg))
                 (qdrant_timeout settings) = Raise cause)
           \/ (cls cause = VectorDBError
               /\ details cause !! "operation" = Some (DStr "create_collection")
               /\ exists e, original_error cause = Some e
                            /\ message cause = "Failed to create collection: " +:+ str e)).
Proof.
  unfold QdrantStorage_init, _ensure_collection, try_except, bind, call, ret, raise.
  fold (storage_attrs settings url_arg collection_arg dim_arg).
  set (self := storage_attrs settings url_arg collection_arg dim_arg).
  clearbody self.
  assert (forall e,
             let cause := VectorDBError_init ("Failed to create collection: " +:+ str e)
                            (Some "create_collection") (Some (collection self)) (Some e) in
             cls cause = VectorDBError
             /\ details cause !! "operation" = Some (DStr "create_collection")
             /\ exists e', original_error cause = Some e'
                           /\ message cause = "Failed to create collection: " +:+ str e')
    as Hcause.
  { intros e. unfold VectorDBError_init. simpl.
    destruct (truthy (collection self)); simpl; split_and!; try done; by exists e. }
  destruct (qdrant_client_new env tr (url self) (qdrant_timeout settings)) as [u | e0] eqn:Hnew.
  - destruct (collection_exists env _ (collection self)) as [present | e1].
    + destruct present.
      * discriminate.
      * destruct (create_collection env _ (collection self) (dim self)) as [u' | e2];
          [discriminate |].
        intros [= <- <-]. split; [done |]. split; [done |].
        eexists. split; [reflexivity |]. split; [reflexivity |]. right. apply Hcause.
    + intros [= <- <-]. split; [done |]. split; [done |].
      eexists. split; [reflexivity |]. split; [reflexivity |]. right. apply Hcause.
  - intros [= <- <-]. split; [done |]. split; [done |].
    exists e0. split; [done |]. split; [done |]. by left.
Qed.

Definition env_create_fails : Env := {|
  embeddings_create := embeddings_create env0;
  qdrant_client_new := qdrant_client_new env0;
  collection_exists := fun _ _ => Return false;
  create_collection := fun _ _ _ => Raise unexpected_response;
  client_upsert := client_upsert env0;
  client_search := client_search env0;
  get_collections := get_collections env0;
  load_data := load_data env0;
  split_text := split_text env0;
  ai_infer := ai_infer env0
|}.

Lemma init_failure_tagged_connect_witness :
  exists x cause,
    QdrantStorage_init settings0 env_create_fails None None None []
    = (Raise x, [QdrantClientNew "http://localhost:6333" 30; CollectionExists "docs";
                 CreateCollection "docs" 3072])
    /\ details x = {["operation" := DStr "connect"]}
    /\ original_error x = Some cause
    /\ details cause !! "operation" = Some (DStr "create_collection")
    /\ details cause !! "collection" = Some (DStr "docs").
Proof.
  destruct (QdrantStorage_init settings0 env_create_fails None None None [])
    as [r tr'] eqn:Hrun.
  pose proof Hrun as Hrun'. vm_compute in Hrun'.
  injection Hrun' as <- <-.
  destruct (init_failure_tagged_connect settings0 env_create_fails None None None
              [] _ _ Hrun) as (_ & Hdetails & _).
  eexists _, _. split; [reflexivity |]. split; [exact Hdetails |].
  split; [reflexivity |]. split; reflexivity.
Defined.

End StoreMore.

(** ** data_loader.py: the chunks of a document, and what can be raised *)

Section LoadMore.
Import Py Exceptions Config World Tenacity DataLoader Fixtures.

(** The page texts are the texts of the pages, in document order, without
    the missing and the empty ones. *)
Lemma page_texts_filter (docs : list Document) :
  page_texts docs = filter (fun t => t ≠ "") (omap doc_text docs).
Proof.
  induction docs as [| d docs IH]; [done |].
  unfold page_texts in *. cbn [omap list_omap].
  destruct (doc_text d) as [t |]; [| exact IH].
  destruct t as [| a t]; cbn [truthy].
  - rewrite filter_cons_False by (intros H; done). exact IH.
  - rewrite filter_cons_True by done. f_equal. exact IH.
Qed.

(** The splitting loop with a splitter that answers every text. *)
Lemma split_all_answered (env : Env) (split : string -> list string)
    (texts chunks : list string) (tr : trace) :
  (forall tr' t, split_text env tr' t = Return (split t)) ->
  split_all env texts chunks tr
  = (Return (chunks ++ concat (split <$> texts)), tr ++ (SplitText <$> texts)).
Proof.
  intros Hsplit. revert chunks tr.
  induction texts as [| t texts IH]; intros chunks tr.
  - simpl. unfold ret. by rewrite !app_nil_r.
  - cbn [split_all]. unfold bind, call. rewrite Hsplit, IH.
    cbn [fmap list_fmap concat]. by rewrite <- !app_assoc.
Qed.

(** When the splitting loop raises, the splitter raised that exception on
    one of the texts, and the loop stopped right after that request. *)
Lemma split_all_raise_inv (env : Env) (texts chunks : list string)
    (tr tr' : trace) (e : exn) :
  split_all env texts chunks tr = (Raise e, tr') ->
  exists t tr0, t ∈ texts /\ split_text env tr0 t = Raise e /\ tr' = tr0 ++ [SplitText t].
Proof.
  revert chunks tr. induction texts as [| t texts IH]; intros chunks tr.
  - discriminate.
  - cbn [split_all]. unfold bind, call.
    destruct (split_text env tr t) as [parts | e0] eqn:Hsplit.
    + intros H. destruct (IH _ _ H) as (t1 & tr0 & Hin & Hraise & Htr).
      exists t1, tr0. split; [by apply elem_of_cons; right | done].
    + intros [= <- <-]. exists t, tr. split; [apply list_elem_of_here | done].
Qed.

(** X7: with a splitter that answers every text, [load_and_chunk_pdf]
    returns the chunks of the pages that have text, page after page in
    document order; pages without text are skipped and never sent to the
    splitter, which is asked once per remaining page. *)
Theorem load_and_chunk_pdf_concatenates (env : Env) (path : string) (tr : trace)
    (docs : list Document) (split : string -> list string) :
  load_data env tr path = Return docs ->
  (forall tr' t, split_text env tr' t = Return (split t)) ->
  (exists d t, d ∈ docs /\ doc_text d = Some t /\ t ≠ "") ->
  let texts := filter (fun t => t ≠ "") (omap doc_text docs) in
  load_and_chunk_pdf env path tr
  = (Return (concat (split <$> texts)), tr ++ LoadData path :: (SplitText <$> texts)).
Proof.
  intros Hload Hsplit (d & t & Hd & Ht & Hne) texts. subst texts.
  rewrite <- page_texts_filter.
  assert (t ∈ page_texts docs) as Hin by (apply elem_of_page_texts; eauto).
  unfold load_and_chunk_pdf, bind, try_except, call. rewrite Hload.
  destruct (page_texts docs) as [| t0 texts] eqn:Htexts;
    [by apply not_elem_of_nil in Hin |].
  rewrite (split_all_answered env split) by done.
  by rewrite <- app_assoc.
Qed.

Definition two_pages : list Document :=
  [ {| doc_text := Some "Hello world." |}; {| doc_text := None |};
    {| doc_text := Some "" |}; {| doc_text := Some "Bye." |} ].

Lemma load_and_chunk_pdf_concatenates_witness :
  load_and_chunk_pdf (env_ok embed_len [] two_pages "") "doc.pdf" []
  = (Return ["Hello world."; "Bye."],
     [LoadData "doc.pdf"; SplitText "Hello world."; SplitText "Bye."]).
Proof.
  apply (load_and_chunk_pdf_concatenates (env_ok embed_len [] two_pages "")
           "doc.pdf" [] two_pages (fun t => [t])).
  - reflexivity.
  - reflexivity.
  - exists {| doc_text := Some "Hello world." |}, "Hello world.".
    split; [apply list_elem_of_here |]. split; [reflexivity | discriminate].
Defined.

(** X8: [load_and_chunk_pdf] raises nothing but its two domain errors.  A
    [PDFLoadError] comes before any splitting and wraps the reader's
    exception, or has no cause when no page has text; a [ChunkingError]
    wraps an exception the splitter raised on a page text, and ends the
    call at that request.  And it returns chunks only for a document that
    has a page with text. *)
Theorem load_and_chunk_pdf_raises_domain_errors (env : Env) (path : string)
    (tr : trace) :
  (forall x tr',
      load_and_chunk_pdf env path tr = (Raise x, tr') ->
      (cls x = PDFLoadError
       /\ tr' = tr ++ [LoadData path]
       /\ ((exists e, load_data env tr path = Raise e /\ original_error x = Some e
                      /\ message x = "Failed to load PDF: " +:+ str e)
           \/ (exists docs, load_data env tr path = Return docs
                            /\ Forall no_text docs /\ original_error x = None)))
      \/ (cls x = ChunkingError
          /\ exists e t tr0,
               original_error x = Some e
               /\ split_text env tr0 t = Raise e
               /\ t ≠ ""
               /\ tr' = tr0 ++ [SplitText t]))
  /\ (forall chunks tr',
        load_and_chunk_pdf env path tr = (Return chunks, tr') ->
        exists docs d t,
          load_data env tr path = Return docs
          /\ d ∈ docs /\ doc_text d = Some t /\ t ≠ "").
Proof.
  unfold load_and_chunk_pdf, bind, try_except, call, raise.
  destruct (load_data env tr path) as [docs | e] eqn:Hload.
  - destruct (page_texts docs) as [| t0 texts] eqn:Htexts.
    + split; [| discriminate].
      intros x tr' [= <- <-]. left. unfold PDFLoadError_init.
      split; [by destruct (truthy path) |]. split; [done |]. right.
      exists docs. split; [done |]. split; [| by destruct (truthy path)].
      apply Forall_forall. intros d Hd.
      destruct (doc_text d) as [t |] eqn:Ht; [| by left].
      destruct (decide (t = "")) as [-> | Hne]; [by right |].
      assert (t ∈ page_texts docs) as Hin by (apply elem_of_page_texts; eauto).
      rewrite Htexts in Hin. by apply not_elem_of_nil in Hin.
    + rewrite <- Htexts.
      destruct (split_all env (page_texts docs) [] (tr ++ [LoadData path]))
        as [[chunks | e] tr1] eqn:Hsplit.
      * split; [discriminate |]. intros chunks' tr' _.
        assert (t0 ∈ page_texts docs) as Hin by (rewrite Htexts; apply list_elem_of_here).
        apply elem_of_page_texts in Hin as (d & Hd & Ht & Hne).
        by exists docs, d, t0.
      * split; [| discriminate]. intros x tr' [= <- <-]. right.
        split; [done |].
        apply split_all_raise_inv in Hsplit as (t & tr0 & Hin & Hraise & ->).
        apply elem_of_page_texts in Hin as (d & Hd & Ht & Hne).
        by exists e, t, tr0.
  - split; [| discriminate].
    intros x tr' [= <- <-]. left. unfold PDFLoadError_init.
    split; [by destruct (truthy path) |]. split; [done |]. left.
    exists e. by destruct (truthy path).
Qed.

Lemma load_and_chunk_pdf_raises_domain_errors_witness :
  exists x,
    load_and_chunk_pdf env_down "nonexistent.pdf" [] = (Raise x, [LoadData "nonexistent.pdf"])
    /\ cls x = PDFLoadError.
Proof.
  destruct (load_and_chunk_pdf env_down "nonexistent.pdf" []) as [r tr'] eqn:Hrun.
  pose proof Hrun as Hrun'. vm_compute in Hrun'. injection Hrun' as <- <-.
  destruct (proj1 (load_and_chunk_pdf_raises_domain_errors env_down "nonexistent.pdf" [])
              _ _ Hrun) as [(Hcls & _) | (Hcls & _)].
  - eexists. split; [reflexivity | exact Hcls].
  - discriminate Hcls.
Defined.

End LoadMore.

(** ** data_loader.py: batch sizes below one, and a batch that fails *)

Section BatchMore.
Import Py Exceptions Config World Tenacity DataLoader Fixtures.

(** What [embed_texts] can raise: tenacity's [RetryError] around a
    retried exception, or the [EmbeddingError] around another one. *)
Lemma embed_texts_raise_inv (settings : Settings) (env : Env)
    (texts : list string) (tr tr' : trace) (x : exn) :
  embed_texts settings env texts tr = (Raise x, tr') ->
  texts ≠ []
  /\ exists e, (x = RetryError_init e /\ transient e = true)
               \/ (x = embedding_error settings texts e /\ transient e = false).
Proof.
  destruct texts as [| t texts]; [discriminate |].
  intros Hrun. split; [done |]. revert Hrun.
  rewrite embed_texts_unrolled by done. cbn zeta.
  destruct (outcome settings env (t :: texts) tr 0) as [v0 | e0]; [discriminate |].
  destruct (transient e0) eqn:H0; [| intros [= <- <-]; eauto].
  destruct (outcome settings env (t :: texts) tr 1) as [v1 | e1]; [discriminate |].
  destruct (transient e1) eqn:H1; [| intros [= <- <-]; eauto].
  destruct (outcome settings env (t :: texts) tr 2) as [v2 | e2]; [discriminate |].
  destruct (transient e2) eqn:H2; intros [= <- <-]; eauto.
Qed.

Lemma embedding_error_text_count (settings : Settings) (texts : list string) (e : exn) :
  cls (embedding_error settings texts e) = EmbeddingError
  /\ details (embedding_error settings texts e) !! "text_count"
     = Some (DInt (Z.of_nat (length texts))).
Proof.
  unfold embedding_error, EmbeddingError_init.
  destruct (truthy (openai_embed_model settings)); simpl; split; try done;
    by rewrite lookup_insert_eq.
Qed.

Lemma length_slice (texts : list string) (i k : Z) :
  (0 <= k)%Z -> (Z.of_nat (length (slice texts i (i + k))) <= k)%Z.
Proof. intros Hk. unfold slice. rewrite length_take. lia. Qed.

(** When the loop over the batches raises, [embed_texts] raised that
    exception on one of the batches. *)
Lemma batch_loop_raise_inv (settings : Settings) (env : Env) (texts : list string)
    (k : Z) (starts : list Z) (acc : list Vector) (tr tr' : trace) (x : exn) :
  batch_loop settings env texts k starts acc tr = (Raise x, tr') ->
  exists i tr0,
    i ∈ starts
    /\ embed_texts settings env (slice texts i (i + k)) tr0 = (Raise x, tr').
Proof.
  revert acc tr. induction starts as [| i starts IH]; intros acc tr; [discriminate |].
  cbn [batch_loop]. unfold bind.
  destruct (embed_texts settings env (slice texts i (i + k)) tr)
    as [[v | e] tr1] eqn:Hembed.
  - intros H. destruct (IH _ _ H) as (j & tr0 & Hj & Hraise).
    exists j, tr0. split; [by apply elem_of_cons; right | done].
  - intros [= <- <-]. exists i, tr. split; [apply list_elem_of_here | done].
Qed.

(** X9: a batch size below one never reaches the backend.  On a non-empty
    input, batch size 0 raises the [ValueError] of [range], and a negative
    batch size returns the empty list: no text is embedded and nothing is
    raised. *)
Theorem embed_texts_batch_size_below_one (settings : Settings) (env : Env)
    (texts : list string) (k : Z) (tr : trace) :
  texts ≠ [] ->
  (k = 0%Z ->
   exists x, embed_texts_batch settings env texts k tr = (Raise x, tr)
             /\ cls x = ValueError)
  /\ ((k < 0)%Z -> embed_texts_batch settings env texts k tr = (Return [], tr)).
Proof.
  intros Hne. destruct texts as [| t texts]; [done |]. unfold embed_texts_batch. split.
  - intros ->. rewrite decide_True by done. by eexists.
  - intros Hk. rewrite decide_False by lia. by rewrite decide_True by done.
Qed.

Lemma embed_texts_batch_size_below_one_witness :
  embed_texts_batch settings0 env0 sample_texts (-2) [] = (Return [], [])
  /\ exists x, embed_texts_batch settings0 env0 sample_texts 0 [] = (Raise x, [])
               /\ cls x = ValueError.
Proof.
  assert (sample_texts ≠ []) as Hne by discriminate.
  split.
  - apply (proj2 (embed_texts_batch_size_below_one settings0 env0 sample_texts (-2) [] Hne)).
    lia.
  - apply (proj1 (embed_texts_batch_size_below_one settings0 env0 sample_texts 0 [] Hne)).
    reflexivity.
Defined.

(** X10: with a batch size of at least one, a failure of
    [embed_texts_batch] is the failure of one batch: tenacity's
    [RetryError], or an [EmbeddingError] whose text count is the size of
    that batch, between 1 and the batch size, not the size of the whole
    input.  The vectors of the batches before it are lost. *)
Theorem embed_texts_batch_failure (settings : Settings) (env : Env)
    (texts : list string) (k : Z) (tr tr' : trace) (x : exn) :
  (1 <= k)%Z ->
  embed_texts_batch settings env texts k tr = (Raise x, tr') ->
  (cls x = RetryError /\ exists e, original_error x = Some e /\ transient e = true)
  \/ (cls x = EmbeddingError
      /\ exists n, details x !! "text_count" = Some (DInt n)
                   /\ (1 <= n <= k)%Z /\ (n <= Z.of_nat (length texts))%Z).
Proof.
  intros Hk. unfold embed_texts_batch.
  destruct texts as [| t texts]; [discriminate |].
  rewrite decide_False by lia. rewrite decide_False by lia.
  intros Hrun. apply batch_loop_raise_inv in Hrun as (i & tr0 & _ & Hembed).
  apply embed_texts_raise_inv in Hembed as (Hne & e & [[-> He] | [-> He]]).
  - left. split; [done |]. by exists e.
  - right. destruct (embedding_error_text_count settings
                       (slice (t :: texts) i (i + k)) e) as [Hcls Hcount].
    split; [done |]. eexists. split; [exact Hcount |].
    pose proof (length_slice (t :: texts) i k ltac:(lia)).
    assert (length (slice (t :: texts) i (i + k)) <= length (t :: texts))%nat.
    { unfold slice. rewrite length_take, length_drop. lia. }
    destruct (slice (t :: texts) i (i + k)); [done |]. simpl in *. lia.
Qed.

(** A backend that embeds short requests and rejects any request that
    contains the text ["bad"]. *)
Definition env_rejects_bad : Env :=
  with_embeddings env0
    (fun _ _ input => if decide ("bad" ∈ input) then Raise bad_input
                      else Return (embed_len <$> input)).

Lemma embed_texts_batch_failure_witness :
  exists x tr',
    embed_texts_batch settings0 env_rejects_bad ["a"; "b"; "c"; "bad"; "e"] 2 []
    = (Raise x, tr')
    /\ cls x = EmbeddingError
    /\ details x !! "text_count" = Some (DInt 2)
    /\ count_events is_embedding_call tr' = 2%nat.
Proof.
  destruct (embed_texts_batch settings0 env_rejects_bad ["a"; "b"; "c"; "bad"; "e"] 2 [])
    as [r tr'] eqn:Hrun.
  pose proof Hrun as Hrun'. vm_compute in Hrun'. injection Hrun' as <- <-.
  destruct (embed_texts_batch_failure settings0 env_rejects_bad
              ["a"; "b"; "c"; "bad"; "e"] 2 [] _ _ ltac:(lia) Hrun)
    as [[Hcls _] | [Hcls _]]; [discriminate Hcls |].
  eexists _, _. split; [reflexivity |]. split; [exact Hcls |].
  split; reflexivity.
Defined.

End BatchMore.

(** ** main.py: the name that is hashed into a point id *)

Section PointNames.
Import Py Exceptions Config World Main.

(** The f-string [f"{source_id}:{i}"]. *)
Definition chunk_name (source_id : string) (i : nat) : string :=
  source_id +:+ ":" +:+ str_of_nat i.

(** Reading a decimal numeral, most significant digit first. *)
Fixpoint read_decimal (acc : nat) (s : string) : nat :=
  match s with
  | EmptyString => acc
  | String c rest => read_decimal (10 * acc + (nat_of_ascii c - 48)) rest
  end.

(** The value read after the digits [digits fuel n] writes. *)
Fixpoint written (fuel n acc : nat) : nat :=
  match fuel with
  | O => acc
  | S fuel' =>
      if decide (n < 10)%nat then 10 * acc + n mod 10
      else 10 * written fuel' (n / 10) acc + n mod 10
  end.

Lemma nat_of_digit (n : nat) : nat_of_ascii (digit n) = (48 + n mod 10)%nat.
Proof.
  unfold digit. apply nat_ascii_embedding.
  pose proof (Nat.mod_upper_bound n 10). lia.
Qed.

Lemma read_digits (fuel n acc : nat) (rest : string) :
  read_decimal acc (digits fuel n rest) = read_decimal (written fuel n acc) rest.
Proof.
  revert n rest. induction fuel as [| fuel IH]; intros n rest; [reflexivity |].
  cbn [digits written]. case_decide as Hn.
  - cbn [read_decimal]. rewrite nat_of_digit. f_equal. lia.
  - rewrite IH. cbn [read_decimal]. rewrite nat_of_digit. f_equal. lia.
Qed.

Lemma written_value (fuel n : nat) : (n < fuel)%nat -> written fuel n 0 = n.
Proof.
  revert n. induction fuel as [| fuel IH]; intros n Hn; [lia |].
  cbn [written]. case_decide as H10.
  - rewrite Nat.mod_small by lia. lia.
  - rewrite IH.
    + pose proof (Nat.div_mod_eq n 10). lia.
    + assert (n / 10 < n)%nat by (apply Nat.div_lt; lia). lia.
Qed.

(** Reading [str(n)] gives [n] back. *)
Lemma read_str_of_nat (n : nat) : read_decimal 0 (str_of_nat n) = n.
Proof.
  unfold str_of_nat. rewrite read_digits. cbn [read_decimal].
  apply written_value. lia.
Qed.

Fixpoint no_colon (s : string) : Prop :=
  match s with
  | EmptyString => True
  | String c rest => c ≠ ":"%char /\ no_colon rest
  end.

Lemma digit_not_colon (n : nat) : digit n ≠ ":"%char.
Proof.
  intros H. apply (f_equal nat_of_ascii) in H. rewrite nat_of_digit in H.
  pose proof (Nat.mod_upper_bound n 10).
  change (nat_of_ascii ":"%char) with 58%nat in H. lia.
Qed.

Lemma digits_no_colon (fuel n : nat) (rest : string) :
  no_colon rest -> no_colon (digits fuel n rest).
Proof.
  revert n rest. induction fuel as [| fuel IH]; intros n rest Hrest; [done |].
  cbn [digits]. case_decide.
  - split; [apply digit_not_colon | done].
  - apply IH. split; [apply digit_not_colon | done].
Qed.

Lemma colon_in_append (s d : string) : ~ no_colon (s +:+ ":" +:+ d).
Proof.
  induction s as [| a s IH]; simpl.
  - intros [H _]. done.
  - intros [_ H]. by apply IH.
Qed.

(** A string is cut in one way only at its last colon. *)
Lemma split_at_last_colon (s1 s2 d1 d2 : string) :
  no_colon d1 -> no_colon d2 ->
  s1 +:+ ":" +:+ d1 = s2 +:+ ":" +:+ d2 ->
  s1 = s2 /\ d1 = d2.
Proof.
  assert (forall t, "" +:+ t = t) as Hnil by reflexivity.
  assert (forall c s t, String c s +:+ t = String c (s +:+ t)) as Hcons
    by reflexivity.
  intros H1 H2. revert s2.
  induction s1 as [| a s1 IH]; intros [| b s2];
    repeat (rewrite Hnil || rewrite Hcons).
  - by intros [= ->].
  - intros [= <- ->]. by apply colon_in_append in H1.
  - intros [= -> <-]. by apply colon_in_append in H2.
  - intros [= -> H]. destruct (IH s2 H) as [-> ->]. done.
Qed.

(** X11: the hashed name tells the source id and the chunk index apart:
    the id of chunk [i] of a source is the UUID of ["{source_id}:{i}"],
    and two pairs of source id and index with the same name are the same
    pair, also when a source id itself contains colons or digits. *)
Theorem chunk_name_injective (source1 source2 : string) (i1 i2 : nat) :
  chunk_point_id source1 i1
  = Uuid.uuid_str (Uuid.uuid5 Uuid.NAMESPACE_URL (chunk_name source1 i1))
  /\ (chunk_name source1 i1 = chunk_name source2 i2 ->
      source1 = source2 /\ i1 = i2).
Proof.
  split; [reflexivity |].
  unfold chunk_name. intros Hname.
  apply split_at_last_colon in Hname as [-> Hdigits].
  - split; [done |].
    rewrite <- (read_str_of_nat i1), <- (read_str_of_nat i2). by rewrite Hdigits.
  - by apply digits_no_colon.
  - by apply digits_no_colon.
Qed.

Lemma chunk_name_injective_witness :
  chunk_name "a:1" 2 = "a:1:2"
  /\ chunk_name "a" 12 = "a:12"
  /\ (chunk_name "a:1" 2 = chunk_name "a:1" 2 -> "a:1" = "a:1" /\ 2%nat = 2%nat).
Proof.
  split; [reflexivity |]. split; [reflexivity |].
  exact (proj2 (chunk_name_injective "a:1" "a:1" 2 2)).
Defined.

End PointNames.

(** ** main.py: the ingestion workflow *)

Section IngestMore.
Import Py Exceptions Config World Tenacity DataLoader VectorDb Main Fixtures.

(** The embedding backend embeds every text of a request by [embed_one]. *)
Definition embeds_with (settings : Settings) (env : Env)
    (embed_one : string -> Vector) : Prop :=
  forall tr input,
    embeddings_create env tr (openai_embed_model settings) input
    = Return (embed_one <$> input).

(** The vector store can be reached and has the collection. *)
Definition store_ready (env : Env) : Prop :=
  (forall tr u t, qdrant_client_new env tr u t = Return tt)
  /\ (forall tr c, collection_exists env tr c = Return true).

(** The events of constructing a store with the default arguments. *)
Definition connect_events (settings : Settings) : trace :=
  [ QdrantClientNew (qdrant_url settings) (qdrant_timeout settings);
    CollectionExists (qdrant_collection settings) ].

Lemma or_else_None (b : string) : or_else None b = b.
Proof. reflexivity. Qed.

Lemma init_ready (settings : Settings) (env : Env) (tr : trace) :
  store_ready env ->
  QdrantStorage_init settings env None None None tr
  = (Return (storage_attrs settings None None None), tr ++ connect_events settings).
Proof.
  intros [Hnew Hexists].
  unfold QdrantStorage_init, _ensure_collection, try_except, bind, call, ret.
  rewrite Hnew, Hexists. unfold connect_events. by rewrite <- app_assoc.
Qed.

(** The point written for chunk [i] with text [c]. *)
Definition chunk_point (source_id : string) (embed_one : string -> Vector)
    (i : nat) (c : string) : PointStruct :=
  Build_PointStruct (chunk_point_id source_id i) (embed_one c)
    (<["text" := c]> (<["source" := source_id]> ∅)).

Lemma build_chunk_points (source_id : string) (embed_one : string -> Vector)
    (chunks : list string) :
  build_points (point_ids source_id chunks) (embed_one <$> chunks)
    (point_payloads source_id chunks)
  = Return (imap (chunk_point source_id embed_one) chunks).
Proof.
  destruct (build_points_enough (point_ids source_id chunks) (embed_one <$> chunks)
              (point_payloads source_id chunks)) as (points & -> & Hlen & Hat).
  { unfold point_ids. by rewrite !length_fmap, length_seq. }
  { unfold point_ids, point_payloads. by rewrite !length_fmap, length_seq. }
  f_equal. unfold point_ids in Hlen. rewrite length_fmap, length_seq in Hlen.
  apply list_eq. intros i. rewrite list_lookup_imap.
  destruct (chunks !! i) as [c |] eqn:Hc.
  - simpl. apply Hat.
    + unfold point_ids. rewrite list_lookup_fmap, lookup_seq_lt; [done |].
      by apply lookup_lt_is_Some_1; eexists.
    + by rewrite list_lookup_fmap, Hc.
    + unfold point_payloads. by rewrite list_lookup_fmap, Hc.
  - simpl. apply lookup_ge_None_2. apply lookup_ge_None_1 in Hc. lia.
Qed.

(** X12: with an embedding backend that answers and a store that is ready
    and accepts the write, the step [_upsert] on a non-empty list of
    chunks sends one embedding request with all the chunks and one batch
    write with one point per chunk: id from the source id and the index,
    the vector of the chunk, payload [{source, text}]; it reports the
    number of chunks.  On an empty list it still connects to the store
    but sends no embedding request and no write, and reports 0. *)
Theorem _upsert_writes_one_point_per_chunk (settings : Settings) (env : Env)
    (embed_one : string -> Vector) (source_id : string) (tr : trace) :
  embeds_with settings env embed_one ->
  store_ready env ->
  (forall chunks,
      chunks ≠ [] ->
      let points := imap (chunk_point source_id embed_one) chunks in
      client_upsert env
        (tr ++ EmbeddingsCreate (openai_embed_model settings) chunks
            :: connect_events settings)
        (qdrant_collection settings) points = Return tt ->
      _upsert settings env {| chunks := chunks; source_id := source_id |} tr
      = (Return {| ingested := Z.of_nat (length chunks) |},
         tr ++ EmbeddingsCreate (openai_embed_model settings) chunks
            :: connect_events settings
            ++ [ClientUpsert (qdrant_collection settings) points]))
  /\ _upsert settings env {| chunks := []; source_id := source_id |} tr
     = (Return {| ingested := 0 |}, tr ++ connect_events settings).
Proof.
  intros Hembed Hready. split.
  - intros chunks Hne points Hwrite.
    unfold _upsert. cbn [Main.chunks Main.source_id]. unfold bind at 1.
    rewrite (embed_texts_answered settings env chunks tr _ Hne (Hembed _ _)).
    unfold bind at 1. rewrite (init_ready settings env _ Hready).
    unfold bind at 1. rewrite upsert_is_body. unfold upsert_body.
    destruct (point_ids source_id chunks) as [| id0 ids] eqn:Hids.
    { apply (f_equal length) in Hids. unfold point_ids in Hids.
      rewrite length_fmap, length_seq in Hids. by destruct chunks. }
    rewrite <- Hids. unfold try_except, bind, lift, call, ret.
    rewrite build_chunk_points. fold points.
    cbn [collection storage_attrs]. rewrite or_else_None.
    unfold embed_call. rewrite <- !app_assoc. cbn [app].
    rewrite Hwrite. reflexivity.
  - unfold _upsert. cbn [Main.chunks Main.source_id]. unfold bind at 1.
    rewrite embed_texts_nil. unfold bind at 1.
    rewrite (init_ready settings env _ Hready). reflexivity.
Qed.

Lemma _upsert_writes_one_point_per_chunk_witness :
  _upsert settings0 env0 {| chunks := ["Hello world."; "Bye."]; source_id := "doc.pdf" |} []
  = (Return {| ingested := 2 |},
     [ EmbeddingsCreate "text-embedding-3-large" ["Hello world."; "Bye."];
       QdrantClientNew "http://localhost:6333" 30;
       CollectionExists "docs";
       ClientUpsert "docs"
         [ chunk_point "doc.pdf" embed_len 0 "Hello world.";
           chunk_point "doc.pdf" embed_len 1 "Bye." ] ])
  /\ _upsert settings0 env0 {| chunks := []; source_id := "doc.pdf" |} []
     = (Return {| ingested := 0 |},
        [QdrantClientNew "http://localhost:6333" 30; CollectionExists "docs"]).
Proof.
  assert (embeds_with settings0 env0 embed_len) as Hembed by (intros tr input; reflexivity).
  assert (store_ready env0) as Hready by (split; intros; reflexivity).
  destruct (_upsert_writes_one_point_per_chunk settings0 env0 embed_len "doc.pdf" []
              Hembed Hready) as [Hsome Hnone].
  split; [| exact Hnone].
  apply (Hsome ["Hello world."; "Bye."]); [discriminate | reflexivity].
Defined.

(** X13: the number of vectors the embedding backend returns is not
    checked.  When it returns fewer vectors than there are chunks, the
    step connects to the store and then fails on the list access: it
    raises [VectorDBError] (tagged [upsert]) around an [IndexError], and
    nothing is written. *)
Theorem _upsert_too_few_vectors (settings : Settings) (env : Env)
    (source_id : string) (chunks : list string) (vecs : list Vector) (tr : trace) :
  embeddings_create env tr (openai_embed_model settings) chunks = Return vecs ->
  (length vecs < length chunks)%nat ->
  store_ready env ->
  exists x,
    _upsert settings env {| chunks := chunks; source_id := source_id |} tr
    = (Raise x, tr ++ EmbeddingsCreate (openai_embed_model settings) chunks
                   :: connect_events settings)
    /\ cls x = VectorDBError
    /\ details x !! "operation" = Some (DStr "upsert")
    /\ original_error x = Some index_error.
Proof.
  intros Hvecs Hshort Hready.
  assert (chunks ≠ []) as Hne by (destruct chunks; [simpl in Hshort; lia | done]).
  unfold _upsert. cbn [Main.chunks Main.source_id]. unfold bind at 1.
  rewrite (embed_texts_answered settings env chunks tr _ Hne Hvecs).
  unfold bind at 1. rewrite (init_ready settings env _ Hready).
  unfold bind at 1. rewrite upsert_is_body. unfold upsert_body.
  destruct (point_ids source_id chunks) as [| id0 ids] eqn:Hids.
  { apply (f_equal length) in Hids. unfold point_ids in Hids.
    rewrite length_fmap, length_seq in Hids. by destruct chunks. }
  rewrite <- Hids. unfold try_except, bind, lift, raise.
  rewrite build_points_short.
  - eexists. split.
    + unfold embed_call. rewrite <- !app_assoc. reflexivity.
    + unfold VectorDBError_init. simpl.
      destruct (truthy _); simpl; split_and!; done.
  - left. unfold point_ids. by rewrite length_fmap, length_seq.
Qed.

(** An embedding backend that returns one vector whatever it is asked. *)
Definition env_one_vector : Env :=
  with_embeddings env0 (fun _ _ _ => Return [[0.5%float]]).

Lemma _upsert_too_few_vectors_witness :
  exists x,
    _upsert settings0 env_one_vector
      {| chunks := ["Hello world."; "Bye."]; source_id := "doc.pdf" |} []
    = (Raise x,
       [ EmbeddingsCreate "text-embedding-3-large" ["Hello world."; "Bye."];
         QdrantClientNew "http://localhost:6333" 30; CollectionExists "docs" ])
    /\ cls x = VectorDBError
    /\ original_error x = Some index_error.
Proof.
  destruct (_upsert_too_few_vectors settings0 env_one_vector "doc.pdf"
              ["Hello world."; "Bye."] [[0.5%float]] [] eq_refl)
    as (x & Hrun & Hcls & _ & Horig).
  - simpl. lia.
  - split; intros; reflexivity.
  - by exists x.
Defined.

End IngestMore.

(** ** main.py: the order of the steps, and the way back from the store *)

Section WorkflowMore.
Import Py Exceptions Config World Tenacity DataLoader VectorDb Main Fixtures.

(** A request of the load-and-chunk step. *)
Definition is_load_event (ev : event) : Prop :=
  match ev with
  | LoadData _ | SplitText _ => True
  | _ => False
  end.

Definition is_infer_event (ev : event) : Prop :=
  match ev with
  | Infer _ _ _ _ => True
  | _ => False
  end.

Lemma split_all_adds (P : event -> Prop) (env : Env) (texts chunks : list string) :
  (forall t, P (SplitText t)) -> adds P (split_all env texts chunks).
Proof.
  intros Hsplit. revert chunks. induction texts as [| t texts IH]; intros chunks.
  - apply adds_ret.
  - cbn [split_all]. apply adds_bind; [by apply adds_call |]. intros parts. apply IH.
Qed.

Lemma load_and_chunk_pdf_adds (P : event -> Prop) (env : Env) (path : string) :
  (forall f, P (LoadData f)) -> (forall t, P (SplitText t)) ->
  adds P (load_and_chunk_pdf env path).
Proof.
  intros Hload Hsplit. unfold load_and_chunk_pdf.
  apply adds_bind.
  - apply adds_try_except; [by apply adds_call | intros e; apply adds_raise].
  - intros docs. destruct (page_texts docs); [apply adds_raise |].
    apply adds_try_except; [by apply split_all_adds | intros e; apply adds_raise].
Qed.

Lemma upsert_adds_writes (P : event -> Prop) (env : Env) (self : QdrantStorage)
    (ids : list string) (vectors : list Vector) (payloads : list (gmap string string)) :
  (forall c points, P (ClientUpsert c points)) ->
  adds P (upsert env self ids vectors payloads).
Proof.
  intros Hwrite tr. rewrite upsert_is_body. revert tr. unfold upsert_body.
  destruct ids as [| id ids]; [apply adds_ret |].
  apply adds_try_except; [| intros e; apply adds_raise].
  apply adds_bind; [apply adds_lift |]. intros points.
  apply adds_bind; [by apply adds_call |]. intros _. apply adds_ret.
Qed.

Lemma search_adds (P : event -> Prop) (env : Env) (rt : Runtime)
    (self : QdrantStorage) (qv : Vector) (k : Z) :
  (forall c v n, P (ClientSearch c v n)) -> adds P (search env rt self qv k).
Proof.
  intros Hsearch tr. rewrite search_is_body. revert tr. unfold search_body.
  apply adds_try_except; [| intros e; apply adds_raise].
  apply adds_bind; [by apply adds_call |]. intros results. apply adds_ret.
Qed.

Lemma _upsert_adds_no_load (settings : Settings) (env : Env) (cs : RAGChunkAndSrc) :
  adds (fun ev => ~ is_load_event ev) (_upsert settings env cs).
Proof.
  unfold _upsert.
  apply adds_bind; [apply embed_texts_adds; intros; by intros [] |]. intros vecs.
  apply adds_bind; [apply QdrantStorage_init_adds; intros; by intros [] |].
  intros store.
  apply adds_bind; [apply upsert_adds_writes; intros; by intros [] |].
  intros _. apply adds_ret.
Qed.

Lemma _search_adds_no_infer (settings : Settings) (env : Env) (rt : Runtime)
    (question : string) (top_k : Z) :
  adds (fun ev => ~ is_infer_event ev) (_search settings env rt question top_k).
Proof.
  unfold _search.
  apply adds_bind; [apply embed_texts_adds; intros; by intros [] |]. intros vecs.
  apply adds_bind; [apply adds_lift |]. intros qv.
  apply adds_bind; [apply QdrantStorage_init_adds; intros; by intros [] |].
  intros store.
  apply adds_bind; [apply search_adds; intros; by intros [] |].
  intros found. apply adds_ret.
Qed.

(** X14: in [rag_ingest_pdf] the embed-and-upsert step starts only after
    the load-and-chunk step has returned: the trace is the requests of
    loading and splitting followed by requests of other kinds.  When the
    first step raises, its exception reaches the caller unchanged and no
    embedding or store request is made; when the workflow returns,
    [ingested] is the number of chunks of the first step, and the source
    id is the one of the event, or the path when the event has none. *)
Theorem rag_ingest_pdf_steps_in_order (settings : Settings) (env : Env)
    (ev : IngestEvent) (tr : trace) :
  exists r step1 pre post,
    rag_ingest_pdf settings env ev tr = (r, tr ++ pre ++ post)
    /\ load_and_chunk_pdf env (pdf_path ev) tr = (step1, tr ++ pre)
    /\ Forall is_load_event pre
    /\ Forall (fun e => ~ is_load_event e) post
    /\ (forall x, step1 = Raise x -> r = Raise x /\ post = [])
    /\ (forall chunks,
          step1 = Return chunks ->
          (r, tr ++ pre ++ post)
          = _upsert settings env
              {| chunks := chunks;
                 source_id := default (pdf_path ev) (event_source_id ev) |}
              (tr ++ pre))
    /\ (forall out,
          r = Return out ->
          exists chunks, step1 = Return chunks
                         /\ ingested out = Z.of_nat (length chunks)).
Proof.
  destruct (load_and_chunk_pdf_adds is_load_event env (pdf_path ev)
              ltac:(done) ltac:(done) tr) as (pre & Hpre & Hload).
  destruct (load_and_chunk_pdf env (pdf_path ev) tr) as [step1 tr1] eqn:Hstep1.
  simpl in Hpre. subst tr1.
  unfold rag_ingest_pdf, _load. unfold bind at 1. unfold bind at 1. rewrite Hstep1.
  destruct step1 as [chunks | x].
  - unfold ret at 1.
    set (cs := {| chunks := chunks;
                  source_id := default (pdf_path ev) (event_source_id ev) |}).
    destruct (_upsert_adds_no_load settings env cs (tr ++ pre))
      as (post & Hpost & Hnoload).
    destruct (_upsert settings env cs (tr ++ pre)) as [r tr2] eqn:Hstep2.
    simpl in Hpost. subst tr2.
    exists r, (Return chunks), pre, post. rewrite <- app_assoc.
    split_and!; try done.
    { intros chunks0 [= <-]. fold cs. by rewrite Hstep2, app_assoc. }
    intros out ->. exists chunks. split; [done |].
    revert Hstep2. unfold _upsert. cbn [Main.chunks Main.source_id cs].
    intros Hstep2.
    apply bind_return_inv in Hstep2 as (vecs & trA & _ & Hstep2).
    apply bind_return_inv in Hstep2 as (store & trB & _ & Hstep2).
    apply bind_return_inv in Hstep2 as (n & trC & _ & Hstep2).
    by injection Hstep2 as <- _.
  - exists (Raise x), (Raise x), pre, []. rewrite app_nil_r.
    split_and!; try done.
    intros x' [= <-]. done.
Qed.

Lemma rag_ingest_pdf_steps_in_order_witness :
  exists x,
    rag_ingest_pdf settings0 env_blank
      {| pdf_path := "empty.pdf"; event_source_id := Some "report" |} []
    = (Raise x, [LoadData "empty.pdf"])
    /\ cls x = PDFLoadError.
Proof.
  destruct (rag_ingest_pdf_steps_in_order settings0 env_blank
              {| pdf_path := "empty.pdf"; event_source_id := Some "report" |} [])
    as (r & step1 & pre & post & Hrun & Hstep1 & _ & _ & Hraise & _).
  vm_compute in Hstep1. injection Hstep1 as <- <-.
  destruct (Hraise _ eq_refl) as [-> ->].
  eexists. split; [exact Hrun | reflexivity].
Defined.

(** X15: what ingestion writes comes back from a search as it went in.
    When the store answers a search with the payloads the ingestion step
    built for a source, in any ranking of chunks given, [contexts] is the
    non-empty chunks in that order and [sources] is that one source id
    (nothing when every chunk is empty). *)
Theorem search_returns_ingested_chunks (env : Env) (rt : Runtime)
    (self : QdrantStorage) (qv : Vector) (k : Z) (tr : trace)
    (source_id : string) (chunks : list string) (results : list ScoredPoint) :
  client_search env tr (collection self) qv k = Return results ->
  sp_payload <$> results = Some <$> point_payloads source_id chunks ->
  search env rt self qv k tr
  = (Return {| contexts := filter (fun c => c ≠ "") chunks;
               sources := match filter (fun c => c ≠ "") chunks with
                          | [] => []
                          | _ :: _ => [source_id]
                          end |},
     tr ++ [ClientSearch (collection self) qv k]).
Proof.
  intros Hres Hpayloads. rewrite (search_returns _ _ _ _ _ _ _ Hres).
  assert (kept_texts results = filter (fun c => c ≠ "") chunks
          /\ kept_sources results
             = replicate (length (filter (fun c => c ≠ "") chunks)) source_id)
    as [-> ->].
  { clear Hres. revert chunks Hpayloads.
    induction results as [| r results IH]; intros [| c chunks] Hpayloads;
      try discriminate; [done |].
    injection Hpayloads as Hr Hrest. destruct (IH _ Hrest) as [IHt IHs].
    assert (payload_get r "text" = c) as Ht.
    { unfold payload_get. rewrite Hr. simpl. by rewrite lookup_insert_eq. }
    assert (payload_get r "source" = source_id) as Hs.
    { unfold payload_get. rewrite Hr. simpl.
      rewrite lookup_insert_ne by done. by rewrite lookup_insert_eq. }
    unfold kept_texts, kept_sources in *. cbn [omap list_omap].
    rewrite Ht, Hs.
    destruct c as [| a c]; cbn [truthy].
    - rewrite filter_cons_False by (intros H; done). done.
    - rewrite filter_cons_True by done. cbn [length replicate].
      split; f_equal; done. }
  do 2 f_equal. f_equal.
  destruct (filter (fun c => c ≠ "") chunks) as [| c0 kept]; cbn [length replicate].
  - cbn [first_appearance]. apply Permutation_nil_r, set_iter_perm.
  - assert (first_appearance (source_id :: replicate (length kept) source_id)
            = [source_id]) as ->.
    { cbn [first_appearance]. f_equal.
      induction (length kept) as [| n IHn]; [done |].
      cbn [replicate first_appearance].
      rewrite filter_cons_False by (intros H; done).
      rewrite list_filter_filter.
      rewrite list_filter_filter in IHn || idtac.
      revert IHn. clear. intros IHn.
      induction (first_appearance (replicate n source_id)) as [| y l IHl]; [done |].
      rewrite filter_cons in IHn. rewrite filter_cons.
      destruct (decide (y ≠ source_id)); destruct (decide (y ≠ source_id ∧ y ≠ source_id));
        try done; try tauto. }
    apply Permutation_singleton_r, set_iter_perm.
Qed.

Lemma search_returns_ingested_chunks_witness :
  search (env_ok embed_len
            [ point "Bye." "doc.pdf"; point "" "doc.pdf"; point "Hello world." "doc.pdf" ]
            [] "")
         rt_reversed store0 [] 5 []
  = (Return {| contexts := ["Bye."; "Hello world."]; sources := ["doc.pdf"] |},
     [ClientSearch "docs" [] 5]).
Proof.
  apply (search_returns_ingested_chunks _ rt_reversed store0 [] 5 [] "doc.pdf"
           ["Bye."; ""; "Hello world."]
           [ point "Bye." "doc.pdf"; point "" "doc.pdf"; point "Hello world." "doc.pdf" ]).
  - reflexivity.
  - reflexivity.
Defined.

End WorkflowMore.

(** ** main.py: the search step and the chat request *)

Section QueryMore.
Import Py Exceptions Config World Tenacity DataLoader VectorDb Main Fixtures.

(** X16: the search step embeds the question alone and searches with the
    first vector of the answer and the given limit.  When the embedding
    backend answers with no vector at all, the step raises [IndexError]
    before the store is contacted; when the store cannot be constructed,
    that error is raised and no search is sent. *)
Theorem _search_uses_first_vector (settings : Settings) (env : Env) (rt : Runtime)
    (question : string) (top_k : Z) (tr : trace) :
  let asked := tr ++ [EmbeddingsCreate (openai_embed_model settings) [question]] in
  (embeddings_create env tr (openai_embed_model settings) [question] = Return [] ->
   _search settings env rt question top_k tr = (Raise index_error, asked))
  /\ (forall v vs,
        embeddings_create env tr (openai_embed_model settings) [question]
        = Return (v :: vs) ->
        (forall x tr1,
            QdrantStorage_init settings env None None None asked = (Raise x, tr1) ->
            _search settings env rt question top_k tr = (Raise x, tr1))
        /\ (forall store tr1,
              QdrantStorage_init settings env None None None asked = (Return store, tr1) ->
              exists r,
                _search settings env rt question top_k tr
                = (r, tr1 ++ [ClientSearch (collection store) v top_k])
                /\ forall results,
                     client_search env tr1 (collection store) v top_k = Return results ->
                     r = Return
                           {| found_contexts :=
                                filter (fun t => t ≠ "")
                                  ((fun p => payload_get p "text") <$> results);
                              found_sources :=
                                set_iter rt (first_appearance (kept_sources results)) |})).
Proof.
  intros asked. split.
  - intros Hembed. unfold _search. unfold bind at 1.
    rewrite (embed_texts_answered settings env [question] tr [] ltac:(done) Hembed).
    reflexivity.
  - intros v vs Hembed.
    assert (embed_texts settings env [question] tr = (Return (v :: vs), asked)) as Hq
      by (by apply embed_texts_answered).
    split.
    + intros x tr1 Hinit. unfold _search. unfold bind at 1. rewrite Hq.
      unfold bind at 1. unfold lift. cbn [lookup list_lookup].
      unfold bind at 1. by rewrite Hinit.
    + intros store tr1 Hinit. unfold _search. unfold bind at 1. rewrite Hq.
      unfold bind at 1. unfold lift. cbn [lookup list_lookup].
      unfold bind at 1. rewrite Hinit. unfold bind at 1.
      destruct (client_search env tr1 (collection store) v top_k)
        as [results | e] eqn:Hres.
      * rewrite (search_returns _ _ _ _ _ _ _ Hres). eexists. split; [reflexivity |].
        intros results' [= <-]. unfold ret. cbn [contexts sources].
        by rewrite kept_texts_filter.
      * destruct (search env rt store v top_k tr1) as [r tr2] eqn:Hsearch.
        rewrite search_is_body in Hsearch.
        unfold search_body, try_except, bind, call, raise in Hsearch.
        rewrite Hres in Hsearch. injection Hsearch as <- <-.
        eexists. split; [reflexivity |]. intros results. discriminate.
Qed.

(** An embedding backend that answers every request with no vector. *)
Definition env_no_vector : Env := with_embeddings env0 (fun _ _ _ => Return []).

Lemma _search_uses_first_vector_witness :
  _search settings0 env_no_vector rt_insertion "Why?" 5 []
  = (Raise index_error, [EmbeddingsCreate "text-embedding-3-large" ["Why?"]])
  /\ _search settings0 (env_ok embed_len [point "Because." "a.pdf"] [] "")
       rt_insertion "Why?" 3 []
     = (Return {| found_contexts := ["Because."]; found_sources := ["a.pdf"] |},
        [ EmbeddingsCreate "text-embedding-3-large" ["Why?"];
          QdrantClientNew "http://localhost:6333" 30; CollectionExists "docs";
          ClientSearch "docs" (embed_len "Why?") 3 ]).
Proof.
  split.
  - exact (proj1 (_search_uses_first_vector settings0 env_no_vector rt_insertion
                    "Why?" 5 []) eq_refl).
  - destruct (proj2 (proj2 (_search_uses_first_vector settings0
                              (env_ok embed_len [point "Because." "a.pdf"] [] "")
                              rt_insertion "Why?" 3 [])
                       (embed_len "Why?") [] eq_refl)
                store0
                [ EmbeddingsCreate "text-embedding-3-large" ["Why?"];
                  QdrantClientNew "http://localhost:6333" 30; CollectionExists "docs" ]
                eq_refl)
      as (r & Hrun & Hret).
    rewrite Hrun, (Hret [point "Because." "a.pdf"] eq_refl). reflexivity.
Defined.

(** X17: the chat model is called at most once per query, and only after
    the search step has returned.  The search step itself never calls it;
    when the search step raises, that exception reaches the caller
    unchanged and no chat request is made; and an exception of the chat
    call reaches the caller as it is, not wrapped in a domain error. *)
Theorem rag_query_pdf_ai_chat_request (settings : Settings) (env : Env)
    (rt : Runtime) (ev : QueryEvent) (tr : trace) :
  exists r step1 pre post,
    rag_query_pdf_ai settings env rt ev tr = (r, tr ++ pre ++ post)
    /\ _search settings env rt (question ev) (default 5%Z (event_top_k ev)) tr
       = (step1, tr ++ pre)
    /\ Forall (fun e => ~ is_infer_event e) pre
    /\ (forall x, step1 = Raise x -> r = Raise x /\ post = [])
    /\ (forall found,
          step1 = Return found ->
          let body := infer_body (found_contexts found) (question ev) in
          post = [Infer "llm-answer" (openai_api_key settings)
                    (openai_chat_model settings) body]
          /\ forall e,
               ai_infer env (tr ++ pre) (openai_api_key settings)
                 (openai_chat_model settings) body = Raise e ->
               r = Raise e).
Proof.
  destruct (_search_adds_no_infer settings env rt (question ev)
              (default 5%Z (event_top_k ev)) tr) as (pre & Hpre & Hnoinfer).
  destruct (_search settings env rt (question ev) (default 5%Z (event_top_k ev)) tr)
    as [step1 tr1] eqn:Hstep1.
  simpl in Hpre. subst tr1.
  unfold rag_query_pdf_ai. unfold bind at 1. rewrite Hstep1.
  destruct step1 as [found | x].
  - unfold bind, call, ret.
    destruct (ai_infer env (tr ++ pre) (openai_api_key settings)
                (openai_chat_model settings)
                (infer_body (found_contexts found) (question ev))) as [res | e] eqn:Hinfer.
    + eexists _, (Return found), pre, [_]. rewrite <- app_assoc.
      split; [reflexivity |]. split; [done |]. split; [done |].
      split; [discriminate |].
      intros found' [= <-]. split; [reflexivity |]. intros e He. congruence.
    + eexists _, (Return found), pre, [_]. rewrite <- app_assoc.
      split; [reflexivity |]. split; [done |]. split; [done |].
      split; [discriminate |].
      intros found' [= <-]. split; [reflexivity |]. intros e' He. congruence.
  - exists (Raise x), (Raise x), pre, []. rewrite app_nil_r.
    split; [done |]. split; [done |]. split; [done |].
    split; [by intros x' [= <-] | discriminate].
Qed.

Lemma rag_query_pdf_ai_chat_request_witness :
  exists x,
    rag_query_pdf_ai settings0 env_search_unexpected rt_insertion query0 []
    = (Raise x,
       [ EmbeddingsCreate "text-embedding-3-large" ["What is the capital of France?"];
         QdrantClientNew "http://localhost:6333" 30; CollectionExists "docs";
         ClientSearch "docs" (embed_len "What is the capital of France?") 5 ])
    /\ cls x = SearchError.
Proof.
  destruct (rag_query_pdf_ai_chat_request settings0 env_search_unexpected
              rt_insertion query0 [])
    as (r & step1 & pre & post & Hrun & Hstep1 & _ & Hraise & _).
  vm_compute in Hstep1. injection Hstep1 as <- <-.
  destruct (Hraise _ eq_refl) as [-> ->].
  eexists. split; [exact Hrun | reflexivity].
Defined.

End QueryMore.

(** ** vector_db.py and main.py: diagnostics and the health endpoints

    The diagnostic methods make two further calls to the store,
    [get_collection] and [delete_collection].  The events of this part are
    the events of the core, tagged [Core], and these two.  A piece of the
    core runs inside with the collaborators as they stand after the whole
    history and sees the core events of that history. *)

Module Ops.
Import Py Exceptions Config World Tenacity VectorDb.

(** A JSON value; an object keeps its keys in insertion order, as a
    Python [dict] does. *)
Inductive json : Type :=
| JNull
| JBool (b : bool)
| JInt (n : Z)
| JStr (s : string)
| JObj (fields : list (string * json)).

(** [d.get(key)] on an object: the first binding of the key. *)
Fixpoint assoc (key : string) (fields : list (string * json)) : option json :=
  match fields with
  | [] => None
  | (k, v) :: rest => if decide (k = key) then Some v else assoc key rest
  end.

Definition field (key : string) (j : json) : option json :=
  match j with
  | JObj fields => assoc key fields
  | _ => None
  end.

(** What [client.get_collection] answers: the two counts, which may be
    absent, and [str(info.status)]. *)
Record CollectionInfo : Type := {
  vectors_count : option Z;
  points_count : option Z;
  status : string
}.

Inductive ops_event : Type :=
| Core (ev : event)
| GetCollection (collection : string)
| DeleteCollection (collection : string).

Definition ops_trace : Type := list ops_event.

(** The core events of a history. *)
Definition core_of (xtr : ops_trace) : trace :=
  omap (fun x => match x with Core ev => Some ev | _ => None end) xtr.

Record OpsEnv : Type := {
  core_env : ops_trace -> Env;
  get_collection : ops_trace -> string -> result CollectionInfo;
  delete_collection_call : ops_trace -> string -> result unit
}.

Definition OM (A : Type) : Type := ops_trace -> result A * ops_trace.

Definition oret {A} (a : A) : OM A := fun xtr => (Return a, xtr).

Definition oraise {A} (e : exn) : OM A := fun xtr => (Raise e, xtr).

Definition obind {A B} (m : OM A) (k : A -> OM B) : OM B :=
  fun xtr =>
    match m xtr with
    | (Return a, xtr') => k a xtr'
    | (Raise e, xtr') => (Raise e, xtr')
    end.

(** [try: m  except Exception as e: handler e]. *)
Definition otry {A} (m : OM A) (handler : exn -> OM A) : OM A :=
  fun xtr =>
    match m xtr with
    | (Return a, xtr') => (Return a, xtr')
    | (Raise e, xtr') => handler e xtr'
    end.

Definition ocall {A} (ev : ops_event) (oracle : ops_trace -> result A) : OM A :=
  fun xtr => (oracle xtr, xtr ++ [ev]).

(** A computation of the core, run after the history [xtr]: its events
    are appended, tagged [Core]. *)
Definition run_core {A} (oenv : OpsEnv) (m : Env -> M A) : OM A :=
  fun xtr =>
    let tr := core_of xtr in
    let '(r, tr') := m (core_env oenv xtr) tr in
    (r, xtr ++ (Core <$> drop (length tr) tr')).

Definition opt_int (n : option Z) : json :=
  match n with
  | Some z => JInt z
  | None => JNull
  end.

Section WithEnv.
Context (settings : Settings) (oenv : OpsEnv).

(** [QdrantStorage.get_collection_info]. *)
Definition get_collection_info (self : QdrantStorage) : OM json :=
  otry
    (obind (ocall (GetCollection (collection self))
              (fun xtr => get_collection oenv xtr (collection self)))
       (fun info =>
          oret (JObj [ ("name", JStr (collection self));
                       ("vectors_count", opt_int (vectors_count info));
                       ("points_count", opt_int (points_count info));
                       ("status", JStr (status info)) ])))
    (fun e => oret (JObj [("error", JStr (str e))])).

(** [QdrantStorage.delete_collection]. *)
Definition delete_collection (self : QdrantStorage) : OM bool :=
  otry
    (obind (ocall (DeleteCollection (collection self))
              (fun xtr => delete_collection_call oenv xtr (collection self)))
       (fun _ => oret true))
    (fun _ => oret false).

(** The health of the store as the [/health] endpoint finds it: the flag
    and the info. *)
Definition probe : OM (bool * json) :=
  otry
    (obind (run_core oenv (fun env => QdrantStorage_init settings env None None None))
       (fun store =>
          obind (run_core oenv (fun env => health_check env store))
            (fun qdrant_healthy =>
               obind (if qdrant_healthy : bool
                      then get_collection_info store
                      else oret (JObj []))
                 (fun qdrant_info => oret (qdrant_healthy, qdrant_info)))))
    (fun e => oret (false, JObj [("error", JStr (str e))])).

(** The endpoint [health_check] of main.py, for the environment name
    [app_env] of the settings: the status code and the content of the
    JSON response. *)
Definition health_endpoint (app_env : string) : OM (Z * json) :=
  obind probe
    (fun '(qdrant_healthy, qdrant_info) =>
       let health_status :=
         JObj [ ("status", JStr (if qdrant_healthy then "healthy" else "degraded"));
                ("environment", JStr app_env);
                ("components",
                 JObj [ ("qdrant",
                         JObj [ ("status", JStr (if qdrant_healthy
                                                 then "healthy" else "unhealthy"));
                                ("info", qdrant_info) ]) ]) ] in
       oret (if qdrant_healthy then 200%Z else 503%Z, health_status)).

(** [HTTPException(status_code, detail)] of the web framework;
    [http_str] is what [str] gives for it. *)
Definition HTTPException_init (http_str : Z -> string -> string)
    (status_code : Z) (detail : string) : exn :=
  Exn (OtherException "HTTPException") (http_str status_code detail)
    (<["detail" := DStr detail]> (<["status_code" := DInt status_code]> ∅)) None.

(** The endpoint [readiness_check] of main.py. *)
Definition readiness_check (http_str : Z -> string -> string) : OM json :=
  otry
    (obind (run_core oenv (fun env => QdrantStorage_init settings env None None None))
       (fun store =>
          obind (run_core oenv (fun env => health_check env store))
            (fun healthy =>
               if healthy : bool
               then oret (JObj [("ready", JBool true)])
               else oraise (HTTPException_init http_str 503 "Not ready"))))
    (fun e => oraise (HTTPException_init http_str 503 (str e))).

(** The endpoint [liveness_check] of main.py. *)
Definition liveness_check : OM json := oret (JObj [("alive", JBool true)]).

End WithEnv.

End Ops.

Section OpsFacts.
Import Py Exceptions Config World Tenacity VectorDb Fixtures Ops.

(** A store that answers the diagnostics, and one that is down. *)
Definition oenv_up : OpsEnv := {|
  core_env := fun _ => env0;
  get_collection := fun _ _ =>
    Return {| vectors_count := Some 100%Z; points_count := Some 100%Z;
              status := "green" |};
  delete_collection_call := fun _ _ => Return tt
|}.

Definition oenv_down : OpsEnv := {|
  core_env := fun _ => env_down;
  get_collection := fun _ _ => Raise connection_failed;
  delete_collection_call := fun _ _ => Raise connection_failed
|}.

(** A store that can be reached but whose collection cannot be read. *)
Definition oenv_no_info : OpsEnv := {|
  core_env := fun _ => env0;
  get_collection := fun _ _ => Raise unexpected_response;
  delete_collection_call := fun _ _ => Raise unexpected_response
|}.

(** The store can be constructed and passes its health check, after the
    history [xtr]. *)
Definition store_up (settings : Settings) (oenv : OpsEnv) (xtr : ops_trace) : Prop :=
  exists store xtr1 xtr2,
    run_core oenv (fun env => QdrantStorage_init settings env None None None) xtr
    = (Return store, xtr1)
    /\ run_core oenv (fun env => health_check env store) xtr1 = (Return true, xtr2).

Definition is_core (x : ops_event) : Prop :=
  match x with
  | Core _ => True
  | _ => False
  end.

Lemma Forall_is_core (evs : trace) : Forall is_core (Core <$> evs).
Proof. apply Forall_fmap, Forall_forall. done. Qed.

(** A run of the core leaves a result and adds core events only. *)
Lemma run_core_shape {A} (oenv : OpsEnv) (m : Env -> M A) (xtr : ops_trace) :
  exists r added,
    run_core oenv m xtr = (r, xtr ++ added) /\ Forall is_core added.
Proof.
  unfold run_core. destruct (m (core_env oenv xtr) (core_of xtr)) as [r tr'].
  eexists _, _. split; [reflexivity | apply Forall_is_core].
Qed.

(** The health check of the store, run from the diagnostics, returns. *)
Lemma run_health_check_returns (oenv : OpsEnv) (self : QdrantStorage) (xtr : ops_trace) :
  exists b added,
    run_core oenv (fun env => health_check env self) xtr = (Return b, xtr ++ added)
    /\ Forall is_core added.
Proof.
  destruct (run_core_shape oenv (fun env => health_check env self) xtr)
    as (r & added & Hrun & Hadded).
  assert (exists b, r = Return b) as [b ->]; [| by exists b, added].
  revert Hrun. unfold run_core, health_check, try_except, bind, call, ret.
  destruct (get_collections _ _); intros [= <- _]; eauto.
Qed.

(** Reading the collection info returns, after one call to the store. *)
Lemma get_collection_info_returns (oenv : OpsEnv) (self : QdrantStorage)
    (xtr : ops_trace) :
  exists j,
    get_collection_info oenv self xtr
    = (Return j, xtr ++ [GetCollection (collection self)]).
Proof.
  unfold get_collection_info, otry, obind, ocall, oret.
  destruct (get_collection oenv xtr (collection self)); by eexists.
Qed.

(** X18: the diagnostic methods never raise.  [get_collection_info]
    returns the name and the counts of the collection, and when the call
    to the store raises it returns the one-key object [{"error": str(e)}]
    instead; [delete_collection] returns [True] exactly when the store
    performed the deletion and [False] on any exception.  Each makes one
    call to the store. *)
Theorem diagnostics_never_raise (oenv : OpsEnv) (self : QdrantStorage)
    (xtr : ops_trace) :
  (exists j,
      get_collection_info oenv self xtr
      = (Return j, xtr ++ [GetCollection (collection self)])
      /\ (forall e,
            get_collection oenv xtr (collection self) = Raise e ->
            j = JObj [("error", JStr (str e))])
      /\ (forall info,
            get_collection oenv xtr (collection self) = Return info ->
            field "name" j = Some (JStr (collection self))
            /\ field "vectors_count" j = Some (opt_int (vectors_count info))
            /\ field "points_count" j = Some (opt_int (points_count info))
            /\ field "status" j = Some (JStr (status info))
            /\ field "error" j = None))
  /\ (exists b,
         delete_collection oenv self xtr
         = (Return b, xtr ++ [DeleteCollection (collection self)])
         /\ (b = true <-> exists u, delete_collection_call oenv xtr (collection self)
                                    = Return u)).
Proof.
  split.
  - unfold get_collection_info, otry, obind, ocall, oret.
    destruct (get_collection oenv xtr (collection self)) as [info | e].
    + eexists. split; [reflexivity |]. split; [discriminate |].
      intros info' [= <-]. simpl. split_and!; done.
    + eexists. split; [reflexivity |]. split; [| discriminate].
      by intros e' [= <-].
  - unfold delete_collection, otry, obind, ocall, oret.
    destruct (delete_collection_call oenv xtr (collection self)) as [u | e].
    + exists true. split; [done |]. split; [eauto | done].
    + exists false. split; [done |]. split; [done | by intros [u Hu]].
Qed.

Lemma diagnostics_never_raise_witness :
  get_collection_info oenv_no_info store0 []
  = (Return (JObj [("error", JStr "Unexpected Response: 503 (Service Unavailable)")]),
     [GetCollection "docs"])
  /\ delete_collection oenv_up store0 [] = (Return true, [DeleteCollection "docs"]).
Proof.
  destruct (diagnostics_never_raise oenv_no_info store0 [])
    as [(j & Hinfo & Herr & _) _].
  destruct (diagnostics_never_raise oenv_up store0 [])
    as [_ (b & Hdel & Hb)].
  split.
  - rewrite Hinfo, (Herr unexpected_response eq_refl). reflexivity.
  - rewrite Hdel. assert (b = true) as -> by (apply Hb; by exists tt). reflexivity.
Defined.

(** X19: the [/health] endpoint never raises and answers 200 or 503.  It
    answers 200 with status [healthy] exactly when the store can be
    constructed and passes its health check, also when reading the
    collection info then fails; otherwise it answers 503 with status
    [degraded] and has not asked for the collection info. *)
Theorem health_endpoint_status (settings : Settings) (oenv : OpsEnv)
    (app_env : string) (xtr : ops_trace) :
  exists code content added,
    health_endpoint settings oenv app_env xtr = (Return (code, content), xtr ++ added)
    /\ field "environment" content = Some (JStr app_env)
    /\ ((code = 200%Z
         /\ field "status" content = Some (JStr "healthy")
         /\ store_up settings oenv xtr)
        \/ (code = 503%Z
            /\ field "status" content = Some (JStr "degraded")
            /\ ~ store_up settings oenv xtr
            /\ Forall is_core added)).
Proof.
  unfold health_endpoint, probe, store_up.
  destruct (run_core_shape oenv
              (fun env => QdrantStorage_init settings env None None None) xtr)
    as (r1 & a1 & Hinit & Ha1).
  unfold obind at 1. unfold otry. unfold obind at 1. rewrite Hinit.
  destruct r1 as [store | e].
  - destruct (run_health_check_returns oenv store (xtr ++ a1))
      as (b & a2 & Hcheck & Ha2).
    unfold obind at 1. rewrite Hcheck. destruct b.
    + destruct (get_collection_info_returns oenv store ((xtr ++ a1) ++ a2))
        as (j & Hinfo).
      unfold obind at 1. rewrite Hinfo. unfold oret.
      eexists _, _, (a1 ++ a2 ++ [_]). split; [by rewrite !app_assoc |].
      split; [done |]. left. split; [done |]. split; [done |].
      by exists store, (xtr ++ a1), ((xtr ++ a1) ++ a2).
    + unfold obind, oret.
      eexists _, _, (a1 ++ a2). split; [by rewrite !app_assoc |].
      split; [done |]. right. split; [done |]. split; [done |]. split.
      * intros (store' & xtr1 & xtr2 & Hinit' & Hcheck').
        try rewrite Hinit in Hinit'. injection Hinit' as <- <-.
        try rewrite Hcheck in Hcheck'. discriminate.
      * by apply Forall_app.
  - unfold oret. eexists _, _, a1. split; [reflexivity |].
    split; [done |]. right. split; [done |]. split; [done |]. split; [| done].
    intros (store' & xtr1 & xtr2 & Hinit' & _).
    try rewrite Hinit in Hinit'. discriminate.
Qed.

Lemma health_endpoint_status_witness :
  (exists content xtr',
      health_endpoint settings0 oenv_no_info "testing" [] = (Return (200%Z, content), xtr')
      /\ field "status" content = Some (JStr "healthy"))
  /\ (exists content xtr',
         health_endpoint settings0 oenv_down "testing" [] = (Return (503%Z, content), xtr')
         /\ field "status" content = Some (JStr "degraded")).
Proof.
  split.
  - destruct (health_endpoint_status settings0 oenv_no_info "testing" [])
      as (code & content & added & Hrun & _ & [(-> & Hstatus & _) | (-> & _ & Hdown & _)]).
    + by exists content, ([] ++ added).
    + exfalso. apply Hdown.
      eexists _, _, _. split; reflexivity.
  - destruct (health_endpoint_status settings0 oenv_down "testing" [])
      as (code & content & added & Hrun & _ & [(-> & _ & Hup) | (-> & Hstatus & _)]).
    + exfalso. destruct Hup as (store & xtr1 & xtr2 & Hinit & Hcheck).
      vm_compute in Hinit. injection Hinit as <- <-.
      vm_compute in Hcheck. discriminate Hcheck.
    + by exists content, ([] ++ added).
Defined.

(** X20: the readiness endpoint returns [{"ready": True}] exactly when
    the store can be constructed and passes its health check; in every
    other case, a failed health check included, what it raises is an
    [HTTPException] with status code 503, never the error of the store
    itself. *)
Theorem readiness_check_ready_or_503 (settings : Settings) (oenv : OpsEnv)
    (http_str : Z -> string -> string) (xtr : ops_trace) :
  exists r added,
    readiness_check settings oenv http_str xtr = (r, xtr ++ added)
    /\ Forall is_core added
    /\ ((r = Return (JObj [("ready", JBool true)]) /\ store_up settings oenv xtr)
        \/ (~ store_up settings oenv xtr
            /\ exists x, r = Raise x
                         /\ cls x = OtherException "HTTPException"
                         /\ details x !! "status_code" = Some (DInt 503))).
Proof.
  unfold readiness_check, store_up.
  destruct (run_core_shape oenv
              (fun env => QdrantStorage_init settings env None None None) xtr)
    as (r1 & a1 & Hinit & Ha1).
  unfold otry. unfold obind at 1. rewrite Hinit.
  destruct r1 as [store | e].
  - destruct (run_health_check_returns oenv store (xtr ++ a1))
      as (b & a2 & Hcheck & Ha2).
    unfold obind at 1. rewrite Hcheck. destruct b.
    + unfold oret. eexists _, (a1 ++ a2). split; [by rewrite !app_assoc |].
      split; [by apply Forall_app |]. left. split; [done |].
      by exists store, (xtr ++ a1), ((xtr ++ a1) ++ a2).
    + unfold oraise. eexists _, (a1 ++ a2). split; [by rewrite !app_assoc |].
      split; [by apply Forall_app |]. right. split.
      * intros (store' & xtr1 & xtr2 & Hinit' & Hcheck').
        try rewrite Hinit in Hinit'. injection Hinit' as <- <-.
        try rewrite Hcheck in Hcheck'. discriminate.
      * eexists. split; [reflexivity |]. split; reflexivity.
  - unfold oraise. eexists _, a1. split; [reflexivity |]. split; [done |].
    right. split.
    + intros (store' & xtr1 & xtr2 & Hinit' & _).
      try rewrite Hinit in Hinit'. discriminate.
    + eexists. split; [reflexivity |]. split; reflexivity.
Qed.

(** [str] of an [HTTPException] as recent versions of the framework
    define it: ["{status_code}: {detail}"]. *)
Definition http_str_status_detail (status_code : Z) (detail : string) : string :=
  str_of_nat (Z.to_nat status_code) +:+ ": " +:+ detail.

Lemma readiness_check_ready_or_503_witness :
  (exists xtr', readiness_check settings0 oenv_up http_str_status_detail []
                = (Return (JObj [("ready", JBool true)]), xtr'))
  /\ (exists x xtr', readiness_check settings0 oenv_down http_str_status_detail []
                     = (Raise x, xtr')
                     /\ details x !! "status_code" = Some (DInt 503)).
Proof.
  split.
  - destruct (readiness_check_ready_or_503 settings0 oenv_up http_str_status_detail [])
      as (r & added & Hrun & _ & [(-> & _) | (Hdown & _)]).
    + by exists ([] ++ added).
    + exfalso. apply Hdown. eexists _, _, _. split; reflexivity.
  - destruct (readiness_check_ready_or_503 settings0 oenv_down http_str_status_detail [])
      as (r & added & Hrun & _ & [(_ & Hup) | (_ & x & -> & _ & Hcode)]).
    + exfalso. destruct Hup as (store & xtr1 & xtr2 & Hinit & Hcheck).
      vm_compute in Hinit. injection Hinit as <- <-.
      vm_compute in Hcheck. discriminate Hcheck.
    + by exists x, ([] ++ added).
Defined.

End OpsFacts.

Section UpsertMoreExamples.
Import Py Exceptions Config World Tenacity VectorDb Fixtures.

Lemma upsert_single_attempt_witness :
  exists x,
    upsert env_upsert_flaky store0 ["id1"] [[0.5%float]] [payload1] []
    = (Raise x, [ClientUpsert "docs" points1])
    /\ cls x = VectorDBError
    /\ details x !! "operation" = Some (DStr "upsert").
Proof.
  destruct (upsert_single_attempt env_upsert_flaky store0 ["id1"] [[0.5%float]]
              [payload1] []) as (r & added & Hrun & _ & Hraise).
  pose proof Hrun as Hrun'. vm_compute in Hrun'. injection Hrun' as <- <-.
  destruct (Hraise _ eq_refl) as (Hcls & Hop & _).
  eexists. split; [reflexivity |]. split; [exact Hcls | exact Hop].
Defined.

End UpsertMoreExamples.

(** * The prompt of the chat request ([main.py], [rag_query_pdf_ai]) *)

Section PromptMore.
Import Py Main.

(** [p in s] on strings: [p] occurs in [s] as a contiguous substring. *)
Definition occurs_in (p s : string) : Prop :=
  exists before after, s = before +:+ p +:+ after.

Lemma append_nil_r (s : string) : s +:+ "" = s.
Proof.
  induction s as [|c s IH]; [reflexivity|].
  change (String c (s +:+ "") = String c s). by rewrite IH.
Qed.

Lemma append_assoc (s t u : string) : (s +:+ t) +:+ u = s +:+ (t +:+ u).
Proof.
  induction s as [|c s IH]; [reflexivity|].
  change (String c ((s +:+ t) +:+ u) = String c (s +:+ (t +:+ u))).
  by rewrite IH.
Qed.

Lemma occurs_in_append_l (p s t : string) :
  occurs_in p s -> occurs_in p (s +:+ t).
Proof.
  intros (a & b & ->). exists a, (b +:+ t). by rewrite !append_assoc.
Qed.

Lemma occurs_in_append_r (p s t : string) :
  occurs_in p t -> occurs_in p (s +:+ t).
Proof.
  intros (a & b & ->). exists (s +:+ a), b. by rewrite !append_assoc.
Qed.

(** Every part of a join occurs in the joined string. *)
Lemma occurs_in_join (sep p : string) (parts : list string) :
  p ∈ parts -> occurs_in p (join sep parts).
Proof.
  induction parts as [|q rest IH]; [by intros ?%elem_of_nil|].
  intros [->|Hin]%elem_of_cons.
  - destruct rest as [|q' rest'].
    + exists "", "". cbn. by rewrite append_nil_r.
    + exists "", (sep +:+ join sep (q' :: rest')). reflexivity.
  - destruct rest as [|q' rest']; [by apply elem_of_nil in Hin|].
    change (join sep (q :: q' :: rest'))
      with (q +:+ sep +:+ join sep (q' :: rest')).
    by apply occurs_in_append_r, occurs_in_append_r, IH.
Qed.

(** X21. The user message of the chat request carries the question
    verbatim on its own line ["Question: " + question + "\n"], also when no
    context was found, and every retrieved context verbatim as a bullet
    ["- " + c], whatever characters they hold: nothing is escaped,
    truncated or dropped. *)
Theorem user_content_carries_contexts_and_question
    (contexts : list string) (question : string) :
  occurs_in ("Question: " +:+ question +:+ nl)
    (user_content contexts question)
  /\ forall c, c ∈ contexts ->
       occurs_in ("- " +:+ c) (user_content contexts question).
Proof.
  unfold user_content. split.
  - do 8 apply occurs_in_append_r.
    exists "", "Answer concisely using the context above.".
    by rewrite !append_assoc.
  - intros c Hin. do 5 apply occurs_in_append_r. apply occurs_in_append_l.
    apply occurs_in_join. apply list_elem_of_fmap. by exists c.
Qed.

Lemma user_content_carries_contexts_and_question_witness :
  occurs_in ("Question: " +:+ "Why?" +:+ nl) (user_content [] "Why?")
  /\ "beta" ∈ ["alpha"; "beta"]
  /\ occurs_in ("- " +:+ "beta") (user_content ["alpha"; "beta"] "Why?").
Proof.
  assert ("beta" ∈ ["alpha"; "beta"]) as Hin
    by (apply elem_of_cons; right; apply elem_of_cons; left; reflexivity).
  split; [| split; [exact Hin |]].
  - exact (proj1 (user_content_carries_contexts_and_question [] "Why?")).
  - exact (proj2 (user_content_carries_contexts_and_question
                    ["alpha"; "beta"] "Why?") "beta" Hin).
Defined.

End PromptMore.
